(** * kernel-hardening-checker: the input/output module

    A shallow embedding of [kernel_hardening_checker/__init__.py]: the
    detectors ([detect_arch_kconfig], [detect_arch_sysctl],
    [detect_kernel_version], [detect_compiler]), the three parsers
    ([parse_kconfig_file], [parse_cmdline_file], [parse_sysctl_file]), the
    report printer ([print_checklist]) and the driver ([perform_checking]).

    Modelling choices.
    - A Python [str] is a [string]; a character is an [ascii] standing for a
      code point below 256.  The text of a file is what Python hands out
      after decoding and newline translation.
    - A [dict] is a [gmap string string].
    - [sys.exit], a failing [assert] and an [IndexError]/[ValueError] end a
      computation: they are the three non-[Done] cases of [outcome].
    - A file system gives a name no file, and [open] raises
      [FileNotFoundError], or a file that opens and whose content decodes
      to a text.  A file that [open] or the decoder refuses otherwise (a
      directory, a file without read permission, bytes that are not UTF-8,
      a damaged [.gz]) is outside the model: what is proved of a file is
      proved of a file that is read.
    - What is written to stdout and which functions of the engine module
      are called is logged, in order, in the first component of [W]: text
      for the detectors and the parsers, [out] for the report, [event] for
      the driver.
    - [engine.py] and [checks.py] are not part of the module: their
      functions are the fields of the class [Engine]. *)

From Stdlib Require Import String Ascii NArith Bool Lia.
From stdpp Require Import base option list gmap strings pretty.

Local Open Scope string_scope.
Local Open Scope list_scope.

(** ** Python strings *)

Module Py.

Definition LF : ascii := "010"%char.
Definition NL : string := String LF "".
(** the double quote character, for messages *)
Definition DQ : string := String "034"%char "".

(** [str.isspace] on one character, code points below 256. *)
Definition isspace (c : ascii) : bool :=
  let n := N_of_ascii c in
  (((9 <=? n) && (n <=? 13)) || ((28 <=? n) && (n <=? 32))
   || (n =? 133) || (n =? 160))%N.

Fixpoint lstrip (s : string) : string :=
  match s with
  | String c s' => if isspace c then lstrip s' else s
  | EmptyString => EmptyString
  end.

Fixpoint rstrip (s : string) : string :=
  match s with
  | EmptyString => EmptyString
  | String c s' =>
      match rstrip s' with
      | EmptyString => if isspace c then EmptyString else String c EmptyString
      | r => String c r
      end
  end.

(** [s.strip()] *)
Definition strip (s : string) : string := lstrip (rstrip s).

(** Cut [s] at every character satisfying [sep]; the separators are dropped
    and empty fields are kept, so the result is never empty. *)
Fixpoint fields (sep : ascii -> bool) (s : string) : list string :=
  match s with
  | EmptyString => [EmptyString]
  | String c s' =>
      if sep c then EmptyString :: fields sep s'
      else match fields sep s' with
           | w :: ws => String c w :: ws
           | [] => [String c EmptyString]
           end
  end.

Definition nonempty (s : string) : bool :=
  match s with EmptyString => false | _ => true end.

(** [s.split()]: runs of whitespace separate, no empty field. *)
Definition split_ws (s : string) : list string :=
  List.filter nonempty (fields isspace s).

(** [s.split(c)] for a one-character separator. *)
Definition split (c : ascii) (s : string) : list string :=
  fields (Ascii.eqb c) s.

(** [s.split(c, 1)]: one or two fields. *)
Fixpoint split1 (c : ascii) (s : string) : list string :=
  match s with
  | EmptyString => [EmptyString]
  | String a s' =>
      if Ascii.eqb a c then [EmptyString; s']
      else match split1 c s' with
           | w :: ws => String a w :: ws
           | [] => [String a EmptyString]
           end
  end.

(** [c in s] for a character [c] *)
Fixpoint contains (c : ascii) (s : string) : bool :=
  match s with
  | EmptyString => false
  | String a s' => Ascii.eqb a c || contains c s'
  end.

(** [s.startswith(p)] *)
Fixpoint startswith (p s : string) : bool :=
  match p, s with
  | EmptyString, _ => true
  | String a p', String b s' => Ascii.eqb a b && startswith p' s'
  | String _ _, EmptyString => false
  end.

(** [s[n:]] *)
Fixpoint slice_from (n : nat) (s : string) : string :=
  match n, s with
  | O, _ => s
  | S n', String _ s' => slice_from n' s'
  | S _, EmptyString => EmptyString
  end.

(** [s[:-1]] *)
Fixpoint drop_last (s : string) : string :=
  match s with
  | EmptyString => EmptyString
  | String _ EmptyString => EmptyString
  | String c s' => String c (drop_last s')
  end.

(** [s[:n]] *)
Fixpoint slice_to (n : nat) (s : string) : string :=
  match n, s with
  | S n', String c s' => String c (slice_to n' s')
  | _, _ => EmptyString
  end.

Definition is_digit (c : ascii) : bool :=
  let n := N_of_ascii c in ((48 <=? n) && (n <=? 57))%N.

Fixpoint all_chars (p : ascii -> bool) (s : string) : bool :=
  match s with
  | EmptyString => true
  | String c s' => p c && all_chars p s'
  end.

(** [s.isdecimal()]: at least one character, all of them decimal digits. *)
Definition isdecimal (s : string) : bool := nonempty s && all_chars is_digit s.

Fixpoint int_acc (acc : N) (s : string) : N :=
  match s with
  | EmptyString => acc
  | String c s' => int_acc (10 * acc + (N_of_ascii c - 48))%N s'
  end.

(** the number a string of decimal digits stands for *)
Definition decimal_value (s : string) : N := int_acc 0 s.

(** [sys.int_info.default_max_str_digits]: CPython's [int] converts a
    decimal string of at most that many digits *)
Definition max_str_digits : nat := 4300.

(** [int(s)] for a string of decimal digits: its value, or [None] where
    [int] raises [ValueError], as it does for more than [max_str_digits]
    digits *)
Definition int (s : string) : option N :=
  if Nat.leb (String.length s) max_str_digits then Some (decimal_value s) else None.

(** [f.readlines()]: every line keeps its newline; the last one may lack it. *)
Fixpoint readlines (s : string) : list string :=
  match s with
  | EmptyString => []
  | String c s' =>
      if Ascii.eqb c LF then String c EmptyString :: readlines s'
      else match readlines s' with
           | l :: ls => String c l :: ls
           | [] => [String c EmptyString]
           end
  end.

(** [f.readline()] called for the [n]-th time on a fresh file: the empty
    string at the end of the file. *)
Definition readline (n : nat) (s : string) : string :=
  nth n (readlines s) EmptyString.

(** Truth value of a [str] or [None]. *)
Definition truthy (s : option string) : bool :=
  match s with Some s' => nonempty s' | None => false end.

(** [s != lit] for [s] a [str] or [None] *)
Definition is_not (s : option string) (lit : string) : bool :=
  match s with Some s' => negb (String.eqb s' lit) | None => true end.

(** [s * n] *)
Fixpoint times (s : string) (n : nat) : string :=
  match n with
  | O => EmptyString
  | S n' => s +:+ times s n'
  end.

(** [f'{s:^w}'] *)
Definition centre (w : nat) (s : string) : string :=
  let pad := w - String.length s in
  let left := Nat.div2 pad in
  times " " left +:+ s +:+ times " " (pad - left).

End Py.

(** ** Regular expressions

    The fragment of Python's [re] the module uses, with [re]'s backtracking
    semantics: alternatives are tried left to right, repetitions are greedy,
    [search] takes the leftmost start.  A repetition applies to a set of
    characters, which is all the patterns of the module need. *)

Module Re.

Inductive regex : Type :=
| Lit (s : string)                 (* the characters of [s] *)
| Chr (p : ascii -> bool)          (* one character of a set *)
| Plus (p : ascii -> bool)         (* [p+] *)
| Star (p : ascii -> bool)         (* [p*] *)
| Opt (p : ascii -> bool)          (* [p?] *)
| Bol                              (* [^] *)
| Eol                              (* [$] *)
| Group (r : regex)                (* [( r )] *)
| Seq (r1 r2 : regex)
| Alt (r1 r2 : regex).             (* [r1|r2] *)

(** [r1 r2 ... rn] *)
Definition cat (rs : list regex) : regex := foldr Seq (Lit EmptyString) rs.

(** Sets of characters. *)
Definition dot (c : ascii) : bool := negb (Ascii.eqb c Py.LF).
Definition between (lo hi : ascii) (c : ascii) : bool :=
  ((N_of_ascii lo <=? N_of_ascii c) && (N_of_ascii c <=? N_of_ascii hi))%N.
Definition one_of (s : string) (c : ascii) : bool := Py.contains c s.
Definition union (p q : ascii -> bool) (c : ascii) : bool := p c || q c.

(** A continuation gets the position reached, the rest of the subject and
    the groups captured so far. *)
Definition cont : Type := nat -> string -> list string -> option (list string).

Fixpoint lit_k (l : string) (pos : nat) (s : string) (caps : list string)
  (k : cont) : option (list string) :=
  match l, s with
  | EmptyString, _ => k pos s caps
  | String a l', String b s' =>
      if Ascii.eqb a b then lit_k l' (S pos) s' caps k else None
  | String _ _, EmptyString => None
  end.

(** Greedy [p*]: take a character when possible, give it back when the rest
    of the pattern fails. *)
Fixpoint star_k (p : ascii -> bool) (pos : nat) (s : string)
  (caps : list string) (k : cont) : option (list string) :=
  match s with
  | String c s' =>
      if p c then
        match star_k p (S pos) s' caps k with
        | Some r => Some r
        | None => k pos s caps
        end
      else k pos s caps
  | EmptyString => k pos s caps
  end.

Fixpoint rmatch (r : regex) (pos : nat) (s : string) (caps : list string)
  (k : cont) : option (list string) :=
  match r with
  | Lit l => lit_k l pos s caps k
  | Chr p =>
      match s with
      | String c s' => if p c then k (S pos) s' caps else None
      | EmptyString => None
      end
  | Plus p =>
      match s with
      | String c s' => if p c then star_k p (S pos) s' caps k else None
      | EmptyString => None
      end
  | Star p => star_k p pos s caps k
  | Opt p =>
      match s with
      | String c s' =>
          if p c then
            match k (S pos) s' caps with
            | Some r => Some r
            | None => k pos s caps
            end
          else k pos s caps
      | EmptyString => k pos s caps
      end
  | Bol => if Nat.eqb pos 0 then k pos s caps else None
  | Eol =>
      if String.eqb s EmptyString || String.eqb s Py.NL then k pos s caps
      else None
  | Group r' =>
      rmatch r' pos s caps
        (fun pos' s' caps' => k pos' s' (caps' ++ [Py.slice_to (pos' - pos) s]))
  | Seq r1 r2 =>
      rmatch r1 pos s caps (fun pos' s' caps' => rmatch r2 pos' s' caps' k)
  | Alt r1 r2 =>
      match rmatch r1 pos s caps k with
      | Some r => Some r
      | None => rmatch r2 pos s caps k
      end
  end.

Definition accept : cont := fun _ _ caps => Some caps.

(** [r.match(s)]: [None], or the groups of the match. *)
Definition match_ (r : regex) (s : string) : option (list string) :=
  rmatch r 0 s [] accept.

Fixpoint search_from (r : regex) (pos : nat) (s : string)
  : option (list string) :=
  match rmatch r pos s [] accept with
  | Some caps => Some caps
  | None =>
      match s with
      | String _ s' => search_from r (S pos) s'
      | EmptyString => None
      end
  end.

(** [re.search(r, s)] *)
Definition search (r : regex) (s : string) : option (list string) :=
  search_from r 0 s.

(** [m.group(1)] of a match *)
Definition group1 (caps : list string) : string := nth 0 caps EmptyString.

(** a match object is true, [None] is false *)
Definition matched (m : option (list string)) : bool :=
  match m with Some _ => true | None => false end.

End Re.

Import Py.

(** ** Outcomes and logs *)

Inductive exn : Type :=
| AssertionError (msg : string)
| IndexError
| ValueError.

(** the argument of [sys.exit] *)
Inductive exit_arg : Type :=
| ExitMsg (msg : string)
| ExitCode (code : N).

Inductive outcome (A : Type) : Type :=
| Done (a : A)
| SysExit (arg : exit_arg)
| Raised (e : exn).
Arguments Done {A} a.
Arguments SysExit {A} arg.
Arguments Raised {A} e.

(** A computation: what it logged, in order, and how it ended. *)
Definition W (L A : Type) : Type := (list L * outcome A)%type.

Definition ret {L A} (a : A) : W L A := ([], Done a).

Definition bind {L A B} (m : W L A) (k : A -> W L B) : W L B :=
  match m with
  | (l, Done a) => let (l', r) := k a in (l ++ l', r)
  | (l, SysExit e) => (l, SysExit e)
  | (l, Raised e) => (l, Raised e)
  end.

Notation "x <- m ;; k" := (bind m (fun x => k))
  (at level 20, m at level 99, k at level 200, only parsing).
Notation "' p <- m ;; k" := (bind m (fun x => match x with p => k end))
  (at level 20, p pattern, m at level 99, k at level 200, only parsing).
Notation "m ;; k" := (bind m (fun _ => k))
  (at level 100, k at level 200, only parsing, right associativity).

Definition emit {L} (l : L) : W L unit := ([l], Done tt).
Definition sys_exit {L A} (msg : string) : W L A := ([], SysExit (ExitMsg msg)).
Definition raise {L A} (e : exn) : W L A := ([], Raised e).
Definition pass {L} : W L unit := ret tt.

(** [print(s)] where only text is written: the log is the text *)
Definition print (s : string) : W string unit := emit (s +:+ NL).

(** [assert(b), msg] *)
Definition assert_ {L} (b : bool) (msg : string) : W L unit :=
  if b then ret tt else raise (AssertionError msg).

Definition log {L A} (m : W L A) : list L := fst m.
Definition end_ {L A} (m : W L A) : outcome A := snd m.

(** [for x in l: s = body(s, x)], stopping at the first exit or exception *)
Fixpoint for_each {L A S} (body : S -> A -> W L S) (l : list A) (s : S)
  : W L S :=
  match l with
  | [] => ret s
  | x :: l' => s' <- body s x ;; for_each body l' s'
  end.

(** [l[i]] *)
Definition index {L} (l : list string) (i : nat) : W L string :=
  match nth_error l i with
  | Some x => ret x
  | None => raise IndexError
  end.

(** [tuple(map(int, l))] for strings of decimal digits: the first one [int]
    refuses raises [ValueError] *)
Fixpoint ints {L} (l : list string) : W L (list N) :=
  match l with
  | [] => ret []
  | s :: l' =>
      match int s with
      | Some n => bind (ints l') (fun ns => ret (n :: ns))
      | None => raise ValueError
      end
  end.

(** [a, b = l] *)
Definition unpack2 {L} (l : list string) : W L (string * string) :=
  match l with
  | [a; b] => ret (a, b)
  | _ => raise ValueError
  end.

(** [s == lit] for [s] a [str] or [None] *)
Definition is_ (s : option string) (lit : string) : bool := negb (is_not s lit).

(** the string of a [StrOrNone] known not to be [None] *)
Definition the (s : option string) : string := default EmptyString s.

Definition in_list (x : string) (l : list string) : bool :=
  existsb (String.eqb x) l.

(** [k in d] *)
Definition in_dict (k : string) (d : gmap string string) : bool :=
  match d !! k with Some _ => true | None => false end.

(** ** Checks and the engine module

    [engine.py] and [checks.py] are not part of this file: their functions
    are the fields of [Engine], and a check object is the record of the
    attributes the specification gives it. *)

(** Modelled from the spec: the check object of the engine module (section 3,
    common attributes); [opt_type] is the source, [decision] the category,
    [reason] the justification, [state] the observed value. *)
Record OptCheck : Type := {
  name : string;
  opt_type : string;
  expected : string;
  decision : string;
  reason : string;
  state : option string;
  result : option string
}.

(** what [populate_with_data] is given: the version tuple or a dict *)
Inductive data : Type :=
| Version (v : list N)
| Options (d : gmap string string).

(** a JSON value of [json_dump]: a string or a boolean *)
Inductive jval : Type :=
| JStr (s : string)
| JBool (b : bool).

Definition jdict : Type := list (string * jval).

(** What is written to stdout. *)
Inductive out : Type :=
| Text (s : string)
    (* the characters a [print] writes *)
| TablePrint (opt : OptCheck) (mode : option string) (with_results : bool)
    (* what [opt.table_print(mode, with_results)] writes *)
| JsonDumps (output : list jdict)
    (* [print(json.dumps(output))] *)
| Score (ok_count : nat) (ok_suppressed : string)
        (fail_count : nat) (fail_suppressed : string).
    (* the line
       [+] Config check is finished: 'OK' - {ok_count}{ok_suppressed} / 'FAIL' - {fail_count}{fail_suppressed} *)

(** [print(s)] and [print(s, end='')] in [print_checklist] *)
Definition tprint (s : string) : W out unit := emit (Text (s +:+ NL)).
Definition tprint_noend (s : string) : W out unit := emit (Text s).

Class Engine : Type := {
  add_kconfig_checks : list OptCheck -> string -> outcome (list OptCheck);
  add_cmdline_checks : list OptCheck -> string -> outcome (list OptCheck);
  add_sysctl_checks : list OptCheck -> option string -> outcome (list OptCheck);
  normalize_cmdline_options : string -> string -> option string;
  populate_with_data : list OptCheck -> data -> string -> outcome (list OptCheck);
  override_expected_value : list OptCheck -> string -> string -> outcome (list OptCheck);
  perform_checks : list OptCheck -> outcome (list OptCheck);
  print_unknown_options : list OptCheck -> gmap string string -> string -> W string unit;
  json_dump : OptCheck -> bool -> outcome jdict
}.

(** What the driver does, in order: writes to stdout and calls of the engine
    module, each call with its arguments. *)
Inductive event : Type :=
| Out (o : out)
| Call_add_kconfig_checks (checklist : list OptCheck) (arch : string)
| Call_add_cmdline_checks (checklist : list OptCheck) (arch : string)
| Call_add_sysctl_checks (checklist : list OptCheck) (arch : option string)
| Call_populate_with_data (checklist : list OptCheck) (d : data) (data_type : string)
| Call_override_expected_value (checklist : list OptCheck) (name new_val : string)
| Call_perform_checks (checklist : list OptCheck)
| Call_print_unknown_options (checklist : list OptCheck) (d : gmap string string) (opt_type : string).

(** the report, inside the driver *)
Definition lift {A} (m : W out A) : W event A := (Out <$> fst m, snd m).

(** a computation that only writes text to stdout, inside the driver *)
Definition stdout {A} (m : W string A) : W event A :=
  ((fun s => Out (Text s)) <$> fst m, snd m).

(** a call of the engine module: the call is logged, then it returns or raises *)
Definition call {A} (e : event) (r : outcome A) : W event A := ([e], r).

(** ** Files *)

Record file : Type := {
  text : string;      (* what reading the file gives *)
  st_size : N         (* [os.stat(fname).st_size] *)
}.

Definition filesystem : Type := string -> option file.

(** ** The detectors *)

Import Re.

Definition SUPPORTED_ARCHS : list string := ["X86_64"; "X86_32"; "ARM64"; "ARM"].

Section Detectors.

Variable fs : filesystem.

(** [_open]: a missing file ends the program.  A [.gz] name is opened through
    [gzip]; the text read is the decompressed one either way.  [_open]
    catches [FileNotFoundError] and nothing else: a file that cannot be
    opened or decoded for another reason is no file of the model, and
    nothing is said of it. *)
Definition _open {L} (fname : string) : W L file :=
  match fs fname with
  | Some f => ret f
  | None =>
      sys_exit ("[!] ERROR: unable to open " +:+ fname +:+ ", are you sure it exists?")
  end.

(** ["CONFIG_([A-Z0-9_]+)=y$"] *)
Definition arch_pattern : regex :=
  cat [Lit "CONFIG_";
       Group (Plus (union (between "A" "Z") (union (between "0" "9") (one_of "_"))));
       Lit "=y"; Eol].

(** the loop of [detect_arch_kconfig] from the current value of [arch], and
    the two returns after it *)
Fixpoint detect_arch_kconfig_lines (arch : option string) (lines : list string)
  : option string * string :=
  match lines with
  | [] =>
      match arch with
      | None => (None, "failed to detect microarchitecture in kconfig")
      | Some a => (Some a, "OK")
      end
  | line :: rest =>
      match search arch_pattern line with
      | Some m =>
          let option := group1 m in
          if negb (in_list option SUPPORTED_ARCHS) then
            detect_arch_kconfig_lines arch rest
          else
            match arch with
            | None => detect_arch_kconfig_lines (Some option) rest
            | Some _ => (None, "detected more than one microarchitecture in kconfig")
            end
      | None => detect_arch_kconfig_lines arch rest
      end
  end.

Definition detect_arch_kconfig (fname : string) : W string (option string * string) :=
  f <- _open fname ;;
  ret (detect_arch_kconfig_lines None (readlines (text f))).

(** [arch_mapping], in the order of the dict *)
Definition arch_mapping : list (string * regex) :=
  [("ARM64", Alt (cat [Bol; Lit "aarch64"]) (Lit "armv8"));
   ("ARM", cat [Bol; Lit "armv"; Chr (between "3" "7")]);
   ("X86_32", cat [Bol; Lit "i"; Opt (between "3" "6"); Lit "86"]);
   ("X86_64", cat [Bol; Lit "x86_64"])].

Fixpoint detect_arch_sysctl_value (value : string) (mapping : list (string * regex))
  : W string (option string * string) :=
  match mapping with
  | [] => ret (None, value +:+ " is an unsupported arch")
  | (arch, pattern) :: rest =>
      assert_ (in_list arch SUPPORTED_ARCHS) "invalid arch mapping in sysctl" ;;
      if matched (search pattern value) then ret (Some arch, value)
      else detect_arch_sysctl_value value rest
  end.

Fixpoint detect_arch_sysctl_lines (lines : list string)
  : W string (option string * string) :=
  match lines with
  | [] => ret (None, "failed to detect microarchitecture in sysctl")
  | line :: rest =>
      if startswith "kernel.arch" line then
        v <- index (split1 "=" line) 1 ;;
        let value := strip v in
        detect_arch_sysctl_value value arch_mapping
      else detect_arch_sysctl_lines rest
  end.

Definition detect_arch_sysctl (fname : string) : W string (option string * string) :=
  f <- _open fname ;;
  detect_arch_sysctl_lines (readlines (text f)).

(** [r"^# Linux/.+ Kernel Configuration$|^Linux version .+"] *)
Definition ver_pattern : regex :=
  Alt (cat [Bol; Lit "# Linux/"; Plus dot; Lit " Kernel Configuration"; Eol])
      (cat [Bol; Lit "Linux version "; Plus dot]).

(** the body of the loop of [detect_kernel_version] for a line that matches
    [ver_pattern] *)
Definition detect_kernel_version_line (line : string)
  : W string (option (list N) * string) :=
  let line := strip line in
  let parts := split_ws line in
  parts_2 <- index parts 2 ;;
  ver_str <- index (split1 "-" parts_2) 0 ;;
  let ver_numbers := split "." ver_str in
  let msg := "failed to parse the version " +:+ DQ +:+ parts_2 +:+ DQ in
  if Nat.leb 3 (length ver_numbers) then
    if forallb isdecimal ver_numbers then
      kernel_version <- ints ver_numbers ;;
      ret (Some kernel_version, "OK")
    else ret (None, msg)
  else ret (None, msg).

Fixpoint detect_kernel_version_lines (lines : list string)
  : W string (option (list N) * string) :=
  match lines with
  | [] => ret (None, "no kernel version detected")
  | line :: rest =>
      if matched (match_ ver_pattern line) then detect_kernel_version_line line
      else detect_kernel_version_lines rest
  end.

Definition detect_kernel_version (fname : string)
  : W string (option (list N) * string) :=
  f <- _open fname ;;
  detect_kernel_version_lines (readlines (text f)).

(** the loop of [detect_compiler]: the last [CONFIG_GCC_VERSION=] and the
    last [CONFIG_CLANG_VERSION=] line *)
Definition detect_compiler_line (vs : option string * option string)
  (line : string) : option string * option string :=
  let '(gcc_version, clang_version) := vs in
  let gcc_version :=
    if startswith "CONFIG_GCC_VERSION=" line
    then Some (drop_last (slice_from 19 line)) else gcc_version in
  let clang_version :=
    if startswith "CONFIG_CLANG_VERSION=" line
    then Some (drop_last (slice_from 21 line)) else clang_version in
  (gcc_version, clang_version).

Definition detect_compiler (fname : string) : W string (option string * string) :=
  f <- _open fname ;;
  let '(gcc_version, clang_version) :=
    fold_left detect_compiler_line (readlines (text f)) (None, None) in
  match gcc_version, clang_version with
  | Some gcc_version, Some clang_version =>
      if String.eqb gcc_version "0" && negb (String.eqb clang_version "0") then
        ret (Some ("CLANG " +:+ clang_version), "OK")
      else if negb (String.eqb gcc_version "0") && String.eqb clang_version "0" then
        ret (Some ("GCC " +:+ gcc_version), "OK")
      else
        sys_exit ("[!] ERROR: invalid GCC_VERSION and CLANG_VERSION: "
                  +:+ gcc_version +:+ " " +:+ clang_version)
  | _, _ => ret (None, "no CONFIG_GCC_VERSION or CONFIG_CLANG_VERSION")
  end.

End Detectors.

(** ** The report *)

Section Report.

Context {E : Engine}.

(** the body of the loop over the checklist in [print_checklist]; [counts] is
    [(ok_count, fail_count)], [skip] stands for [continue] *)
Definition print_checklist_row (mode : option string) (with_results : bool)
  (sep_line_len : nat) (counts : nat * nat) (opt : OptCheck)
  : W out (nat * nat) :=
  let '(ok_count, fail_count) := counts in
  '(skip, ok_count, fail_count) <-
    (if with_results then
       assert_ (truthy (result opt))
         ("unexpected empty result of " +:+ name opt +:+ " check") ;;
       if startswith "OK" (the (result opt)) then
         ret (is_ mode "show_fail", S ok_count, fail_count)
       else
         assert_ (startswith "FAIL" (the (result opt)))
           ("unexpected result " +:+ DQ +:+ the (result opt) +:+ DQ
            +:+ " of " +:+ name opt +:+ " check") ;;
         ret (is_ mode "show_ok", ok_count, S fail_count)
     else ret (false, ok_count, fail_count)) ;;
  (if skip : bool then pass
   else
     emit (TablePrint opt mode with_results) ;;
     tprint "" ;;
     if is_ mode "verbose" then tprint (times "-" sep_line_len) else pass) ;;
  ret (ok_count, fail_count).

Definition print_checklist (mode : option string) (checklist : list OptCheck)
  (with_results : bool) : W out unit :=
  if is_ mode "json" then
    output <- for_each
                (fun output opt =>
                   d <- ([], json_dump opt with_results) ;;
                   ret (output ++ [d]))
                checklist [] ;;
    emit (JsonDumps output)
  else
    (* table header *)
    let sep_line_len := 91 in
    let sep_line_len := if with_results then sep_line_len + 30 else sep_line_len in
    tprint (times "=" sep_line_len) ;;
    tprint_noend (centre 40 "option_name" +:+ "|" +:+ centre 7 "type" +:+ "|"
                 +:+ centre 12 "desired_val" +:+ "|" +:+ centre 10 "decision"
                 +:+ "|" +:+ centre 18 "reason") ;;
    (if with_results then tprint_noend "| check_result" else pass) ;;
    tprint "" ;;
    tprint (times "=" sep_line_len) ;;
    (* table contents *)
    '(ok_count, fail_count) <-
      for_each (print_checklist_row mode with_results sep_line_len) checklist (0, 0) ;;
    tprint "" ;;
    (* final score *)
    if with_results then
      let fail_suppressed := if is_ mode "show_ok" then " (suppressed in output)" else "" in
      let ok_suppressed := if is_ mode "show_fail" then " (suppressed in output)" else "" in
      emit (Score ok_count ok_suppressed fail_count fail_suppressed)
    else pass.

End Report.

(** ** The parsers *)

Section Parsers.

Variable fs : filesystem.
Context {E : Engine}.

(** [r"CONFIG_[a-zA-Z0-9_]+=.*$"] and [r"# CONFIG_[a-zA-Z0-9_]+ is not set$"] *)
Definition kconfig_name_chars : ascii -> bool :=
  union (between "a" "z") (union (between "A" "Z") (union (between "0" "9") (one_of "_"))).
Definition opt_is_on : regex :=
  cat [Lit "CONFIG_"; Plus kconfig_name_chars; Lit "="; Star dot; Eol].
Definition opt_is_off : regex :=
  cat [Lit "# CONFIG_"; Plus kconfig_name_chars; Lit " is not set"; Eol].

(** the body of the loop of [parse_kconfig_file] *)
Definition parse_kconfig_line (parsed_options : gmap string string)
  (line : string) : W string (gmap string string) :=
  let line := strip line in
  '(option, value) <-
    (if matched (match_ opt_is_on line) then
       '(option, value) <- unpack2 (split1 "=" line) ;;
       (if String.eqb value "is not set" then
          sys_exit ("[!] ERROR: bad enabled Kconfig option " +:+ DQ +:+ line +:+ DQ)
        else pass) ;;
       (if String.eqb value "" then
          print ("[!] WARNING: found strange Kconfig option " +:+ option
                 +:+ " with empty value")
        else pass) ;;
       ret (Some option, Some value)
     else if matched (match_ opt_is_off line) then
       '(option, value) <- unpack2 (split1 " " (slice_from 2 line)) ;;
       assert_ (String.eqb value "is not set")
         ("unexpected value of disabled Kconfig option " +:+ DQ +:+ line +:+ DQ) ;;
       ret (Some option, Some value)
     else if negb (String.eqb line "") && negb (startswith "#" line) then
       sys_exit ("[!] ERROR: unexpected line in Kconfig file: " +:+ DQ +:+ line +:+ DQ)
     else ret (None, None)) ;;
  (if match option with Some o => in_dict o parsed_options | None => false end then
     sys_exit ("[!] ERROR: Kconfig option " +:+ DQ +:+ line +:+ DQ
               +:+ " is found multiple times")
   else pass) ;;
  if truthy option then
    match value with
    | Some value => ret (<[the option := value]> parsed_options)
    | None => raise (AssertionError ("unexpected None value for " +:+ the option))
    end
  else ret parsed_options.

Definition parse_kconfig_file (_mode : option string)
  (parsed_options : gmap string string) (fname : string)
  : W string (gmap string string) :=
  f <- _open fs fname ;;
  for_each parse_kconfig_line (readlines (text f)) parsed_options.

(** the body of the loop of [parse_cmdline_file] *)
Definition parse_cmdline_opt (mode : option string)
  (parsed_options : gmap string string) (opt : string)
  : W string (gmap string string) :=
  '(name, value) <-
    (if contains "=" opt then unpack2 (split1 "=" opt)
     else ret (opt, "")) ;;
  (if in_dict name parsed_options && is_not mode "json" then
     print ("[!] WARNING: cmdline option " +:+ DQ +:+ name +:+ DQ
            +:+ " is found multiple times")
   else pass) ;;
  match normalize_cmdline_options name value with
  | Some value => ret (<[name := value]> parsed_options)
  | None => raise (AssertionError ("unexpected None value for " +:+ name))
  end.

Definition parse_cmdline_file (mode : option string)
  (parsed_options : gmap string string) (fname : string)
  : W string (gmap string string) :=
  f <- _open fs fname ;;
  let line := readline 0 (text f) in
  (if negb (nonempty line) then
     sys_exit ("[!] ERROR: empty cmdline file " +:+ DQ +:+ fname +:+ DQ)
   else pass) ;;
  let opts := split_ws line in
  let line := readline 1 (text f) in
  (if nonempty line then
     sys_exit ("[!] ERROR: more than one line in " +:+ DQ +:+ fname +:+ DQ)
   else pass) ;;
  for_each (parse_cmdline_opt mode) opts parsed_options.

(** [r"[a-zA-Z0-9/\._-]+ ?=.*$"] *)
Definition sysctl_pattern : regex :=
  cat [Plus (union (between "a" "z") (union (between "A" "Z")
               (union (between "0" "9") (one_of "/._-"))));
       Opt (one_of " "); Lit "="; Star dot; Eol].

(** the body of the loop of [parse_sysctl_file] *)
Definition parse_sysctl_line (parsed_options : gmap string string)
  (line : string) : W string (gmap string string) :=
  let line := strip line in
  if negb (nonempty line) || startswith "#" line then ret parsed_options
  else
    (if negb (matched (match_ sysctl_pattern line)) then
       sys_exit ("[!] ERROR: unexpected line in sysctl file: " +:+ DQ +:+ line +:+ DQ)
     else pass) ;;
    '(option, value) <- unpack2 (split1 "=" line) ;;
    let option := strip option in
    let value := strip value in
    (* sysctl options may be found multiple times, let's save the last value: *)
    ret (<[option := value]> parsed_options).

Definition parse_sysctl_file (mode : option string)
  (parsed_options : gmap string string) (fname : string)
  : W string (gmap string string) :=
  f <- _open fs fname ;;
  (if N.eqb (st_size f) 0 then
     sys_exit ("[!] ERROR: empty sysctl file " +:+ DQ +:+ fname +:+ DQ)
   else pass) ;;
  parsed_options <- for_each parse_sysctl_line (readlines (text f)) parsed_options ;;
  (if negb (in_dict "kernel.printk" parsed_options) && is_not mode "json" then
     print ("[!] WARNING: ancient sysctl options are not found in " +:+ fname
            +:+ ", please use the output of `sudo sysctl -a`")
   else pass) ;;
  (if negb (in_dict "kernel.cad_pid" parsed_options) && is_not mode "json" then
     print ("[!] WARNING: sysctl options available for root are not found in "
            +:+ fname +:+ ", please use the output of `sudo sysctl -a`")
   else pass) ;;
  ret parsed_options.

End Parsers.

(** ** The driver *)

Section Driver.

Variable fs : filesystem.
Context {E : Engine}.

(** truth value of a tuple or [None] *)
Definition truthy_tuple (v : option (list N)) : bool :=
  match v with
  | Some (_ :: _) => true
  | _ => false
  end.

Definition MMAP_RND_BITS : string := "CONFIG_ARCH_MMAP_RND_BITS".

(** [[o for o in config_checklist if o.name != 'CONFIG_ARCH_MMAP_RND_BITS']] *)
Definition remove_mmap_rnd_bits (config_checklist : list OptCheck) : list OptCheck :=
  List.filter (fun o => negb (String.eqb (name o) MMAP_RND_BITS)) config_checklist.

Definition perform_checking (mode : option string) (version : option (list N))
  (kconfig cmdline sysctl : option string) : W event unit :=
  let config_checklist : list OptCheck := [] in
  (* detect the kernel microarchitecture *)
  arch <-
    (if truthy kconfig then
       '(arch, msg) <- stdout (detect_arch_kconfig fs (the kconfig)) ;;
       (match arch with
        | None => sys_exit ("[!] ERROR: " +:+ msg)
        | Some _ => pass
        end) ;;
       (if is_not mode "json" then
          stdout (print ("[+] Detected microarchitecture: " +:+ the arch))
        else pass) ;;
       ret arch
     else
       assert_ (negb (truthy cmdline)) "wrong perform_checking() usage" ;;
       assert_ (truthy sysctl) "wrong perform_checking() usage" ;;
       '(arch, msg) <- stdout (detect_arch_sysctl fs (the sysctl)) ;;
       (if is_not mode "json" then
          match arch with
          | None =>
              stdout (print ("[!] WARNING: " +:+ msg
                           +:+ ", arch-dependent checks will be dropped"))
          | Some a =>
              stdout (print ("[+] Detected microarchitecture: " +:+ a
                           +:+ " (" +:+ msg +:+ ")"))
          end
        else pass) ;;
       ret arch) ;;
  (if truthy kconfig then
     (* kconfig allows to determine the compiler for building the kernel *)
     '(compiler, msg) <- stdout (detect_compiler fs (the kconfig)) ;;
     if is_not mode "json" then
       if truthy compiler then
         stdout (print ("[+] Detected compiler: " +:+ the compiler))
       else stdout (print ("[-] Can't detect the compiler: " +:+ msg))
     else pass
   else pass) ;;
  config_checklist <-
    (if truthy kconfig then
       (* add relevant Kconfig checks to the checklist *)
       assert_ (truthy arch) "arch is mandatory for the kconfig checks" ;;
       call (Call_add_kconfig_checks config_checklist (the arch))
            (add_kconfig_checks config_checklist (the arch))
     else ret config_checklist) ;;
  config_checklist <-
    (if truthy cmdline then
       (* add relevant cmdline checks to the checklist *)
       assert_ (truthy arch) "arch is mandatory for the cmdline checks" ;;
       call (Call_add_cmdline_checks config_checklist (the arch))
            (add_cmdline_checks config_checklist (the arch))
     else ret config_checklist) ;;
  config_checklist <-
    (if truthy sysctl then
       (* add relevant sysctl checks to the checklist *)
       call (Call_add_sysctl_checks config_checklist arch)
            (add_sysctl_checks config_checklist arch)
     else ret config_checklist) ;;
  config_checklist <-
    (if truthy_tuple version then
       (* populate the checklist with the kernel version data *)
       call (Call_populate_with_data config_checklist (Version (default [] version)) "version")
            (populate_with_data config_checklist (Version (default [] version)) "version")
     else ret config_checklist) ;;
  '(config_checklist, parsed_kconfig_options) <-
    (if truthy kconfig then
       (* populate the checklist with the parsed Kconfig data *)
       parsed_kconfig_options <- stdout (parse_kconfig_file fs mode ∅ (the kconfig)) ;;
       config_checklist <-
         call (Call_populate_with_data config_checklist (Options parsed_kconfig_options) "kconfig")
              (populate_with_data config_checklist (Options parsed_kconfig_options) "kconfig") ;;
       (* hackish refinement of the CONFIG_ARCH_MMAP_RND_BITS check *)
       let mmap_rnd_bits_max := parsed_kconfig_options !! "CONFIG_ARCH_MMAP_RND_BITS_MAX" in
       if truthy mmap_rnd_bits_max then
         config_checklist <-
           call (Call_override_expected_value config_checklist MMAP_RND_BITS (the mmap_rnd_bits_max))
                (override_expected_value config_checklist MMAP_RND_BITS (the mmap_rnd_bits_max)) ;;
         ret (config_checklist, parsed_kconfig_options)
       else
         (* remove the CONFIG_ARCH_MMAP_RND_BITS check to avoid false results *)
         (if is_not mode "json" then
            stdout (print "[-] Can't check CONFIG_ARCH_MMAP_RND_BITS without CONFIG_ARCH_MMAP_RND_BITS_MAX")
          else pass) ;;
         ret (remove_mmap_rnd_bits config_checklist, parsed_kconfig_options)
     else ret (config_checklist, ∅)) ;;
  '(config_checklist, parsed_cmdline_options) <-
    (if truthy cmdline then
       (* populate the checklist with the parsed cmdline data *)
       parsed_cmdline_options <- stdout (parse_cmdline_file fs mode ∅ (the cmdline)) ;;
       config_checklist <-
         call (Call_populate_with_data config_checklist (Options parsed_cmdline_options) "cmdline")
              (populate_with_data config_checklist (Options parsed_cmdline_options) "cmdline") ;;
       ret (config_checklist, parsed_cmdline_options)
     else ret (config_checklist, ∅)) ;;
  '(config_checklist, parsed_sysctl_options) <-
    (if truthy sysctl then
       (* populate the checklist with the parsed sysctl data *)
       parsed_sysctl_options <- stdout (parse_sysctl_file fs mode ∅ (the sysctl)) ;;
       config_checklist <-
         call (Call_populate_with_data config_checklist (Options parsed_sysctl_options) "sysctl")
              (populate_with_data config_checklist (Options parsed_sysctl_options) "sysctl") ;;
       ret (config_checklist, parsed_sysctl_options)
     else ret (config_checklist, ∅)) ;;
  (* now everything is ready, perform the checks *)
  config_checklist <-
    call (Call_perform_checks config_checklist) (perform_checks config_checklist) ;;
  (if is_ mode "verbose" then
     (* print the parsed options without the checks (for debugging) *)
     (if truthy kconfig then
        call (Call_print_unknown_options config_checklist parsed_kconfig_options "kconfig") (Done tt) ;;
        stdout (print_unknown_options config_checklist parsed_kconfig_options "kconfig")
      else pass) ;;
     (if truthy cmdline then
        call (Call_print_unknown_options config_checklist parsed_cmdline_options "cmdline") (Done tt) ;;
        stdout (print_unknown_options config_checklist parsed_cmdline_options "cmdline")
      else pass) ;;
     (if truthy sysctl then
        call (Call_print_unknown_options config_checklist parsed_sysctl_options "sysctl") (Done tt) ;;
        stdout (print_unknown_options config_checklist parsed_sysctl_options "sysctl")
      else pass)
   else pass) ;;
  (* finally print the results *)
  lift (print_checklist mode config_checklist true) ;;
  ([], SysExit (ExitCode 0)).

End Driver.

(** ** The command line *)

(** What [parser.parse_args()] returns, one field for each attribute of
    [args]: an option that is not given is [None].  [ArgumentParser] is not
    part of the module; it is the parser that rejects a mode that is not one
    of [report_modes] and an architecture that is not one of
    [SUPPORTED_ARCHS]. *)
Record args : Type := {
  args_mode : option string;
  args_config : option string;
  args_cmdline : option string;
  args_sysctl : option string;
  args_kernel_version : option string;
  args_print : option string;
  args_generate : option string
}.

(** [s is None] *)
Definition is_none (s : option string) : bool :=
  match s with None => true | Some _ => false end.

(** [f'{t}'] for a tuple of integers *)
Definition repr_tuple (t : list N) : string :=
  match t with
  | [] => "()"
  | [n] => "(" +:+ pretty n +:+ ",)"
  | _ => "(" +:+ String.concat ", " (map pretty t) +:+ ")"
  end.

(** the body of the loop of [--generate] *)
Definition generate_line (opt : OptCheck) : W string unit :=
  if String.eqb (name opt) "CONFIG_ARCH_MMAP_RND_BITS" then
    pass (* don't add CONFIG_ARCH_MMAP_RND_BITS because its value needs refinement *)
  else if String.eqb (expected opt) "is not off" then
    pass (* don't add Kconfig options without explicitly recommended values *)
  else if String.eqb (expected opt) "is not set" then
    print ("# " +:+ name opt +:+ " is not set")
  else print (name opt +:+ "=" +:+ expected opt).

Section Main.

Variable fs : filesystem.
Context {E : Engine}.

(** what [parser.print_help()] writes *)
Variable help : string.

(** [main], block by block.  The report mode: *)
Definition main_mode (args : args) : W event (option string) :=
  if truthy (args_mode args) then
    let mode := args_mode args in
    (if is_not mode "json" then
       stdout (print ("[+] Special report mode: " +:+ the mode))
     else pass) ;;
    ret mode
  else ret None.

(** the files to check: *)
Definition main_announce (mode : option string) (args : args) : W event unit :=
  if is_not mode "json" then
    (if truthy (args_config args) then
       stdout (print ("[+] Kconfig file to check: " +:+ the (args_config args)))
     else pass) ;;
    (if truthy (args_cmdline args) then
       stdout (print ("[+] Kernel cmdline file to check: " +:+ the (args_cmdline args)))
     else pass) ;;
    (if truthy (args_sysctl args) then
       stdout (print ("[+] Sysctl output file to check: " +:+ the (args_sysctl args)))
     else pass)
  else pass.

(** [if args.config: ... elif args.cmdline: ... elif args.sysctl: ...] *)
Definition main_check (mode : option string) (args : args) : W event unit :=
  if truthy (args_config args) then
    (if truthy (args_print args) then
       sys_exit "[!] ERROR: --config and --print can't be used together"
     else pass) ;;
    (if truthy (args_generate args) then
       sys_exit "[!] ERROR: --config and --generate can't be used together"
     else pass) ;;
    '(kernel_version, msg) <-
      (if truthy (args_kernel_version args) then
         stdout (detect_kernel_version fs (the (args_kernel_version args)))
       else stdout (detect_kernel_version fs (the (args_config args)))) ;;
    (match kernel_version with
     | None =>
         (if is_none (args_kernel_version args) then
            stdout (print "[!] Hint: provide the kernel version file through --kernel-version option")
          else pass) ;;
         sys_exit ("[!] ERROR: " +:+ msg)
     | Some _ => pass
     end) ;;
    (if is_not mode "json" then
       stdout (print ("[+] Detected kernel version: "
                      +:+ repr_tuple (default [] kernel_version)))
     else pass) ;;
    perform_checking fs mode kernel_version
      (args_config args) (args_cmdline args) (args_sysctl args) ;;
    ([], SysExit (ExitCode 0))
  else if truthy (args_cmdline args) then
    sys_exit "[!] ERROR: checking cmdline depends on checking Kconfig"
  else if truthy (args_sysctl args) then
    (* separate sysctl checking (without kconfig) *)
    (if truthy (args_print args) then
       sys_exit "[!] ERROR: --sysctl and --print can't be used together"
     else pass) ;;
    (if truthy (args_generate args) then
       sys_exit "[!] ERROR: --sysctl and --generate can't be used together"
     else pass) ;;
    perform_checking fs mode None None None (args_sysctl args) ;;
    ([], SysExit (ExitCode 0))
  else pass.

(** [if args.print: ...] *)
Definition main_print (mode : option string) (args : args) : W event unit :=
  if truthy (args_print args) then
    assert_ (is_none (args_config args) && is_none (args_cmdline args)
             && is_none (args_sysctl args)) "unexpected args" ;;
    (if truthy (args_generate args) then
       sys_exit "[!] ERROR: --print and --generate can't be used together"
     else pass) ;;
    (if truthy mode && negb (in_list (the mode) ["verbose"; "json"]) then
       sys_exit ("[!] ERROR: wrong mode " +:+ DQ +:+ the mode +:+ DQ +:+ " for --print")
     else pass) ;;
    let arch := args_print args in
    assert_ (truthy arch) "unexpected empty arch from ArgumentParser" ;;
    let config_checklist : list OptCheck := [] in
    config_checklist <-
      call (Call_add_kconfig_checks config_checklist (the arch))
           (add_kconfig_checks config_checklist (the arch)) ;;
    config_checklist <-
      call (Call_add_cmdline_checks config_checklist (the arch))
           (add_cmdline_checks config_checklist (the arch)) ;;
    config_checklist <-
      call (Call_add_sysctl_checks config_checklist arch)
           (add_sysctl_checks config_checklist arch) ;;
    (if is_not mode "json" then
       stdout (print ("[+] Printing kernel security hardening options for "
                      +:+ the arch +:+ "..."))
     else pass) ;;
    lift (print_checklist mode config_checklist false) ;;
    ([], SysExit (ExitCode 0))
  else pass.

(** [if args.generate: ...] *)
Definition main_generate (mode : option string) (args : args) : W event unit :=
  if truthy (args_generate args) then
    assert_ (is_none (args_config args) && is_none (args_cmdline args)
             && is_none (args_sysctl args) && is_none (args_print args))
      "unexpected args" ;;
    (if truthy mode then
       sys_exit ("[!] ERROR: wrong mode " +:+ DQ +:+ the mode +:+ DQ +:+ " for --generate")
     else pass) ;;
    let arch := args_generate args in
    let config_checklist : list OptCheck := [] in
    config_checklist <-
      call (Call_add_kconfig_checks config_checklist (the arch))
           (add_kconfig_checks config_checklist (the arch)) ;;
    (* the Kconfig fragment should describe the microarchitecture *)
    stdout (print ("CONFIG_" +:+ the arch +:+ "=y")) ;;
    stdout (for_each (fun _ opt => generate_line opt) config_checklist tt) ;;
    ([], SysExit (ExitCode 0))
  else pass.

Definition main (args : args) : W event unit :=
  mode <- main_mode args ;;
  main_announce mode args ;;
  main_check mode args ;;
  main_print mode args ;;
  main_generate mode args ;;
  stdout (emit help) ;;
  ([], SysExit (ExitCode 0)).

End Main.


(** ** A sample engine, catalogue and file system

    Used to run the driver on concrete inputs. *)

Module Sample.

Definition mk (n ty e : string) : OptCheck :=
  {| name := n; opt_type := ty; expected := e; decision := "kspp";
     reason := "self_protection"; state := None; result := None |}.

Definition set_state (st : option string) (c : OptCheck) : OptCheck :=
  {| name := name c; opt_type := opt_type c; expected := expected c;
     decision := decision c; reason := reason c; state := st; result := result c |}.

Definition set_expected (e : string) (c : OptCheck) : OptCheck :=
  {| name := name c; opt_type := opt_type c; expected := e;
     decision := decision c; reason := reason c; state := state c; result := None |}.

Definition set_result (r : string) (c : OptCheck) : OptCheck :=
  {| name := name c; opt_type := opt_type c; expected := expected c;
     decision := decision c; reason := reason c; state := state c; result := Some r |}.

(** Modelled from the spec: [record] of a direct check (section 4.1): a check
    of another source is left alone, otherwise the value found under the
    name of the check is recorded, or its absence.  The sample catalogue has
    no version check, so version data reaches no check. *)
Definition record (d : data) (data_type : string) (c : OptCheck) : OptCheck :=
  if String.eqb (opt_type c) data_type then
    match d with
    | Options m => set_state (m !! name c) c
    | Version _ => c
    end
  else c.

(** Modelled from the spec: [populate] (section 4.5) calls [record] on every
    check of the checklist, in order. *)
Definition populate (cl : list OptCheck) (d : data) (data_type : string)
  : outcome (list OptCheck) :=
  Done (map (record d data_type) cl).

(** Modelled from the spec: [override_expected] (section 4.6) replaces the
    expected value of the checks of that name, and reports an error when
    there is none. *)
Definition override (cl : list OptCheck) (n new_val : string)
  : outcome (list OptCheck) :=
  if existsb (fun c => String.eqb (name c) n) cl then
    Done (map (fun c => if String.eqb (name c) n then set_expected new_val c else c) cl)
  else Raised (AssertionError ("no check named " +:+ n)).

(** Modelled from the spec: [resolve] of a direct check with a literal
    expected value (section 4.2). *)
Definition resolve (c : OptCheck) : OptCheck :=
  match state c with
  | None => set_result "FAIL: is not found" c
  | Some v =>
      if String.eqb v (expected c) then set_result "OK" c
      else set_result ("FAIL: " +:+ DQ +:+ v +:+ DQ) c
  end.

(** Modelled from the spec: [evaluate_all] (section 4.7) resolves every
    check, in order. *)
Definition evaluate_all (cl : list OptCheck) : outcome (list OptCheck) :=
  Done (map resolve cl).

(** Modelled from the spec: the diagnostic pass of section 6, one line for
    each observed option no check is named after. *)
Definition unknown_options (cl : list OptCheck) (d : gmap string string)
  (ty : string) : W string unit :=
  (map (fun kv => "[?] No check for " +:+ ty +:+ " option " +:+ fst kv +:+ NL)
       (List.filter (fun kv => negb (existsb (fun c => String.eqb (name c) (fst kv)) cl))
                    (map_to_list d)),
   Done tt).

(** Modelled from the spec: the JSON accessor of a check; reading the result
    of a check that has none is an assertion failure (section 7). *)
Definition dump (c : OptCheck) (with_results : bool) : outcome jdict :=
  let common := [("option_name", JStr (name c)); ("type", JStr (opt_type c));
                 ("desired_val", JStr (expected c)); ("decision", JStr (decision c));
                 ("reason", JStr (reason c))] in
  if with_results then
    if truthy (result c) then
      Done (common ++ [("check_result", JStr (the (result c)));
                       ("check_result_bool", JBool (startswith "OK" (the (result c))))])
    else Raised (AssertionError ("unexpected empty result in " +:+ name c))
  else Done common.

(** A three-source catalogue of four checks. *)
Definition kconfig_checks : list OptCheck :=
  [mk "CONFIG_BUG" "kconfig" "y"; mk "CONFIG_ARCH_MMAP_RND_BITS" "kconfig" "32"].

Definition engine : Engine := {|
  add_kconfig_checks cl _ := Done (cl ++ kconfig_checks);
  add_cmdline_checks cl _ := Done (cl ++ [mk "nosmt" "cmdline" ""]);
  add_sysctl_checks cl _ := Done (cl ++ [mk "kernel.kptr_restrict" "sysctl" "2"]);
  normalize_cmdline_options _ value := Some value;
  populate_with_data := populate;
  override_expected_value := override;
  perform_checks := evaluate_all;
  print_unknown_options := unknown_options;
  json_dump := dump
|}.

Definition lines (l : list string) : string :=
  foldr (fun s acc => s +:+ NL +:+ acc) "" l.

Definition plain (s : string) : file :=
  {| text := s; st_size := N.of_nat (String.length s) |}.

Definition kconfig_text : string :=
  lines ["#"; "# Linux/x86 6.1.0 Kernel Configuration"; "#";
         "CONFIG_X86_64=y"; "CONFIG_GCC_VERSION=120200"; "CONFIG_CLANG_VERSION=0";
         "CONFIG_BUG=y"; "CONFIG_ARCH_MMAP_RND_BITS_MAX=32";
         "CONFIG_ARCH_MMAP_RND_BITS=28"; "# CONFIG_DEVMEM is not set"].

(** the same configuration without [CONFIG_ARCH_MMAP_RND_BITS_MAX] *)
Definition kconfig_nomax_text : string :=
  lines ["CONFIG_X86_64=y"; "CONFIG_GCC_VERSION=120200"; "CONFIG_CLANG_VERSION=0";
         "CONFIG_BUG=y"; "CONFIG_ARCH_MMAP_RND_BITS=28"].

Definition cmdline_text : string :=
  lines ["BOOT_IMAGE=/vmlinuz root=/dev/sda1 nosmt quiet mitigations=auto,nosmt"].

Definition sysctl_text : string :=
  lines ["kernel.arch = x86_64"; "kernel.kptr_restrict = 1"; "kernel.printk = 4 4 1 7";
         "kernel.kptr_restrict=2"; "kernel.cad_pid = 1"].

(** a checklist after evaluation, one before it, and one with a result that
    is no verdict *)
Definition evaluated : list OptCheck :=
  [set_result "OK" (mk "CONFIG_BUG" "kconfig" "y");
   set_result ("FAIL: " +:+ DQ +:+ "28" +:+ DQ) (mk "CONFIG_ARCH_MMAP_RND_BITS" "kconfig" "32");
   set_result "OK: is present" (mk "nosmt" "cmdline" "")].

Definition unevaluated : list OptCheck :=
  [set_result "OK" (mk "CONFIG_BUG" "kconfig" "y"); mk "nosmt" "cmdline" ""].

Definition odd : list OptCheck :=
  [set_result "OK" (mk "CONFIG_BUG" "kconfig" "y");
   set_result "MAYBE" (mk "nosmt" "cmdline" "")].

Definition odder : list OptCheck :=
  [set_result "N/A" (mk "kernel.kptr_restrict" "sysctl" "2")].

(** the files of the sample file system, by name *)
Definition files : list (string * string) :=
  [("config", kconfig_text);
   ("config-nomax", kconfig_nomax_text);
   ("cmdline", cmdline_text);
   ("sysctl", sysctl_text);
   ("twice", lines ["CONFIG_ARM=y"; "CONFIG_ARM=y"]);
   ("versions", lines ["Linux version next"; "Linux version 5.10.0-rc1 (gcc)"]);
   ("config-bad", lines ["CONFIG_BUG=y"; "CONFIG BUG"]);
   ("config-notset", lines ["CONFIG_BUG=is not set"]);
   ("config-dup", lines ["CONFIG_BUG=y"; "# CONFIG_BUG is not set"]);
   ("version-short", lines ["Linux version  "]);
   ("config-min", lines ["CONFIG_X86_64=y"; "CONFIG_ARCH_MMAP_RND_BITS_MAX=32"]);
   ("config-min-nomax", lines ["CONFIG_X86_64=y"])].

(** what the parser makes of [config-min] and of [config-min-nomax] *)
Definition min_options : gmap string string :=
  <["CONFIG_ARCH_MMAP_RND_BITS_MAX" := "32"]> (<["CONFIG_X86_64" := "y"]> ∅).
Definition min_nomax_options : gmap string string := <["CONFIG_X86_64" := "y"]> ∅.

Fixpoint find_file (fname : string) (l : list (string * string)) : option file :=
  match l with
  | [] => None
  | (n, txt) :: l' => if String.eqb fname n then Some (plain txt) else find_file fname l'
  end.

Definition fs : filesystem := fun fname => find_file fname files.

End Sample.

(** * Vocabulary of the properties *)

(** the supported architecture a line of the Kconfig file announces: the group
    of the leftmost match of [arch_pattern], when it is a supported one *)
Definition arch_of_line (line : string) : option string :=
  match search arch_pattern line with
  | Some m => if in_list (group1 m) SUPPORTED_ARCHS then Some (group1 m) else None
  | None => None
  end.

(** the architectures announced in a text, one entry for each announcing line *)
Definition announced_archs (txt : string) : list string :=
  omap arch_of_line (readlines txt).

(** the answer of [detect_arch_kconfig] for a list of announcements *)
Definition arch_verdict (archs : list string) : option string * string :=
  match archs with
  | [] => (None, "failed to detect microarchitecture in kconfig")
  | [a] => (Some a, "OK")
  | _ :: _ :: _ => (None, "detected more than one microarchitecture in kconfig")
  end.

(** a line [detect_kernel_version] stops at *)
Definition is_version_line (line : string) : bool :=
  matched (match_ ver_pattern line).

(** the third whitespace-separated field of a line, when it has one *)
Definition third_field (line : string) : option string :=
  nth_error (split_ws (strip line)) 2.

(** a field cut at its first [-], then at every dot *)
Definition version_numbers (field : string) : list string :=
  split "." (hd EmptyString (split1 "-" field)).

(** at least three components, all of them decimal *)
Definition well_formed_version (field : string) : bool :=
  Nat.leb 3 (length (version_numbers field))
  && forallb isdecimal (version_numbers field).

(** every component is short enough for [int] to convert it *)
Definition convertible_version (field : string) : bool :=
  forallb (fun s => Nat.leb (String.length s) max_str_digits) (version_numbers field).

(** an exit or an exception: no value is returned *)
Definition failed {A} (o : outcome A) : Prop :=
  match o with Done _ => False | _ => True end.

(** the two shapes of a line of a Kconfig file, after [strip] *)
Definition is_enabled_line (s : string) : bool := matched (match_ opt_is_on s).
Definition is_disabled_line (s : string) : bool := matched (match_ opt_is_off s).

(** a stripped line that is neither empty, nor a comment, nor of one of the
    two shapes *)
Definition malformed_kconfig_line (s : string) : bool :=
  negb (String.eqb s "") && negb (startswith "#" s)
  && negb (is_enabled_line s) && negb (is_disabled_line s).

(** the option a stripped line is about: the text before the [=] of an
    enabled line, the name in a disabled one *)
Definition kconfig_option_of (s : string) : option string :=
  if is_enabled_line s then Some (hd EmptyString (split1 "=" s))
  else if is_disabled_line s then Some (hd EmptyString (split1 " " (slice_from 2 s)))
  else None.

(** an enabled line whose value is the text [is not set] *)
Definition enabled_as_not_set (s : string) : bool :=
  is_enabled_line s
  && match split1 "=" s with
     | [_; value] => String.eqb value "is not set"
     | _ => false
     end.

(** a stripped line of a sysctl file that is neither empty nor a comment *)
Definition sysctl_data_line (s : string) : bool :=
  nonempty s && negb (startswith "#" s).

(** the option and the value of such a line: the text before and after the
    first [=], both stripped *)
Definition sysctl_option_of (s : string) : string :=
  strip (hd EmptyString (split1 "=" s)).
Definition sysctl_value_of (s : string) : string :=
  strip (nth 1 (split1 "=" s) EmptyString).

(** the name and the value of a token of the command line: the text before
    and after its first [=], or the token itself and the empty string *)
Definition cmdline_name (opt : string) : string :=
  if contains "=" opt then hd EmptyString (split1 "=" opt) else opt.
Definition cmdline_value (opt : string) : string :=
  if contains "=" opt then nth 1 (split1 "=" opt) EmptyString else EmptyString.

(** [k] succeeds only on strings with property [P] *)
Definition only_on (P : string -> Prop) (k : cont) : Prop :=
  forall pos s caps r, k pos s caps = Some r -> P s.

(** one step of the loop of [parse_sysctl_file] on well-formed input *)
Definition sysctl_step (m : gmap string string) (line : string) : gmap string string :=
  if sysctl_data_line (strip line)
  then <[sysctl_option_of (strip line) := sysctl_value_of (strip line)]> m
  else m.

(** a line the parser accepts: a comment, an empty line, or a line the
    pattern of [parse_sysctl_file] matches *)
Definition sysctl_line_ok (line : string) : Prop :=
  sysctl_data_line (strip line) = true ->
  matched (match_ sysctl_pattern (strip line)) = true.

(** the mapping after the tokens [opts], when every value normalises *)
Fixpoint cmdline_steps {E : Engine} (opts : list string) (m : gmap string string)
  : gmap string string :=
  match opts with
  | [] => m
  | opt :: rest =>
      cmdline_steps rest
        (<[cmdline_name opt :=
             default "" (normalize_cmdline_options (cmdline_name opt) (cmdline_value opt))]> m)
  end.

(** the verdict a result carries *)
Definition is_ok (opt : OptCheck) : bool := startswith "OK" (the (result opt)).
Definition is_fail (opt : OptCheck) : bool := startswith "FAIL" (the (result opt)).
Definition has_verdict (opt : OptCheck) : bool := is_ok opt || is_fail opt.

(** the checks [table_print] was called on, in the order of the calls *)
Definition printed (l : list out) : list OptCheck :=
  omap (fun o => match o with TablePrint opt _ _ => Some opt | _ => None end) l.

(** the score lines of an output *)
Definition scores (l : list out) : list (nat * nat) :=
  omap (fun o => match o with Score ok _ fail _ => Some (ok, fail) | _ => None end) l.

(** the JSON outputs of an output *)
Definition dumps (l : list out) : list (list jdict) :=
  omap (fun o => match o with JsonDumps output => Some output | _ => None end) l.

(** a check the table has a row for, in a given mode *)
Definition row_shown (mode : option string) (with_results : bool) (opt : OptCheck) : bool :=
  if with_results then
    if is_ok opt then negb (is_ mode "show_fail") else negb (is_ mode "show_ok")
  else true.

(** a check the loop of [print_checklist] gets past *)
Definition row_valid (with_results : bool) (opt : OptCheck) : bool :=
  if with_results then has_verdict opt else true.

(** the checks up to the first one the loop does not get past *)
Fixpoint valid_prefix (with_results : bool) (checklist : list OptCheck) : list OptCheck :=
  match checklist with
  | [] => []
  | opt :: rest =>
      if row_valid with_results opt then opt :: valid_prefix with_results rest else []
  end.

(** what a row writes *)
Definition row_log (mode : option string) (with_results : bool) (sep_line_len : nat)
  (opt : OptCheck) : list out :=
  if row_shown mode with_results opt then
    TablePrint opt mode with_results :: Text ("" +:+ NL)
    :: (if is_ mode "verbose" then [Text (times "-" sep_line_len +:+ NL)] else [])
  else [].

(** the counters after a row *)
Definition row_counts (with_results : bool) (counts : nat * nat) (opt : OptCheck)
  : nat * nat :=
  if with_results then
    if is_ok opt then (S (fst counts), snd counts) else (fst counts, S (snd counts))
  else counts.

(** ** The three parts of [perform_checking]

    The driver, cut where the Kconfig data are parsed and where the
    refinement of [CONFIG_ARCH_MMAP_RND_BITS] ends; [perform_checking_parts]
    shows that the parts, in a row, are the driver. *)

Section DriverParts.

Variable fs : filesystem.
Context {E : Engine}.

(** from the start to the population with the kernel version *)
Definition driver_build (mode : option string) (version : option (list N))
  (kconfig cmdline sysctl : option string) : W event (list OptCheck) :=
  let config_checklist : list OptCheck := [] in
  arch <-
    (if truthy kconfig then
       '(arch, msg) <- stdout (detect_arch_kconfig fs (the kconfig)) ;;
       (match arch with
        | None => sys_exit ("[!] ERROR: " +:+ msg)
        | Some _ => pass
        end) ;;
       (if is_not mode "json" then
          stdout (print ("[+] Detected microarchitecture: " +:+ the arch))
        else pass) ;;
       ret arch
     else
       assert_ (negb (truthy cmdline)) "wrong perform_checking() usage" ;;
       assert_ (truthy sysctl) "wrong perform_checking() usage" ;;
       '(arch, msg) <- stdout (detect_arch_sysctl fs (the sysctl)) ;;
       (if is_not mode "json" then
          match arch with
          | None =>
              stdout (print ("[!] WARNING: " +:+ msg
                           +:+ ", arch-dependent checks will be dropped"))
          | Some a =>
              stdout (print ("[+] Detected microarchitecture: " +:+ a
                           +:+ " (" +:+ msg +:+ ")"))
          end
        else pass) ;;
       ret arch) ;;
  (if truthy kconfig then
     '(compiler, msg) <- stdout (detect_compiler fs (the kconfig)) ;;
     if is_not mode "json" then
       if truthy compiler then
         stdout (print ("[+] Detected compiler: " +:+ the compiler))
       else stdout (print ("[-] Can't detect the compiler: " +:+ msg))
     else pass
   else pass) ;;
  config_checklist <-
    (if truthy kconfig then
       assert_ (truthy arch) "arch is mandatory for the kconfig checks" ;;
       call (Call_add_kconfig_checks config_checklist (the arch))
            (add_kconfig_checks config_checklist (the arch))
     else ret config_checklist) ;;
  config_checklist <-
    (if truthy cmdline then
       assert_ (truthy arch) "arch is mandatory for the cmdline checks" ;;
       call (Call_add_cmdline_checks config_checklist (the arch))
            (add_cmdline_checks config_checklist (the arch))
     else ret config_checklist) ;;
  config_checklist <-
    (if truthy sysctl then
       call (Call_add_sysctl_checks config_checklist arch)
            (add_sysctl_checks config_checklist arch)
     else ret config_checklist) ;;
    (if truthy_tuple version then
       call (Call_populate_with_data config_checklist (Version (default [] version)) "version")
            (populate_with_data config_checklist (Version (default [] version)) "version")
     else ret config_checklist).

(** the population with the Kconfig data and the refinement *)
Definition driver_kconfig (mode : option string) (kconfig : option string)
  (config_checklist : list OptCheck)
  : W event (list OptCheck * gmap string string) :=
    (if truthy kconfig then
       parsed_kconfig_options <- stdout (parse_kconfig_file fs mode ∅ (the kconfig)) ;;
       config_checklist <-
         call (Call_populate_with_data config_checklist (Options parsed_kconfig_options) "kconfig")
              (populate_with_data config_checklist (Options parsed_kconfig_options) "kconfig") ;;
       let mmap_rnd_bits_max := parsed_kconfig_options !! "CONFIG_ARCH_MMAP_RND_BITS_MAX" in
       if truthy mmap_rnd_bits_max then
         config_checklist <-
           call (Call_override_expected_value config_checklist MMAP_RND_BITS (the mmap_rnd_bits_max))
                (override_expected_value config_checklist MMAP_RND_BITS (the mmap_rnd_bits_max)) ;;
         ret (config_checklist, parsed_kconfig_options)
       else
         (if is_not mode "json" then
            stdout (print "[-] Can't check CONFIG_ARCH_MMAP_RND_BITS without CONFIG_ARCH_MMAP_RND_BITS_MAX")
          else pass) ;;
         ret (remove_mmap_rnd_bits config_checklist, parsed_kconfig_options)
     else ret (config_checklist, ∅)).

(** from the population with the cmdline data to the end *)
Definition driver_report (mode : option string) (kconfig cmdline sysctl : option string)
  (st : list OptCheck * gmap string string) : W event unit :=
  let '(config_checklist, parsed_kconfig_options) := st in
  '(config_checklist, parsed_cmdline_options) <-
    (if truthy cmdline then
       parsed_cmdline_options <- stdout (parse_cmdline_file fs mode ∅ (the cmdline)) ;;
       config_checklist <-
         call (Call_populate_with_data config_checklist (Options parsed_cmdline_options) "cmdline")
              (populate_with_data config_checklist (Options parsed_cmdline_options) "cmdline") ;;
       ret (config_checklist, parsed_cmdline_options)
     else ret (config_checklist, ∅)) ;;
  '(config_checklist, parsed_sysctl_options) <-
    (if truthy sysctl then
       parsed_sysctl_options <- stdout (parse_sysctl_file fs mode ∅ (the sysctl)) ;;
       config_checklist <-
         call (Call_populate_with_data config_checklist (Options parsed_sysctl_options) "sysctl")
              (populate_with_data config_checklist (Options parsed_sysctl_options) "sysctl") ;;
       ret (config_checklist, parsed_sysctl_options)
     else ret (config_checklist, ∅)) ;;
  config_checklist <-
    call (Call_perform_checks config_checklist) (perform_checks config_checklist) ;;
  (if is_ mode "verbose" then
     (if truthy kconfig then
        call (Call_print_unknown_options config_checklist parsed_kconfig_options "kconfig") (Done tt) ;;
        stdout (print_unknown_options config_checklist parsed_kconfig_options "kconfig")
      else pass) ;;
     (if truthy cmdline then
        call (Call_print_unknown_options config_checklist parsed_cmdline_options "cmdline") (Done tt) ;;
        stdout (print_unknown_options config_checklist parsed_cmdline_options "cmdline")
      else pass) ;;
     (if truthy sysctl then
        call (Call_print_unknown_options config_checklist parsed_sysctl_options "sysctl") (Done tt) ;;
        stdout (print_unknown_options config_checklist parsed_sysctl_options "sysctl")
      else pass)
   else pass) ;;
  lift (print_checklist mode config_checklist true) ;;
  ([], SysExit (ExitCode 0)).

End DriverParts.

(** ** The order of the calls *)

(** the place of a call of the engine module in the driver: building the
    checklist, the four populations, the override between the second and
    the third of them, the evaluation, the diagnostic pass *)
Definition phase (e : event) : option nat :=
  match e with
  | Out _ => None
  | Call_add_kconfig_checks _ _ => Some 0
  | Call_add_cmdline_checks _ _ => Some 0
  | Call_add_sysctl_checks _ _ => Some 0
  | Call_populate_with_data _ _ data_type =>
      Some (if String.eqb data_type "version" then 1
            else if String.eqb data_type "kconfig" then 2
            else if String.eqb data_type "cmdline" then 4
            else if String.eqb data_type "sysctl" then 5
            else 8)
  | Call_override_expected_value _ _ _ => Some 3
  | Call_perform_checks _ => Some 6
  | Call_print_unknown_options _ _ _ => Some 7
  end.

Definition phases (l : list event) : list nat := omap phase l.

(** [l] never goes down, starts at [lo] or above and stays at [hi] or below *)
Fixpoint within (lo hi : nat) (l : list nat) : bool :=
  match l with
  | [] => true
  | p :: l' => Nat.leb lo p && Nat.leb p hi && within p hi l'
  end.

(** a computation whose calls are in order, between two phases *)
Definition stage {A} (lo hi : nat) (m : W event A) : Prop :=
  within lo hi (phases (log m)) = true.

Definition is_populate (data_type : string) (e : event) : bool :=
  match e with
  | Call_populate_with_data _ _ ty => String.eqb ty data_type
  | _ => false
  end.

Definition is_override (e : event) : bool :=
  match e with
  | Call_override_expected_value _ _ _ => true
  | _ => false
  end.

Definition is_perform_checks (e : event) : bool :=
  match e with
  | Call_perform_checks _ => true
  | _ => false
  end.

(** text written to stdout, and nothing else *)
Definition is_text (e : event) : Prop :=
  match e with
  | Out (Text _) => True
  | _ => False
  end.

Definition MMAP_RND_BITS_MAX : string := "CONFIG_ARCH_MMAP_RND_BITS_MAX".

(** no check of the checklist is named [CONFIG_ARCH_MMAP_RND_BITS] *)
Definition unnamed_mmap_rnd_bits (checklist : list OptCheck) : Prop :=
  Forall (fun o => name o <> MMAP_RND_BITS) checklist.

(** an event that gives no verdict on [CONFIG_ARCH_MMAP_RND_BITS]: an
    evaluation of a checklist that has no check of that name, a row of the
    table for a check of another name, a JSON output that is the dump of a
    checklist without such a check *)
Definition silent_on_mmap_rnd_bits {E : Engine} (e : event) : Prop :=
  match e with
  | Call_perform_checks checklist => unnamed_mmap_rnd_bits checklist
  | Out (TablePrint opt _ _) => name opt <> MMAP_RND_BITS
  | Out (JsonDumps output) =>
      exists checklist,
        unnamed_mmap_rnd_bits checklist
        /\ Forall2 (fun opt d => json_dump opt true = Done d) checklist output
  | _ => True
  end.

(** the engine changes the checks of a checklist, not their names: what the
    specification asks of population and evaluation *)
Definition keeps_names {E : Engine} : Prop :=
  (forall checklist d data_type checklist',
     populate_with_data checklist d data_type = Done checklist' ->
     name <$> checklist' = name <$> checklist)
  /\ (forall checklist checklist',
        perform_checks checklist = Done checklist' ->
        name <$> checklist' = name <$> checklist).

(** The four ways the second part of the driver can go, for a checklist
    [cl]: the parser fails; the population fails; the expected value of
    [CONFIG_ARCH_MMAP_RND_BITS] is overridden; the check is removed.  [l] is
    the log of the part and [r] its end. *)
Inductive kconfig_run {E : Engine} (cl : list OptCheck)
  (parsed : outcome (gmap string string))
  (l : list event) (r : outcome (list OptCheck * gmap string string)) : Prop :=
| kconfig_unparsed texts :
    failed parsed -> Forall is_text texts -> l = texts -> failed r ->
    kconfig_run cl parsed l r
| kconfig_unpopulated texts m :
    parsed = Done m -> Forall is_text texts ->
    failed (populate_with_data cl (Options m) "kconfig") ->
    l = texts ++ [Call_populate_with_data cl (Options m) "kconfig"] ->
    failed r ->
    kconfig_run cl parsed l r
| kconfig_refined texts m cl' :
    parsed = Done m -> Forall is_text texts ->
    populate_with_data cl (Options m) "kconfig" = Done cl' ->
    truthy (m !! MMAP_RND_BITS_MAX) = true ->
    l = texts ++ [Call_populate_with_data cl (Options m) "kconfig";
                  Call_override_expected_value cl' MMAP_RND_BITS
                    (the (m !! MMAP_RND_BITS_MAX))] ->
    (forall st, r = Done st ->
       exists cl'', override_expected_value cl' MMAP_RND_BITS
                      (the (m !! MMAP_RND_BITS_MAX)) = Done cl''
                    /\ st = (cl'', m)) ->
    kconfig_run cl parsed l r
| kconfig_removed texts texts' m cl' :
    parsed = Done m -> Forall is_text texts -> Forall is_text texts' ->
    populate_with_data cl (Options m) "kconfig" = Done cl' ->
    truthy (m !! MMAP_RND_BITS_MAX) = false ->
    l = texts ++ Call_populate_with_data cl (Options m) "kconfig" :: texts' ->
    r = Done (remove_mmap_rnd_bits cl', m) ->
    kconfig_run cl parsed l r.

(** the log of [m] is silent, and [Q] holds of what [m] returns *)
Definition silent {E : Engine} {A} (m : W event A) (Q : A -> Prop) : Prop :=
  Forall silent_on_mmap_rnd_bits (log m) /\ forall a, end_ m = Done a -> Q a.

(** The log of a run, around the population with the Kconfig data: either
    there is no call of phases 2 and 3, or the log is a part without them,
    the population, what [kconfig_run] says comes next, and the log of the
    third part. *)
Inductive run_shape {E : Engine} (parsed : outcome (gmap string string))
  (l : list event) : Prop :=
| run_without :
    Forall (fun e => phase e <> Some 2) l -> Forall (fun e => phase e <> Some 3) l ->
    run_shape parsed l
| run_unpopulated before cl m :
    parsed = Done m ->
    Forall (fun e => phase e <> Some 2) before ->
    Forall (fun e => phase e <> Some 3) before ->
    failed (populate_with_data cl (Options m) "kconfig") ->
    l = before ++ [Call_populate_with_data cl (Options m) "kconfig"] ->
    run_shape parsed l
| run_refined before cl m cl' rest :
    parsed = Done m ->
    Forall (fun e => phase e <> Some 2) before ->
    Forall (fun e => phase e <> Some 3) before ->
    populate_with_data cl (Options m) "kconfig" = Done cl' ->
    truthy (m !! MMAP_RND_BITS_MAX) = true ->
    Forall (fun e => phase e <> Some 2) rest ->
    Forall (fun e => phase e <> Some 3) rest ->
    l = before ++ Call_populate_with_data cl (Options m) "kconfig"
        :: Call_override_expected_value cl' MMAP_RND_BITS (the (m !! MMAP_RND_BITS_MAX))
        :: rest ->
    run_shape parsed l
| run_removed before cl m cl' rest :
    parsed = Done m ->
    Forall (fun e => phase e <> Some 2) before ->
    Forall (fun e => phase e <> Some 3) before ->
    populate_with_data cl (Options m) "kconfig" = Done cl' ->
    truthy (m !! MMAP_RND_BITS_MAX) = false ->
    Forall (fun e => phase e <> Some 2) rest ->
    Forall (fun e => phase e <> Some 3) rest ->
    (keeps_names -> Forall silent_on_mmap_rnd_bits rest) ->
    l = before ++ Call_populate_with_data cl (Options m) "kconfig" :: rest ->
    run_shape parsed l.


(** ** Vocabulary of the detectors *)

(** [sub in s] *)
Fixpoint has_substring (sub s : string) : bool :=
  startswith sub s
  || match s with
     | String _ s' => has_substring sub s'
     | EmptyString => false
     end.

(** the character of [s] at index [n], when there is one *)
Definition char_at (n : nat) (s : string) : option ascii :=
  match slice_from n s with
  | String c _ => Some c
  | EmptyString => None
  end.

(** The patterns of [arch_mapping], read as tests on the value of
    [kernel.arch]: [^aarch64|armv8] is a value that starts with [aarch64] or
    has [armv8] anywhere; [^armv[3-7]] one that starts with [armv] and a digit
    from 3 to 7; [^i[3-6]?86] one that starts with [i86] or with [i], a digit
    from 3 to 6 and [86]; [^x86_64] one that starts with [x86_64].  The first
    test that holds, in the order of the dict, gives the architecture. *)
Definition arch_of_value (value : string) : option string :=
  if startswith "aarch64" value || has_substring "armv8" value then Some "ARM64"
  else if startswith "armv" value
          && match char_at 4 value with Some c => between "3" "7" c | None => false end
  then Some "ARM"
  else if startswith "i86" value
          || (startswith "i" value
              && match char_at 1 value with Some c => between "3" "6" c | None => false end
              && startswith "86" (slice_from 2 value))
  then Some "X86_32"
  else if startswith "x86_64" value then Some "X86_64"
  else None.

(** a line [detect_arch_sysctl] stops at *)
Definition is_arch_line (line : string) : bool := startswith "kernel.arch" line.

(** the value of such a line: the text after its first [=], stripped *)
Definition arch_line_value (line : string) : string :=
  strip (nth 1 (split1 "=" line) EmptyString).

(** the version [detect_compiler] reads in a line that starts with [prefix]:
    the text after the prefix, less the last character of the line *)
Definition version_in (prefix line : string) : string :=
  drop_last (slice_from (String.length prefix) line).

(** the version of the last line of [lines] that starts with [prefix] *)
Definition compiler_version (prefix : string) (lines : list string) : option string :=
  version_in prefix <$> last (List.filter (startswith prefix) lines).

(** ** Vocabulary of the Kconfig parser *)

(** [s] is a run of characters of the set [p] followed by a string with
    property [Q] *)
Definition run_then (p : ascii -> bool) (Q : string -> Prop) (s : string) : Prop :=
  exists n rest, s = n +:+ rest /\ all_chars p n = true /\ Q rest.

(** the last character of a string *)
Fixpoint last_char (s : string) : option ascii :=
  match s with
  | EmptyString => None
  | String c EmptyString => Some c
  | String _ s' => last_char s'
  end.

(** the value a stripped line gives its option: the text after the first [=]
    of an enabled line, [is not set] for a disabled one *)
Definition kconfig_value_of (s : string) : string :=
  if is_enabled_line s then nth 1 (split1 "=" s) EmptyString else "is not set".

(** what [parse_kconfig_file] writes for a stripped line: a warning for an
    enabled option with an empty value *)
Definition kconfig_line_warning (s : string) : list string :=
  if is_enabled_line s && String.eqb (kconfig_value_of s) "" then
    [("[!] WARNING: found strange Kconfig option "
      +:+ default EmptyString (kconfig_option_of s) +:+ " with empty value") +:+ NL]
  else [].

(** a line [parse_kconfig_file] takes: its stripped text is empty, a
    comment, a disabled option, or an enabled option with a value other than
    [is not set] *)
Definition kconfig_line_ok (line : string) : bool :=
  negb (malformed_kconfig_line (strip line)) && negb (enabled_as_not_set (strip line)).

(** one step of the loop of [parse_kconfig_file] on such a line *)
Definition kconfig_step (m : gmap string string) (line : string) : gmap string string :=
  match kconfig_option_of (strip line) with
  | Some o => <[o := kconfig_value_of (strip line)]> m
  | None => m
  end.

(** the options the lines of a file are about, one entry for each line that
    is about one *)
Definition kconfig_options (lines : list string) : list string :=
  omap (fun line => kconfig_option_of (strip line)) lines.

(** ** The calls of the driver, one rank for each *)

(** Every call the driver can make of the engine module has a rank of its
    own: the three additions to the checklist, the population with the
    version, with the Kconfig data, the override, the populations with the
    cmdline and the sysctl data, the evaluation, and the three diagnostic
    passes. *)
Definition rank (e : event) : option nat :=
  match e with
  | Out _ => None
  | Call_add_kconfig_checks _ _ => Some 0
  | Call_add_cmdline_checks _ _ => Some 1
  | Call_add_sysctl_checks _ _ => Some 2
  | Call_populate_with_data _ _ data_type =>
      Some (if String.eqb data_type "version" then 3
            else if String.eqb data_type "kconfig" then 4
            else if String.eqb data_type "cmdline" then 6
            else if String.eqb data_type "sysctl" then 7
            else 12)
  | Call_override_expected_value _ _ _ => Some 5
  | Call_perform_checks _ => Some 8
  | Call_print_unknown_options _ _ opt_type =>
      Some (if String.eqb opt_type "kconfig" then 9
            else if String.eqb opt_type "cmdline" then 10
            else if String.eqb opt_type "sysctl" then 11
            else 12)
  end.

Definition ranks (l : list event) : list nat := omap rank l.

(** [l] goes up strictly, starts at [lo] or above and stays below [hi] *)
Fixpoint rising (lo hi : nat) (l : list nat) : bool :=
  match l with
  | [] => true
  | p :: l' => Nat.leb lo p && Nat.ltb p hi && rising (S p) hi l'
  end.

(** a computation whose calls have rising ranks, from [lo] and below [hi] *)
Definition in_turn {A} (lo hi : nat) (m : W event A) : Prop :=
  rising lo hi (ranks (log m)) = true.

(** ** What the driver writes in mode [json] *)

(** what a run in mode [json] may write before the JSON document: the
    warnings of the Kconfig parser, and nothing else *)
Definition before_json (warnings : list string) (e : event) : Prop :=
  match e with
  | Out (Text s) => In s warnings
  | Out _ => False
  | _ => True
  end.

(** a log of such events, then the JSON document or, in a run that ends
    before the report, nothing *)
Definition json_log (warnings : list string) (l : list event) : Prop :=
  exists before,
    Forall (before_json warnings) before
    /\ (l = before \/ exists output, l = before ++ [Out (JsonDumps output)]).

(** ** Vocabulary of [main] *)

(** the report mode [main] works with *)
Definition mode_of (a : args) : option string :=
  if truthy (args_mode a) then args_mode a else None.

(** what a computation wrote to stdout as text, in order *)
Definition written (l : list event) : list string :=
  omap (fun e => match e with Out (Text s) => Some s | _ => None end) l.

(** the calls of the engine module in a log *)
Definition calls (l : list event) : list event :=
  List.filter (fun e => match e with Out _ => false | _ => true end) l.

(** a check [--generate] writes a line for *)
Definition in_fragment (opt : OptCheck) : bool :=
  negb (String.eqb (name opt) MMAP_RND_BITS)
  && negb (String.eqb (expected opt) "is not off").

(** the line of the fragment for such a check, without its newline *)
Definition fragment_line (opt : OptCheck) : string :=
  if String.eqb (expected opt) "is not set" then "# " +:+ name opt +:+ " is not set"
  else name opt +:+ "=" +:+ expected opt.

(** a line of text that starts with [[+] ]: what [main] writes before it
    checks anything *)
Definition is_opening (e : event) : Prop :=
  match e with
  | Out (Text s) => startswith "[+] " s = true
  | _ => False
  end.

(** a name the Kconfig parser takes: [CONFIG_] and one or more letters,
    digits or underscores *)
Definition kconfig_name (s : string) : bool :=
  startswith "CONFIG_" s
  && nonempty (slice_from 7 s)
  && all_chars kconfig_name_chars (slice_from 7 s).

(** the carriage return *)
Definition CR : ascii := "013"%char.

(** What [open] in text mode hands out for the characters a file holds: a
    carriage return, with the newline after it if there is one, is read as
    a newline. *)
Fixpoint universal_newlines (s : string) : string :=
  match s with
  | EmptyString => EmptyString
  | String c s' =>
      if Ascii.eqb c CR then
        match s' with
        | String d s'' =>
            if Ascii.eqb d LF then String LF (universal_newlines s'')
            else String LF (universal_newlines s')
        | EmptyString => String LF EmptyString
        end
      else String c (universal_newlines s')
  end.

(** a value that fits on a line: no newline and no carriage return in it,
    and no whitespace at its end *)
Definition plain_value (v : string) : bool :=
  negb (contains LF v) && negb (contains CR v)
  && match last_char v with Some c => negb (isspace c) | None => true end.

(** [''.join(l)] *)
Definition joined (l : list string) : string := foldr String.append "" l.

(** ** Sample command lines

    Used to run [main] on concrete arguments. *)

Module Cli.

(** no option at all *)
Definition bare : args :=
  {| args_mode := None; args_config := None; args_cmdline := None; args_sysctl := None;
     args_kernel_version := None; args_print := None; args_generate := None |}.

(** [-g X86_64] *)
Definition generate : args :=
  {| args_mode := None; args_config := None; args_cmdline := None; args_sysctl := None;
     args_kernel_version := None; args_print := None; args_generate := Some "X86_64" |}.

(** [-c config] *)
Definition check : args :=
  {| args_mode := None; args_config := Some "config"; args_cmdline := None;
     args_sysctl := None; args_kernel_version := None; args_print := None;
     args_generate := None |}.

(** [-p X86_64] *)
Definition recommend : args :=
  {| args_mode := None; args_config := None; args_cmdline := None; args_sysctl := None;
     args_kernel_version := None; args_print := Some "X86_64"; args_generate := None |}.

(** [-m show_ok -p X86_64] *)
Definition print_show_ok : args :=
  {| args_mode := Some "show_ok"; args_config := None; args_cmdline := None;
     args_sysctl := None; args_kernel_version := None; args_print := Some "X86_64";
     args_generate := None |}.

(** [-l cmdline] *)
Definition cmdline_only : args :=
  {| args_mode := None; args_config := None; args_cmdline := Some "cmdline";
     args_sysctl := None; args_kernel_version := None; args_print := None;
     args_generate := None |}.

(** [-c config-bad]: a Kconfig file without a version line *)
Definition no_version : args :=
  {| args_mode := None; args_config := Some "config-bad"; args_cmdline := None;
     args_sysctl := None; args_kernel_version := None; args_print := None;
     args_generate := None |}.

(** the sample file system, with what [-g X86_64] writes kept in the file
    [fragment] *)
Definition fs : filesystem :=
  fun fname =>
    if String.eqb fname "fragment" then
      Some (Sample.plain
              (universal_newlines
                 (joined (written (log (main (E := Sample.engine) Sample.fs "" generate))))))
    else Sample.fs fname.

End Cli.

(** ** The checklist, from call to call *)

(** the checklist a call of the engine module is given *)
Definition given (e : event) : option (list OptCheck) :=
  match e with
  | Out _ => None
  | Call_add_kconfig_checks checklist _ => Some checklist
  | Call_add_cmdline_checks checklist _ => Some checklist
  | Call_add_sysctl_checks checklist _ => Some checklist
  | Call_populate_with_data checklist _ _ => Some checklist
  | Call_override_expected_value checklist _ _ => Some checklist
  | Call_perform_checks checklist => Some checklist
  | Call_print_unknown_options checklist _ _ => Some checklist
  end.

(** the population with Kconfig data that have no (or an empty)
    [CONFIG_ARCH_MMAP_RND_BITS_MAX]: the driver removes the checks of
    [CONFIG_ARCH_MMAP_RND_BITS] after it *)
Definition before_removal (d : data) (data_type : string) : bool :=
  match d with
  | Options m => String.eqb data_type "kconfig" && negb (truthy (m !! MMAP_RND_BITS_MAX))
  | Version _ => false
  end.

(** The checklist the driver goes on with after a call: what the call
    returns (without the checks of [CONFIG_ARCH_MMAP_RND_BITS] after
    [before_removal]), and after a diagnostic pass, which returns nothing,
    the checklist it was given. *)
Definition handed_on {E : Engine} (e : event) : outcome (list OptCheck) :=
  match e with
  | Out _ => Done []
  | Call_add_kconfig_checks checklist arch => add_kconfig_checks checklist arch
  | Call_add_cmdline_checks checklist arch => add_cmdline_checks checklist arch
  | Call_add_sysctl_checks checklist arch => add_sysctl_checks checklist arch
  | Call_populate_with_data checklist d data_type =>
      match populate_with_data checklist d data_type with
      | Done checklist' =>
          Done (if before_removal d data_type then remove_mmap_rnd_bits checklist'
                else checklist')
      | other => other
      end
  | Call_override_expected_value checklist name new_val =>
      override_expected_value checklist name new_val
  | Call_perform_checks checklist => perform_checks checklist
  | Call_print_unknown_options checklist _ _ => Done checklist
  end.

(** calls that are given the checklist in turn, from [cl] on; only the last
    one may fail *)
Fixpoint threaded {E : Engine} (cl : list OptCheck) (l : list event) : Prop :=
  match l with
  | [] => True
  | e :: l' =>
      given e = Some cl
      /\ (l' = [] \/ exists cl', handed_on e = Done cl' /\ threaded cl' l')
  end.

(** ** Where the data of the engine come from *)

(** the mapping a parser returns for the file named [fname], from the empty
    mapping *)
Definition parsed_from
  (parse : gmap string string -> string -> W string (gmap string string))
  (fname : option string) (m : gmap string string) : Prop :=
  truthy fname = true /\ end_ (parse ∅ (the fname)) = Done m.

(** The data of a call are those of the run: the version [perform_checking]
    was given, or the mapping the parser for the type of the data returned;
    the diagnostic passes are made in mode [verbose] only. *)
Definition from_parsers (fs : filesystem) {E : Engine} (mode : option string)
  (version : option (list N)) (kconfig cmdline sysctl : option string)
  (e : event) : Prop :=
  match e with
  | Call_populate_with_data _ (Version v) data_type =>
      data_type = "version" /\ version = Some v /\ v <> []
  | Call_populate_with_data _ (Options m) data_type =>
      (data_type = "kconfig" /\ parsed_from (parse_kconfig_file fs mode) kconfig m)
      \/ (data_type = "cmdline" /\ parsed_from (parse_cmdline_file fs mode) cmdline m)
      \/ (data_type = "sysctl" /\ parsed_from (parse_sysctl_file fs mode) sysctl m)
  | Call_print_unknown_options _ m opt_type =>
      mode = Some "verbose"
      /\ ((opt_type = "kconfig" /\ parsed_from (parse_kconfig_file fs mode) kconfig m)
          \/ (opt_type = "cmdline" /\ parsed_from (parse_cmdline_file fs mode) cmdline m)
          \/ (opt_type = "sysctl" /\ parsed_from (parse_sysctl_file fs mode) sysctl m))
  | _ => True
  end.


(** * Properties *)

(** ** Computations *)

Lemma bind_ret_l {L A B} (a : A) (k : A -> W L B) : bind (ret a) k = k a.
Proof. unfold bind, ret. destruct (k a) as [l r]. reflexivity. Qed.

Lemma bind_done {L A B} (l : list L) (a : A) (k : A -> W L B) :
  bind (l, Done a) k = (l ++ log (k a), end_ (k a)).
Proof. unfold bind, log, end_. destruct (k a) as [l' r]. reflexivity. Qed.

Lemma bind_log {L A B} (m : W L A) (k : A -> W L B) :
  log (bind m k) =
  log m ++ match end_ m with Done a => log (k a) | _ => [] end.
Proof.
  destruct m as [l [a | e | e]]; cbn [log end_ fst snd bind].
  - destruct (k a) as [l' r]. reflexivity.
  - symmetry. apply app_nil_r.
  - symmetry. apply app_nil_r.
Qed.

Lemma bind_end {L A B} (m : W L A) (k : A -> W L B) :
  end_ (bind m k) =
  match end_ m with
  | Done a => end_ (k a)
  | SysExit e => SysExit e
  | Raised e => Raised e
  end.
Proof.
  destruct m as [l [a | e | e]]; cbn [log end_ fst snd bind]; try reflexivity.
  destruct (k a) as [l' r]. reflexivity.
Qed.

Lemma open_found {L} (fs : filesystem) fname f :
  fs fname = Some f -> @_open fs L fname = ret f.
Proof. intros H. unfold _open. rewrite H. reflexivity. Qed.

(** ** [detect_arch_kconfig] *)

Lemma detect_arch_kconfig_lines_verdict (arch : option string) (lines : list string) :
  detect_arch_kconfig_lines arch lines =
  arch_verdict (option_list arch ++ omap arch_of_line lines).
Proof.
  revert arch. induction lines as [| line rest IH]; intros arch.
  - destruct arch; reflexivity.
  - cbn [detect_arch_kconfig_lines omap list_omap]. unfold arch_of_line at 1.
    change (@omap list _ _ _ arch_of_line rest) with (omap arch_of_line rest).
    destruct (search arch_pattern line) as [m |]; [| apply IH].
    destruct (in_list (group1 m) SUPPORTED_ARCHS); cbn [negb]; [| apply IH].
    destruct arch as [a |].
    + cbn. destruct (omap arch_of_line rest); reflexivity.
    + rewrite IH. reflexivity.
Qed.

(** C9, as amended: what [detect_arch_kconfig] returns is decided by the
    number of lines on which the search for ["CONFIG_([A-Z0-9_]+)=y$"] finds a
    supported architecture, a repeated line counting each time.  With exactly
    one such line the architecture of that line is returned with ['OK'], so a
    non-[None] architecture is returned if and only if there is exactly one;
    with two or more the result is [None] and 'detected more than one
    microarchitecture in kconfig'; with none it is [None] and 'failed to
    detect microarchitecture in kconfig'. *)
Theorem detect_arch_kconfig_counts_lines (fs : filesystem) (fname : string) (f : file) :
  fs fname = Some f ->
  detect_arch_kconfig fs fname
  = ([], Done (match announced_archs (text f) with
               | [] => (None, "failed to detect microarchitecture in kconfig")
               | [a] => (Some a, "OK")
               | _ :: _ :: _ =>
                   (None, "detected more than one microarchitecture in kconfig")
               end))
  /\ ((exists a msg, end_ (detect_arch_kconfig fs fname) = Done (Some a, msg))
      <-> length (announced_archs (text f)) = 1).
Proof.
  intros Hf.
  assert (Heq : detect_arch_kconfig fs fname
                = ([], Done (arch_verdict (announced_archs (text f))))).
  { unfold detect_arch_kconfig. rewrite (open_found _ _ _ Hf), bind_ret_l.
    rewrite detect_arch_kconfig_lines_verdict. reflexivity. }
  split; [exact Heq |].
  rewrite Heq. cbn [end_ snd].
  destruct (announced_archs (text f)) as [| a [| b l]]; cbn; split.
  - intros (a & msg & H). discriminate H.
  - intros H. discriminate H.
  - reflexivity.
  - intros _. exists a, "OK". reflexivity.
  - intros (a' & msg & H). discriminate H.
  - intros H. discriminate H.
Qed.

Lemma detect_arch_kconfig_counts_lines_witness :
  Sample.fs "config" = Some (Sample.plain Sample.kconfig_text)
  /\ detect_arch_kconfig Sample.fs "config" = ([], Done (Some "X86_64", "OK")).
Proof.
  split; [reflexivity |].
  pose proof (detect_arch_kconfig_counts_lines Sample.fs "config"
                (Sample.plain Sample.kconfig_text) eq_refl) as [H _].
  rewrite H. vm_compute. reflexivity.
Defined.

(** C9, as stated, fails on a file that announces one supported architecture
    on two lines: [ARM] is the only one of the four options in the file, and
    the answer is [None], 'detected more than one microarchitecture'. *)
Lemma detect_arch_kconfig_same_option_twice :
  Sample.fs "twice" = Some (Sample.plain ("CONFIG_ARM=y" +:+ NL +:+ "CONFIG_ARM=y" +:+ NL))
  /\ (forall a, In a SUPPORTED_ARCHS ->
        (exists line, In line (readlines ("CONFIG_ARM=y" +:+ NL +:+ "CONFIG_ARM=y" +:+ NL))
                      /\ arch_of_line line = Some a) <-> a = "ARM")
  /\ detect_arch_kconfig Sample.fs "twice"
     = ([], Done (None, "detected more than one microarchitecture in kconfig")).
Proof.
  split; [reflexivity |]. split; [| vm_compute; reflexivity].
  intros a Ha. split.
  - intros (line & Hin & Hline).
    vm_compute in Hin. destruct Hin as [<- | [<- | []]];
      vm_compute in Hline; congruence.
  - intros ->. exists ("CONFIG_ARM=y" +:+ NL). split; vm_compute; auto.
Qed.

(** ** [detect_kernel_version] *)

Lemma detect_kernel_version_lines_none (lines : list string) :
  Forall (fun l => is_version_line l = false) lines ->
  detect_kernel_version_lines lines = ([], Done (None, "no kernel version detected")).
Proof.
  induction 1 as [| line rest Hline _ IH]; [reflexivity |].
  cbn [detect_kernel_version_lines]. unfold is_version_line in Hline.
  rewrite Hline. exact IH.
Qed.

Lemma detect_kernel_version_lines_first (pre : list string) (line : string)
  (post : list string) :
  Forall (fun l => is_version_line l = false) pre ->
  is_version_line line = true ->
  detect_kernel_version_lines (pre ++ line :: post) = detect_kernel_version_line line.
Proof.
  intros Hpre Hline. induction Hpre as [| l pre Hl _ IH].
  - cbn [app detect_kernel_version_lines]. unfold is_version_line in Hline.
    rewrite Hline. reflexivity.
  - cbn [app detect_kernel_version_lines]. unfold is_version_line in Hl.
    rewrite Hl. exact IH.
Qed.

Lemma split1_nonempty (c : ascii) (s : string) :
  exists a l, split1 c s = a :: l.
Proof.
  destruct s as [| b s]; cbn [split1]; [eauto |].
  destruct (Ascii.eqb b c); [eauto |].
  destruct (split1 c s); eauto.
Qed.

Lemma ints_spec {L} (l : list string) :
  @ints L l
  = if forallb (fun s => Nat.leb (String.length s) max_str_digits) l
    then ret (map decimal_value l)
    else raise ValueError.
Proof.
  induction l as [| s l IH]; [reflexivity |].
  cbn [ints forallb map]. unfold int.
  destruct (Nat.leb (String.length s) max_str_digits); cbn [andb]; [| reflexivity].
  rewrite IH. destruct (forallb _ l); reflexivity.
Qed.

Lemma detect_kernel_version_line_field (line field : string) :
  third_field line = Some field ->
  detect_kernel_version_line line
  = ([], if well_formed_version field
         then if convertible_version field
              then Done (Some (map decimal_value (version_numbers field)), "OK")
              else Raised ValueError
         else Done (None, "failed to parse the version " +:+ DQ +:+ field +:+ DQ)).
Proof.
  unfold third_field, detect_kernel_version_line, well_formed_version,
    convertible_version, version_numbers.
  intros Hf. unfold index at 1. rewrite Hf, bind_ret_l.
  destruct (split1_nonempty "-" field) as (a & l & Hs). rewrite Hs.
  cbn [index nth_error hd]. rewrite bind_ret_l.
  destruct (Nat.leb 3 (length (split "." a))); cbn [andb]; [| reflexivity].
  destruct (forallb isdecimal (split "." a)); [| reflexivity].
  rewrite ints_spec. destruct (forallb _ (split "." a)); reflexivity.
Qed.

(** C4, as amended: [detect_kernel_version] looks at the first line that
    matches the version pattern and at no other.  Without such a line it
    returns [None] and 'no kernel version detected'.  With one that has a
    third whitespace-separated field, it returns a tuple if and only if that
    field, cut at its first [-], splits at the dots into at least three
    decimal strings; the tuple is these components as integers, so it has at
    least three of them; otherwise it returns [None] and 'failed to parse the
    version' with the field.  The tuple is stated for components [int]
    converts, those of at most 4300 digits. *)
Theorem detect_kernel_version_first_line (fs : filesystem) (fname : string) (f : file) :
  fs fname = Some f ->
  (Forall (fun l => is_version_line l = false) (readlines (text f)) ->
   detect_kernel_version fs fname = ([], Done (None, "no kernel version detected")))
  /\ (forall pre line post field,
        readlines (text f) = pre ++ line :: post ->
        Forall (fun l => is_version_line l = false) pre ->
        is_version_line line = true ->
        third_field line = Some field ->
        (well_formed_version field = true ->
         convertible_version field = true ->
         detect_kernel_version fs fname
         = ([], Done (Some (map decimal_value (version_numbers field)), "OK"))
         /\ 3 <= length (map decimal_value (version_numbers field)))
        /\ (well_formed_version field = false ->
            detect_kernel_version fs fname
            = ([], Done (None, "failed to parse the version " +:+ DQ +:+ field +:+ DQ)))
        /\ (forall v msg,
              detect_kernel_version fs fname = ([], Done (Some v, msg)) ->
              well_formed_version field = true)).
Proof.
  intros Hf. unfold detect_kernel_version.
  rewrite (open_found _ _ _ Hf), bind_ret_l. split.
  - apply detect_kernel_version_lines_none.
  - intros pre line post field Hlines Hpre Hline Hfield.
    rewrite Hlines, (detect_kernel_version_lines_first _ _ _ Hpre Hline).
    rewrite (detect_kernel_version_line_field _ _ Hfield).
    split; [| split].
    + intros Hwf Hconv. rewrite Hwf, Hconv. split; [reflexivity |].
      unfold well_formed_version in Hwf. apply andb_prop in Hwf as [Hlen _].
      rewrite length_map. apply Nat.leb_le in Hlen. exact Hlen.
    + intros Hwf. rewrite Hwf. reflexivity.
    + intros v msg. destruct (well_formed_version field); [reflexivity |].
      intros H. discriminate H.
Qed.

Lemma detect_kernel_version_first_line_witness :
  detect_kernel_version Sample.fs "config" = ([], Done (Some [6; 1; 0]%N, "OK")).
Proof.
  pose proof (detect_kernel_version_first_line Sample.fs "config"
                (Sample.plain Sample.kconfig_text) eq_refl) as [_ H].
  specialize (H ["#" +:+ NL] ("# Linux/x86 6.1.0 Kernel Configuration" +:+ NL)
                (skipn 2 (readlines Sample.kconfig_text)) "6.1.0").
  destruct H as [H _].
  - vm_compute. reflexivity.
  - repeat constructor.
  - vm_compute. reflexivity.
  - vm_compute. reflexivity.
  - destruct (H eq_refl eq_refl) as [H' _]. rewrite H'. vm_compute. reflexivity.
Defined.

(** C4, as stated, fails when a later line holds a well-formed version and the
    first version line does not: the second line of this file matches the
    pattern and its third field [5.10.0-rc1] gives three decimal components,
    and the answer is [None]. *)
Lemma detect_kernel_version_later_line_ignored :
  Sample.fs "versions"
  = Some (Sample.plain ("Linux version next" +:+ NL
                        +:+ "Linux version 5.10.0-rc1 (gcc)" +:+ NL))
  /\ (exists line field,
        In line (readlines ("Linux version next" +:+ NL
                            +:+ "Linux version 5.10.0-rc1 (gcc)" +:+ NL))
        /\ is_version_line line = true
        /\ third_field line = Some field
        /\ well_formed_version field = true
        /\ map int (version_numbers field) = [Some 5; Some 10; Some 0]%N)
  /\ detect_kernel_version Sample.fs "versions"
     = ([], Done (None, "failed to parse the version " +:+ DQ +:+ "next" +:+ DQ)).
Proof.
  split; [reflexivity |]. split; [| vm_compute; reflexivity].
  exists ("Linux version 5.10.0-rc1 (gcc)" +:+ NL), "5.10.0-rc1".
  repeat split; try (vm_compute; reflexivity).
  vm_compute. right. left. reflexivity.
Qed.

(** A version line with fewer than three fields: [parts[2]] raises. *)
Example detect_kernel_version_short_line :
  is_version_line ("Linux version  " +:+ NL) = true
  /\ third_field ("Linux version  " +:+ NL) = None
  /\ detect_kernel_version Sample.fs "version-short" = ([], Raised IndexError).
Proof. repeat split; vm_compute; reflexivity. Qed.

(** A version with a component of more than 4300 digits: [int] raises. *)
Example detect_kernel_version_long_component :
  let field := times "1" 4301 +:+ ".0.0" in
  let line := "Linux version " +:+ field +:+ NL in
  is_version_line line = true
  /\ third_field line = Some field
  /\ well_formed_version field = true
  /\ detect_kernel_version (fun _ => Some (Sample.plain line)) "version"
     = ([], Raised ValueError).
Proof. repeat split; vm_compute; reflexivity. Qed.

(** ** Loops *)

Lemma for_each_app {L A S} (body : S -> A -> W L S) (l1 l2 : list A) (s : S) :
  for_each body (l1 ++ l2) s = (s' <- for_each body l1 s ;; for_each body l2 s').
Proof.
  revert s. induction l1 as [| x l1 IH]; intros s; cbn [app for_each].
  - rewrite bind_ret_l. reflexivity.
  - destruct (body s x) as [l [s' | e | e]]; cbn [bind]; try reflexivity.
    rewrite IH.
    destruct (for_each body l1 s') as [l' [s'' | e | e]]; cbn [bind];
      try reflexivity.
    destruct (for_each body l2 s'') as [l'' r]. rewrite app_assoc. reflexivity.
Qed.

Lemma failed_bind_l {L A B} (m : W L A) (k : A -> W L B) :
  failed (end_ m) -> failed (end_ (bind m k)).
Proof. rewrite bind_end. destruct (end_ m); cbn; tauto. Qed.

Lemma failed_bind_r {L A B} (m : W L A) (k : A -> W L B) :
  (forall a, end_ m = Done a -> failed (end_ (k a))) -> failed (end_ (bind m k)).
Proof. rewrite bind_end. destruct (end_ m); cbn; auto. Qed.

(** A loop fails as soon as its body fails at one element, in every state
    the loop can be in when it gets there. *)
Lemma for_each_failed_at {L A S} (body : S -> A -> W L S) (inv : S -> Prop)
  (pre : list A) (x : A) (post : list A) (s : S) :
  inv s ->
  (forall s y s', In y pre -> inv s -> end_ (body s y) = Done s' -> inv s') ->
  (forall s, inv s -> failed (end_ (body s x))) ->
  failed (end_ (for_each body (pre ++ x :: post) s)).
Proof.
  revert s. induction pre as [| y pre IH]; intros s Hs Hstep Hx.
  - cbn [app for_each]. apply failed_bind_l. auto.
  - cbn [app for_each]. apply failed_bind_r. intros s' Hs'.
    apply IH.
    + eapply Hstep; [left; reflexivity | exact Hs | exact Hs'].
    + intros s1 z s2 Hz. apply Hstep. right. exact Hz.
    + exact Hx.
Qed.

(** ** [parse_kconfig_file] *)

Lemma lit_k_startswith (l : string) pos s caps k r :
  lit_k l pos s caps k = Some r -> startswith l s = true.
Proof.
  revert pos s. induction l as [| a l IH]; intros pos s; [reflexivity |].
  destruct s as [| b s]; cbn [lit_k startswith]; [discriminate |].
  destruct (Ascii.eqb a b); [| discriminate]. apply IH.
Qed.

Lemma enabled_line_startswith (s : string) :
  is_enabled_line s = true -> startswith "CONFIG_" s = true.
Proof.
  unfold is_enabled_line, match_, opt_is_on. cbn [cat foldr rmatch].
  destruct (lit_k "CONFIG_" 0 s [] _) eqn:H; [| discriminate].
  intros _. eapply lit_k_startswith. exact H.
Qed.

Lemma disabled_line_startswith (s : string) :
  is_disabled_line s = true -> startswith "# CONFIG_" s = true.
Proof.
  unfold is_disabled_line, match_, opt_is_off. cbn [cat foldr rmatch].
  destruct (lit_k "# CONFIG_" 0 s [] _) eqn:H; [| discriminate].
  intros _. eapply lit_k_startswith. exact H.
Qed.

Lemma split1_head_nonempty (c a : ascii) (s : string) :
  Ascii.eqb a c = false ->
  nonempty (hd EmptyString (split1 c (String a s))) = true.
Proof.
  intros H. cbn [split1]. rewrite H.
  destruct (split1 c s); reflexivity.
Qed.

Lemma kconfig_option_nonempty (s o : string) :
  kconfig_option_of s = Some o -> nonempty o = true.
Proof.
  unfold kconfig_option_of.
  destruct (is_enabled_line s) eqn:Hon.
  - intros [= <-]. apply enabled_line_startswith in Hon.
    destruct s as [| a s]; [discriminate |].
    cbn [startswith] in Hon. apply andb_prop in Hon as [Ha _].
    apply Ascii.eqb_eq in Ha as <-. apply split1_head_nonempty. reflexivity.
  - destruct (is_disabled_line s) eqn:Hoff; [| discriminate].
    intros [= <-]. apply disabled_line_startswith in Hoff.
    destruct s as [| a [| b [| c s]]]; cbn [startswith] in Hoff;
      rewrite ?andb_false_r in Hoff; try discriminate.
    apply andb_prop in Hoff as [_ Hoff]. apply andb_prop in Hoff as [_ Hoff].
    apply andb_prop in Hoff as [Hc _].
    apply Ascii.eqb_eq in Hc as <-. cbn [slice_from].
    apply split1_head_nonempty. reflexivity.
Qed.

Ltac wend :=
  repeat first
    [ rewrite bind_ret_l
    | rewrite bind_end
    | progress cbn [end_ snd fst ret raise sys_exit pass assert_ emit print tprint tprint_noend unpack2 index] ].

Ltac nodone := let H := fresh in intros H; discriminate H.

Lemma in_dict_false (k : string) (m : gmap string string) :
  in_dict k m = false -> m !! k = None.
Proof. unfold in_dict. destruct (m !! k); [discriminate | reflexivity]. Qed.

Lemma in_dict_true (k : string) (m : gmap string string) :
  in_dict k m = true <-> is_Some (m !! k).
Proof.
  unfold in_dict. destruct (m !! k); split; intros H; try reflexivity; try discriminate.
  - eauto.
  - destruct H as [x H]. discriminate.
Qed.

Lemma insert_keeps (m : gmap string string) (o v k : string) :
  is_Some (m !! k) -> is_Some (<[o:=v]> m !! k).
Proof.
  intros H. destruct (decide (o = k)) as [-> | Hne].
  - rewrite lookup_insert_eq. eauto.
  - rewrite lookup_insert_ne; [exact H | exact Hne].
Qed.

Lemma parse_kconfig_line_done (m : gmap string string) line m' :
  end_ (parse_kconfig_line m line) = Done m' ->
  malformed_kconfig_line (strip line) = false
  /\ enabled_as_not_set (strip line) = false
  /\ (forall o, kconfig_option_of (strip line) = Some o -> m !! o = None /\ is_Some (m' !! o))
  /\ (forall k, is_Some (m !! k) -> is_Some (m' !! k)).
Proof.
  pose proof (kconfig_option_nonempty (strip line)) as Hne.
  revert Hne.
  unfold parse_kconfig_line, malformed_kconfig_line, enabled_as_not_set, kconfig_option_of.
  set (s := strip line).
  change (matched (match_ opt_is_on s)) with (is_enabled_line s).
  change (matched (match_ opt_is_off s)) with (is_disabled_line s).
  assert (Hrec : forall o v, in_dict o m = false ->
            (forall o0, Some o = Some o0 -> m !! o0 = None /\ is_Some (<[o:=v]> m !! o0))
            /\ (forall k, is_Some (m !! k) -> is_Some (<[o:=v]> m !! k))).
  { intros o v Hin. split; [| intros k; apply insert_keeps].
    intros o' [= <-]. split; [apply in_dict_false, Hin |].
    rewrite lookup_insert_eq. eauto. }
  destruct (is_enabled_line s) eqn:Hon; [| destruct (is_disabled_line s) eqn:Hoff].
  - destruct (split1 "=" s) as [| o [| v [| x l]]]; intros Hne; wend; try nodone.
    cbn [hd] in *. specialize (Hne o eq_refl).
    destruct (String.eqb v "is not set"); wend; [nodone |].
    destruct (String.eqb v ""); wend;
      (destruct (in_dict o m) eqn:Hin; wend; [nodone |]);
      cbn [truthy the default]; rewrite Hne; wend;
      intros [= <-];
      (split; [destruct (negb (s =? "") && negb (startswith "#" s)); reflexivity |]);
      (split; [reflexivity | apply Hrec, Hin]).
  - destruct (split1 " " (slice_from 2 s)) as [| o [| v [| x l]]]; intros Hne; wend; try nodone.
    cbn [hd] in *. specialize (Hne o eq_refl).
    destruct (String.eqb v "is not set"); wend; [| nodone].
    destruct (in_dict o m) eqn:Hin; wend; [nodone |].
    cbn [truthy the default]; rewrite Hne; wend.
    intros [= <-].
    split; [destruct (negb (s =? "") && negb (startswith "#" s)); reflexivity |].
    split; [reflexivity | apply Hrec, Hin].
  - intros _. destruct (negb (String.eqb s "") && negb (startswith "#" s)); wend; [nodone |].
    intros [= <-]. split; [reflexivity |]. split; [reflexivity |].
    split; [intros o H; discriminate H | tauto].
Qed.

Lemma parse_kconfig_line_known (m : gmap string string) (line o : string) :
  kconfig_option_of (strip line) = Some o -> is_Some (m !! o) ->
  failed (end_ (parse_kconfig_line m line)).
Proof.
  intros Ho [v Hv].
  destruct (end_ (parse_kconfig_line m line)) as [m' | e | e] eqn:Hend; cbn; auto.
  apply parse_kconfig_line_done in Hend as (_ & _ & Hopt & _).
  destruct (Hopt o Ho) as [Hnone _]. congruence.
Qed.

Lemma parse_kconfig_lines_known (m : gmap string string) (pre : list string)
  (line : string) (post : list string) (o : string) :
  kconfig_option_of (strip line) = Some o -> is_Some (m !! o) ->
  failed (end_ (for_each parse_kconfig_line (pre ++ line :: post) m)).
Proof.
  intros Ho Hm.
  apply (for_each_failed_at parse_kconfig_line (fun m => is_Some (m !! o))).
  - exact Hm.
  - intros m1 y m2 _ Hm1 Hdone.
    apply parse_kconfig_line_done in Hdone as (_ & _ & _ & Hkeep). auto.
  - intros m1 Hm1. eapply parse_kconfig_line_known; eauto.
Qed.

Lemma parse_kconfig_lines_duplicate (m : gmap string string)
  (pre : list string) (l : string) (mid : list string) (line : string)
  (post : list string) (o : string) :
  kconfig_option_of (strip l) = Some o ->
  kconfig_option_of (strip line) = Some o ->
  failed (end_ (for_each parse_kconfig_line (pre ++ l :: mid ++ line :: post) m)).
Proof.
  intros Hl Hline. rewrite for_each_app.
  apply failed_bind_r. intros m1 _. cbn [for_each].
  apply failed_bind_r. intros m2 Hdone.
  apply parse_kconfig_line_done in Hdone as (_ & _ & Hopt & _).
  destruct (Hopt o Hl) as [_ Hin].
  apply parse_kconfig_lines_known with (o := o); assumption.
Qed.

(** C5: [parse_kconfig_file] ends with an error, and returns no mapping, as
    soon as one line of the file, once stripped, is not empty, is no comment
    and matches neither the enabled nor the disabled pattern; or is an enabled
    option whose value is the text [is not set]; or names an option that is
    already in the mapping, be it from the start or from an earlier line of
    the file. *)
Theorem parse_kconfig_file_rejects (fs : filesystem) (mode : option string)
  (parsed_options : gmap string string) (fname : string) (f : file)
  (pre : list string) (line : string) (post : list string) :
  fs fname = Some f ->
  readlines (text f) = pre ++ line :: post ->
  (malformed_kconfig_line (strip line) = true
   \/ enabled_as_not_set (strip line) = true
   \/ exists o, kconfig_option_of (strip line) = Some o
                /\ (is_Some (parsed_options !! o)
                    \/ exists l, List.In l pre /\ kconfig_option_of (strip l) = Some o)) ->
  failed (end_ (parse_kconfig_file fs mode parsed_options fname)).
Proof.
  intros Hf Hlines Hbad. unfold parse_kconfig_file.
  rewrite (open_found _ _ _ Hf), bind_ret_l, Hlines.
  destruct Hbad as [Hbad | [Hbad | (o & Ho & [Hm | (l & Hl & Hlo)])]].
  - apply (for_each_failed_at parse_kconfig_line (fun _ => True)); auto.
    intros m _.
    destruct (end_ (parse_kconfig_line m line)) as [m' | e | e] eqn:Hend; cbn; auto.
    apply parse_kconfig_line_done in Hend as (H & _). congruence.
  - apply (for_each_failed_at parse_kconfig_line (fun _ => True)); auto.
    intros m _.
    destruct (end_ (parse_kconfig_line m line)) as [m' | e | e] eqn:Hend; cbn; auto.
    apply parse_kconfig_line_done in Hend as (_ & H & _). congruence.
  - apply parse_kconfig_lines_known with (o := o); assumption.
  - apply in_split in Hl as (pre1 & pre2 & ->).
    rewrite <- app_assoc. cbn [app].
    apply parse_kconfig_lines_duplicate with (o := o); assumption.
Qed.

Lemma parse_kconfig_file_rejects_witness :
  failed (end_ (parse_kconfig_file Sample.fs None ∅ "config-bad")).
Proof.
  apply (parse_kconfig_file_rejects Sample.fs None ∅ "config-bad"
           (Sample.plain (Sample.lines ["CONFIG_BUG=y"; "CONFIG BUG"]))
           ["CONFIG_BUG=y" +:+ NL] ("CONFIG BUG" +:+ NL) []).
  - reflexivity.
  - vm_compute. reflexivity.
  - left. vm_compute. reflexivity.
Defined.

(** The three errors, as the program words them. *)
Example parse_kconfig_file_unexpected_line :
  parse_kconfig_file Sample.fs None ∅ "config-bad"
  = ([], SysExit (ExitMsg ("[!] ERROR: unexpected line in Kconfig file: "
                           +:+ DQ +:+ "CONFIG BUG" +:+ DQ))).
Proof. vm_compute. reflexivity. Qed.

Example parse_kconfig_file_bad_enabled :
  parse_kconfig_file Sample.fs None ∅ "config-notset"
  = ([], SysExit (ExitMsg ("[!] ERROR: bad enabled Kconfig option "
                           +:+ DQ +:+ "CONFIG_BUG=is not set" +:+ DQ))).
Proof. vm_compute. reflexivity. Qed.

Example parse_kconfig_file_multiple_times :
  parse_kconfig_file Sample.fs None ∅ "config-dup"
  = ([], SysExit (ExitMsg ("[!] ERROR: Kconfig option " +:+ DQ
                           +:+ "# CONFIG_BUG is not set" +:+ DQ
                           +:+ " is found multiple times"))).
Proof. vm_compute. reflexivity. Qed.

(** ** Splitting at a character *)

Lemma split1_absent (c : ascii) (s : string) :
  contains c s = false -> split1 c s = [s].
Proof.
  induction s as [| a s IH]; [reflexivity |].
  cbn [contains split1]. intros H. apply orb_false_elim in H as [Ha Hs].
  rewrite Ha, (IH Hs). reflexivity.
Qed.

Lemma split1_present (c : ascii) (s : string) :
  contains c s = true ->
  exists a b, split1 c s = [a; b] /\ s = a +:+ String c b /\ contains c a = false.
Proof.
  induction s as [| x s IH]; [discriminate |].
  cbn [contains split1]. destruct (Ascii.eqb x c) eqn:Hx.
  - intros _. apply Ascii.eqb_eq in Hx as ->. exists "", s. auto.
  - cbn [orb]. intros Hs. destruct (IH Hs) as (a & b & Hsplit & -> & Ha).
    exists (String x a), b. rewrite Hsplit. cbn [contains]. rewrite Hx, Ha. auto.
Qed.


(** ** What a match says about the subject *)

Lemma star_k_only_on (P : string -> Prop) (p : ascii -> bool) (k : cont) :
  (forall a s, P s -> P (String a s)) ->
  only_on P k -> only_on P (fun pos s caps => star_k p pos s caps k).
Proof.
  intros Hup Hk pos s. revert pos.
  induction s as [| a s IH]; intros pos caps r; cbn [star_k].
  - apply Hk.
  - destruct (p a); [| apply Hk].
    destruct (star_k p (S pos) s caps k) eqn:Hstar.
    + intros _. apply Hup. eapply IH. exact Hstar.
    + apply Hk.
Qed.

Lemma sysctl_pattern_has_eq (s : string) :
  matched (match_ sysctl_pattern s) = true -> contains "=" s = true.
Proof.
  unfold match_, sysctl_pattern. cbn [cat foldr rmatch].
  set (k := fun (pos' : nat) (s' : string) (caps' : list string) => _).
  assert (Hup : forall a s, contains "=" s = true -> contains "=" (String a s) = true).
  { intros a s' H. cbn [contains]. rewrite H. apply orb_true_r. }
  assert (Hk : only_on (fun s => contains "=" s = true) k).
  { intros pos s' caps r. unfold k.
    assert (Hlit : forall pos s', lit_k "=" pos s' caps
                     (fun pos' s'' caps' => rmatch (cat [Star dot; Eol]) pos' s'' caps' accept) <> None
                     -> contains "=" s' = true).
    { intros pos0 [| a s0]; cbn [lit_k]; [congruence |].
      destruct (Ascii.eqb "=" a) eqn:Ha; [| congruence].
      intros _. cbn [contains]. rewrite Ascii.eqb_sym, Ha. reflexivity. }
    destruct s' as [| a s0].
    - intros H. apply (Hlit pos ""). cbn [cat foldr rmatch]. congruence.
    - destruct (one_of " " a).
      + destruct (lit_k "=" (S pos) s0 caps _) eqn:H1.
        * intros _. apply Hup. apply (Hlit (S pos) s0). cbn [cat foldr rmatch]. congruence.
        * intros H. apply (Hlit pos (String a s0)). cbn [cat foldr rmatch]. congruence.
      + intros H. apply (Hlit pos (String a s0)). cbn [cat foldr rmatch]. congruence. }
  destruct s as [| a s]; [discriminate |].
  destruct (union _ _ a); [| discriminate].
  destruct (star_k _ 1 s [] k) eqn:Hstar; [| discriminate].
  intros _. apply Hup.
  eapply (star_k_only_on _ _ k Hup Hk). exact Hstar.
Qed.


(** ** [parse_sysctl_file] *)

Lemma parse_sysctl_line_ok (m : gmap string string) (line : string) :
  sysctl_line_ok line ->
  parse_sysctl_line m line = ret (sysctl_step m line).
Proof.
  unfold sysctl_line_ok, parse_sysctl_line, sysctl_step, sysctl_data_line,
    sysctl_option_of, sysctl_value_of.
  set (s := strip line).
  destruct (nonempty s); cbn [negb orb andb]; [| reflexivity].
  destruct (startswith "#" s); cbn [negb]; [reflexivity |].
  intros H. specialize (H eq_refl). rewrite H. cbn [negb].
  apply sysctl_pattern_has_eq, split1_present in H as (a & b & Hs & _ & _).
  rewrite Hs. cbn [unpack2 hd nth]. unfold pass. rewrite !bind_ret_l. reflexivity.
Qed.

Lemma sysctl_lines_ok_dec (lines : list string) :
  forallb (fun line => implb (sysctl_data_line (strip line))
                         (matched (match_ sysctl_pattern (strip line)))) lines = true ->
  Forall sysctl_line_ok lines.
Proof.
  induction lines as [| line lines IH]; [constructor |].
  cbn [forallb]. intros H. apply andb_prop in H as [Hl Hrest].
  constructor; [| apply IH, Hrest].
  unfold sysctl_line_ok. intros Hd. rewrite Hd in Hl. exact Hl.
Qed.

Lemma parse_sysctl_lines_ok (m : gmap string string) (lines : list string) :
  Forall sysctl_line_ok lines ->
  for_each parse_sysctl_line lines m = ret (fold_left sysctl_step lines m).
Proof.
  intros H. revert m. induction H as [| line lines Hl _ IH]; intros m.
  - reflexivity.
  - cbn [for_each fold_left]. rewrite (parse_sysctl_line_ok _ _ Hl), bind_ret_l.
    apply IH.
Qed.

Lemma sysctl_steps_other (lines : list string) (m : gmap string string) (o : string) :
  Forall (fun l => sysctl_data_line (strip l) = true ->
                   sysctl_option_of (strip l) <> o) lines ->
  fold_left sysctl_step lines m !! o = m !! o.
Proof.
  intros H. revert m. induction H as [| l lines Hl _ IH]; intros m; [reflexivity |].
  cbn [fold_left]. rewrite IH. unfold sysctl_step.
  destruct (sysctl_data_line (strip l)); [| reflexivity].
  apply lookup_insert_ne. auto.
Qed.

Lemma sysctl_steps_last (pre : list string) (line : string) (post : list string)
  (m : gmap string string) :
  sysctl_data_line (strip line) = true ->
  Forall (fun l => sysctl_data_line (strip l) = true ->
                   sysctl_option_of (strip l) <> sysctl_option_of (strip line)) post ->
  fold_left sysctl_step (pre ++ line :: post) m !! sysctl_option_of (strip line)
  = Some (sysctl_value_of (strip line)).
Proof.
  intros Hline Hpost. rewrite fold_left_app. cbn [fold_left].
  rewrite (sysctl_steps_other _ _ _ Hpost). unfold sysctl_step at 1.
  rewrite Hline. apply lookup_insert_eq.
Qed.

(** C10: a sysctl file that is not empty and whose lines are comments, empty
    lines or lines of the form the parser expects is parsed to the end, also
    when an option occurs on several lines: the mapping returned holds, for
    every option, the stripped value of the last line that sets it.  A
    Kconfig file in which two lines are about the same option makes
    [parse_kconfig_file] end with an error. *)
Theorem parse_sysctl_file_last_value (fs : filesystem) (mode : option string)
  (parsed_options : gmap string string) (fname : string) (f : file) :
  fs fname = Some f ->
  st_size f <> 0%N ->
  Forall sysctl_line_ok (readlines (text f)) ->
  (exists out m,
     parse_sysctl_file fs mode parsed_options fname = (out, Done m)
     /\ forall pre line post,
          readlines (text f) = pre ++ line :: post ->
          sysctl_data_line (strip line) = true ->
          Forall (fun l => sysctl_data_line (strip l) = true ->
                           sysctl_option_of (strip l) <> sysctl_option_of (strip line)) post ->
          m !! sysctl_option_of (strip line) = Some (sysctl_value_of (strip line)))
  /\ (forall kname kf pre l mid line post o,
        fs kname = Some kf ->
        readlines (text kf) = pre ++ l :: mid ++ line :: post ->
        kconfig_option_of (strip l) = Some o ->
        kconfig_option_of (strip line) = Some o ->
        failed (end_ (parse_kconfig_file fs mode parsed_options kname))).
Proof.
  intros Hf Hsize Hok. split.
  2: { intros kname kf pre l mid line post o Hkf Hlines Hl Hline.
       unfold parse_kconfig_file. rewrite (open_found _ _ _ Hkf), bind_ret_l, Hlines.
       apply parse_kconfig_lines_duplicate with (o := o); assumption. }
  unfold parse_sysctl_file.
  rewrite (open_found _ _ _ Hf), bind_ret_l.
  apply N.eqb_neq in Hsize. rewrite Hsize. unfold pass at 1. rewrite bind_ret_l.
  rewrite (parse_sysctl_lines_ok _ _ Hok), bind_ret_l.
  set (m := fold_left sysctl_step (readlines (text f)) parsed_options).
  assert (Hlast : forall pre line post,
            readlines (text f) = pre ++ line :: post ->
            sysctl_data_line (strip line) = true ->
            Forall (fun l => sysctl_data_line (strip l) = true ->
                     sysctl_option_of (strip l) <> sysctl_option_of (strip line)) post ->
            m !! sysctl_option_of (strip line) = Some (sysctl_value_of (strip line))).
  { intros pre line post Hlines Hline Hpost. unfold m. rewrite Hlines.
    apply sysctl_steps_last; assumption. }
  destruct (negb (in_dict "kernel.printk" m) && is_not mode "json");
    destruct (negb (in_dict "kernel.cad_pid" m) && is_not mode "json");
    eexists _, m; (split; [cbn; reflexivity | exact Hlast]).
Qed.

Lemma parse_sysctl_file_last_value_witness :
  (exists out m,
     parse_sysctl_file Sample.fs None ∅ "sysctl" = (out, Done m)
     /\ m !! "kernel.kptr_restrict" = Some "2")
  /\ failed (end_ (parse_kconfig_file Sample.fs None ∅ "config-dup")).
Proof.
  destruct (parse_sysctl_file_last_value Sample.fs None ∅ "sysctl"
              (Sample.plain Sample.sysctl_text) eq_refl)
    as [(out & m & Hrun & Hlast) Hdup].
  - vm_compute. discriminate.
  - apply sysctl_lines_ok_dec. vm_compute. reflexivity.
  - split.
    + exists out, m. split; [exact Hrun |].
      apply (Hlast (firstn 3 (readlines Sample.sysctl_text))
                   ("kernel.kptr_restrict=2" +:+ NL) ["kernel.cad_pid = 1" +:+ NL]).
      * vm_compute. reflexivity.
      * vm_compute. reflexivity.
      * repeat constructor. intros _. vm_compute. discriminate.
    + apply (Hdup "config-dup" (Sample.plain (Sample.lines ["CONFIG_BUG=y"; "# CONFIG_BUG is not set"]))
               [] ("CONFIG_BUG=y" +:+ NL) [] ("# CONFIG_BUG is not set" +:+ NL) [] "CONFIG_BUG");
        vm_compute; reflexivity.
Defined.

(** ** [parse_cmdline_file] *)

Lemma done_eq {L A} (m : W L A) (a : A) : end_ m = Done a -> m = (log m, Done a).
Proof. destruct m as [l r]. cbn. intros ->. reflexivity. Qed.

Section Cmdline.

Context {E : Engine}.

Lemma parse_cmdline_opt_end (mode : option string) (m : gmap string string)
  (opt v : string) :
  normalize_cmdline_options (cmdline_name opt) (cmdline_value opt) = Some v ->
  end_ (parse_cmdline_opt mode m opt) = Done (<[cmdline_name opt := v]> m).
Proof.
  unfold parse_cmdline_opt, cmdline_name, cmdline_value.
  destruct (contains "=" opt) eqn:Hc.
  - destruct (split1_present _ _ Hc) as (a & b & -> & _ & _).
    cbn [hd nth]. intros Hn. wend. rewrite Hn.
    destruct (in_dict a m && is_not mode "json"); wend; reflexivity.
  - intros Hn. wend. rewrite Hn.
    destruct (in_dict opt m && is_not mode "json"); wend; reflexivity.
Qed.

Lemma cmdline_token_shape (opt : string) :
  (contains "=" opt = true ->
   opt = cmdline_name opt +:+ "=" +:+ cmdline_value opt
   /\ contains "=" (cmdline_name opt) = false)
  /\ (contains "=" opt = false -> cmdline_name opt = opt /\ cmdline_value opt = "").
Proof.
  unfold cmdline_name, cmdline_value. split; intros Hc; rewrite Hc; [| auto].
  destruct (split1_present _ _ Hc) as (a & b & -> & -> & Ha). auto.
Qed.

Lemma parse_cmdline_opts_end (mode : option string) (opts : list string)
  (m : gmap string string) :
  Forall (fun opt => is_Some (normalize_cmdline_options (cmdline_name opt) (cmdline_value opt))) opts ->
  end_ (for_each (parse_cmdline_opt mode) opts m) = Done (cmdline_steps opts m).
Proof.
  intros H. revert m. induction H as [| opt rest [v Hv] _ IH]; intros m; [reflexivity |].
  cbn [for_each cmdline_steps]. rewrite bind_end.
  rewrite (parse_cmdline_opt_end _ _ _ _ Hv), Hv. apply IH.
Qed.

Lemma cmdline_steps_keep (opts : list string) (m : gmap string string) (n : string) :
  is_Some (m !! n) -> is_Some (cmdline_steps opts m !! n).
Proof.
  revert m. induction opts as [| opt rest IH]; intros m Hm; [exact Hm |].
  cbn [cmdline_steps]. apply IH. apply insert_keeps. exact Hm.
Qed.

Lemma cmdline_steps_other (opts : list string) (m : gmap string string) (n : string) :
  Forall (fun o => cmdline_name o <> n) opts ->
  cmdline_steps opts m !! n = m !! n.
Proof.
  intros H. revert m. induction H as [| o rest Ho _ IH]; intros m; [reflexivity |].
  cbn [cmdline_steps]. rewrite IH. apply lookup_insert_ne. exact Ho.
Qed.

Lemma cmdline_steps_app (l1 l2 : list string) (m : gmap string string) :
  cmdline_steps (l1 ++ l2) m = cmdline_steps l2 (cmdline_steps l1 m).
Proof. revert m. induction l1 as [| o l1 IH]; intros m; [reflexivity | apply IH]. Qed.

(** C3: on a command line file of one line whose values all normalise,
    [parse_cmdline_file] returns a mapping in which every token has left its
    name.  A token with an [=] is its name, the [=] and its value, the name
    being free of [=]; a token without one is its own name and has the empty
    string for value.  The name of a token is present in the mapping, and it
    is mapped to the normalised value of the token unless a later token has
    the same name: a bare flag is there with the normalised empty string,
    which is not the absence of a name, [None]. *)
Theorem parse_cmdline_file_records (fs : filesystem) (mode : option string)
  (parsed_options : gmap string string) (fname : string) (f : file) :
  fs fname = Some f ->
  nonempty (readline 0 (text f)) = true ->
  readline 1 (text f) = "" ->
  Forall (fun opt => is_Some (normalize_cmdline_options (cmdline_name opt) (cmdline_value opt)))
         (split_ws (readline 0 (text f))) ->
  exists out m,
    parse_cmdline_file fs mode parsed_options fname = (out, Done m)
    /\ forall pre opt post,
         split_ws (readline 0 (text f)) = pre ++ opt :: post ->
         (contains "=" opt = true ->
          opt = cmdline_name opt +:+ "=" +:+ cmdline_value opt
          /\ contains "=" (cmdline_name opt) = false)
         /\ (contains "=" opt = false -> cmdline_name opt = opt /\ cmdline_value opt = "")
         /\ is_Some (m !! cmdline_name opt)
         /\ (Forall (fun o => cmdline_name o <> cmdline_name opt) post ->
             m !! cmdline_name opt
             = normalize_cmdline_options (cmdline_name opt) (cmdline_value opt)).
Proof.
  intros Hf H0 H1 Hnorm.
  set (opts := split_ws (readline 0 (text f))) in *.
  assert (Hend : end_ (parse_cmdline_file fs mode parsed_options fname)
                 = Done (cmdline_steps opts parsed_options)).
  { unfold parse_cmdline_file. rewrite (open_found _ _ _ Hf), bind_ret_l.
    rewrite H0, H1. cbn [negb nonempty]. unfold pass. rewrite !bind_ret_l.
    apply parse_cmdline_opts_end. exact Hnorm. }
  apply done_eq in Hend. eexists _, _. split; [exact Hend |].
  intros pre opt post Hopts.
  destruct (cmdline_token_shape opt) as [Hyes Hno].
  split; [exact Hyes |]. split; [exact Hno |].
  rewrite Hopts in Hnorm. apply Forall_app in Hnorm as [_ Hnorm].
  apply Forall_cons in Hnorm as [[v Hv] _].
  rewrite Hopts, cmdline_steps_app. cbn [cmdline_steps]. rewrite Hv. cbn [default].
  split.
  - apply cmdline_steps_keep. rewrite lookup_insert_eq. eauto.
  - intros Hpost. rewrite (cmdline_steps_other _ _ _ Hpost). apply lookup_insert_eq.
Qed.
End Cmdline.

Lemma parse_cmdline_file_records_witness :
  exists out m,
    parse_cmdline_file (E := Sample.engine) Sample.fs None ∅ "cmdline" = (out, Done m)
    /\ m !! "nosmt" = Some "" /\ m !! "root" = Some "/dev/sda1".
Proof.
  destruct (parse_cmdline_file_records (E := Sample.engine) Sample.fs None ∅ "cmdline"
              (Sample.plain Sample.cmdline_text) eq_refl)
    as (out & m & Hrun & Htok).
  - vm_compute. reflexivity.
  - vm_compute. reflexivity.
  - vm_compute. repeat constructor; eexists; reflexivity.
  - exists out, m. split; [exact Hrun |].
    destruct (Htok ["BOOT_IMAGE=/vmlinuz"; "root=/dev/sda1"] "nosmt"
                ["quiet"; "mitigations=auto,nosmt"]) as (_ & _ & _ & Hflag).
    { vm_compute. reflexivity. }
    destruct (Htok ["BOOT_IMAGE=/vmlinuz"] "root=/dev/sda1"
                ["nosmt"; "quiet"; "mitigations=auto,nosmt"]) as (_ & _ & _ & Hroot).
    { vm_compute. reflexivity. }
    split.
    + apply Hflag. repeat constructor; vm_compute; discriminate.
    + apply Hroot. repeat constructor; vm_compute; discriminate.
Defined.

(** a bare flag is in the mapping, with the empty string; a name that is
    not on the command line is not *)
Example parse_cmdline_file_flag_and_absent :
  match end_ (parse_cmdline_file (E := Sample.engine) Sample.fs None ∅ "cmdline") with
  | Done m => (m !! "nosmt", m !! "nosuchflag")
  | _ => (None, None)
  end = (Some "", None).
Proof. vm_compute. reflexivity. Qed.

(** ** [print_checklist] *)

Section ReportProps.

Context {E : Engine}.

Lemma truthy_of_startswith (p : string) (r : option string) :
  nonempty p = true -> startswith p (the r) = true -> truthy r = true.
Proof.
  destruct r as [[| c r] |]; destruct p; cbn; congruence.
Qed.

Lemma print_checklist_row_valid mode wr sep counts opt :
  row_valid wr opt = true ->
  print_checklist_row mode wr sep counts opt
  = (row_log mode wr sep opt, Done (row_counts wr counts opt)).
Proof.
  destruct counts as [ok fail].
  unfold row_valid, print_checklist_row, row_log, row_counts, row_shown, has_verdict.
  destruct wr.
  - fold (is_ok opt). fold (is_fail opt). intros Hv.
    assert (Ht : truthy (result opt) = true).
    { apply orb_prop in Hv as [H | H];
        eapply truthy_of_startswith; try exact H; reflexivity. }
    rewrite Ht. cbn [assert_]. rewrite bind_ret_l.
    destruct (is_ok opt) eqn:Hok.
    + rewrite bind_ret_l. cbn [fst snd].
      destruct (is_ mode "show_fail"); cbn [negb].
      * reflexivity.
      * destruct (is_ mode "verbose"); reflexivity.
    + cbn [orb] in Hv. rewrite Hv. cbn [assert_]. rewrite !bind_ret_l. cbn [fst snd].
      destruct (is_ mode "show_ok"); cbn [negb].
      * reflexivity.
      * destruct (is_ mode "verbose"); reflexivity.
  - intros _. rewrite bind_ret_l. destruct (is_ mode "verbose"); reflexivity.
Qed.

Lemma print_checklist_row_invalid mode wr sep counts opt :
  row_valid wr opt = false ->
  exists msg, print_checklist_row mode wr sep counts opt = ([], Raised (AssertionError msg)).
Proof.
  destruct counts as [ok fail].
  unfold row_valid, print_checklist_row, has_verdict.
  destruct wr; [| discriminate].
  fold (is_ok opt). fold (is_fail opt). intros Hv.
  apply orb_false_elim in Hv as [Hok Hfail]. rewrite Hok, Hfail.
  destruct (truthy (result opt)); cbn; eauto.
Qed.

Lemma print_rows_log mode wr sep (checklist : list OptCheck) counts :
  log (for_each (print_checklist_row mode wr sep) checklist counts)
  = flat_map (row_log mode wr sep) (valid_prefix wr checklist).
Proof.
  revert counts. induction checklist as [| opt rest IH]; intros counts; [reflexivity |].
  cbn [for_each valid_prefix]. rewrite bind_log.
  destruct (row_valid wr opt) eqn:Hv.
  - rewrite (print_checklist_row_valid _ _ _ _ _ Hv). cbn [log end_ fst snd flat_map].
    rewrite IH. reflexivity.
  - destruct (print_checklist_row_invalid mode wr sep counts opt Hv) as [msg ->].
    reflexivity.
Qed.

Lemma print_rows_end_valid mode wr sep (checklist : list OptCheck) counts :
  forallb (row_valid wr) checklist = true ->
  end_ (for_each (print_checklist_row mode wr sep) checklist counts)
  = Done (fold_left (row_counts wr) checklist counts).
Proof.
  revert counts. induction checklist as [| opt rest IH]; intros counts; [reflexivity |].
  cbn [forallb for_each fold_left]. intros H. apply andb_prop in H as [Hv Hrest].
  rewrite bind_end, (print_checklist_row_valid _ _ _ _ _ Hv). cbn [end_ snd].
  apply IH. exact Hrest.
Qed.

Lemma print_rows_end_invalid mode wr sep (checklist : list OptCheck) counts :
  forallb (row_valid wr) checklist = false ->
  exists msg, end_ (for_each (print_checklist_row mode wr sep) checklist counts)
              = Raised (AssertionError msg).
Proof.
  revert counts. induction checklist as [| opt rest IH]; intros counts; [discriminate |].
  cbn [forallb for_each]. intros H. rewrite bind_end.
  destruct (row_valid wr opt) eqn:Hv.
  - rewrite (print_checklist_row_valid _ _ _ _ _ Hv). cbn [end_ snd]. apply IH. exact H.
  - destruct (print_checklist_row_invalid mode wr sep counts opt Hv) as [msg ->].
    cbn. eauto.
Qed.

Lemma printed_app (l1 l2 : list out) : printed (l1 ++ l2) = printed l1 ++ printed l2.
Proof. unfold printed. apply omap_app. Qed.

Lemma scores_app (l1 l2 : list out) : scores (l1 ++ l2) = scores l1 ++ scores l2.
Proof. unfold scores. apply omap_app. Qed.

Lemma printed_rows mode wr sep (l : list OptCheck) :
  printed (flat_map (row_log mode wr sep) l) = List.filter (row_shown mode wr) l.
Proof.
  induction l as [| opt rest IH]; [reflexivity |].
  cbn [flat_map List.filter]. rewrite printed_app, IH. unfold row_log.
  destruct (row_shown mode wr opt); [| reflexivity].
  destruct (is_ mode "verbose"); reflexivity.
Qed.

Lemma scores_rows mode wr sep (l : list OptCheck) :
  scores (flat_map (row_log mode wr sep) l) = [].
Proof.
  induction l as [| opt rest IH]; [reflexivity |].
  cbn [flat_map]. rewrite scores_app, IH. unfold row_log.
  destruct (row_shown mode wr opt); [| reflexivity].
  destruct (is_ mode "verbose"); reflexivity.
Qed.

Lemma dumps_app (l1 l2 : list out) : dumps (l1 ++ l2) = dumps l1 ++ dumps l2.
Proof. unfold dumps. apply omap_app. Qed.

Lemma dumps_rows mode wr sep (l : list OptCheck) :
  dumps (flat_map (row_log mode wr sep) l) = [].
Proof.
  induction l as [| opt rest IH]; [reflexivity |].
  cbn [flat_map]. rewrite dumps_app, IH. unfold row_log.
  destruct (row_shown mode wr opt); [| reflexivity].
  destruct (is_ mode "verbose"); reflexivity.
Qed.

Lemma row_counts_total (l : list OptCheck) (ok fail : nat) :
  fold_left (row_counts true) l (ok, fail)
  = (ok + length (List.filter is_ok l),
     fail + length (List.filter (fun o => negb (is_ok o)) l)).
Proof.
  revert ok fail. induction l as [| opt rest IH]; intros ok fail.
  - cbn. f_equal; lia.
  - cbn [fold_left List.filter]. unfold row_counts at 2. cbn [fst snd].
    destruct (is_ok opt); cbn [negb length]; rewrite IH; f_equal; lia.
Qed.

Lemma filter_split_length {A} (p : A -> bool) (l : list A) :
  length (List.filter p l) + length (List.filter (fun x => negb (p x)) l) = length l.
Proof.
  induction l as [| x l IH]; [reflexivity |].
  cbn [List.filter]. destruct (p x); cbn [negb length]; lia.
Qed.

(** the table of [print_checklist], for a mode other than [json] *)
Lemma print_checklist_table mode (checklist : list OptCheck) wr :
  is_ mode "json" = false ->
  exists header,
    printed header = [] /\ scores header = [] /\ dumps header = []
    /\ log (print_checklist mode checklist wr)
       = header
         ++ flat_map (row_log mode wr (if wr then 91 + 30 else 91)) (valid_prefix wr checklist)
         ++ (if forallb (row_valid wr) checklist then
               Text ("" +:+ NL)
               :: (if wr then
                     [Score (length (List.filter is_ok checklist))
                            (if is_ mode "show_fail" then " (suppressed in output)" else "")
                            (length (List.filter (fun o => negb (is_ok o)) checklist))
                            (if is_ mode "show_ok" then " (suppressed in output)" else "")]
                   else [])
             else [])
    /\ (forallb (row_valid wr) checklist = true ->
        end_ (print_checklist mode checklist wr) = Done tt)
    /\ (forallb (row_valid wr) checklist = false ->
        exists msg, end_ (print_checklist mode checklist wr) = Raised (AssertionError msg)).
Proof.
  intros Hj. unfold print_checklist. rewrite Hj.
  set (sep := if wr then 91 + 30 else 91).
  set (rows := for_each (print_checklist_row mode wr sep) checklist (0, 0)).
  pose proof (print_rows_log mode wr sep checklist (0, 0)) as Hlog. fold rows in Hlog.
  assert (Hc : fold_left (row_counts false) checklist (0, 0) = (0, 0)).
  { clear. induction checklist; [reflexivity | assumption]. }
  unfold tprint, tprint_noend, emit, pass, ret.
  destruct (forallb (row_valid wr) checklist) eqn:Hall.
  - pose proof (print_rows_end_valid mode wr sep checklist (0, 0) Hall) as Hend.
    fold rows in Hend. destruct rows as [l r]. cbn [log end_ fst snd] in Hlog, Hend.
    subst l r. destruct wr.
    + rewrite row_counts_total. rewrite !bind_done. cbv beta iota.
      rewrite ?bind_done. cbn [log end_ fst snd app Nat.add].
      eexists [Text _; Text _; Text _; Text _; Text _]. cbn [app].
      split; [reflexivity |]. split; [reflexivity |]. split; [reflexivity |].
      split; [| split; [reflexivity | discriminate]].
      rewrite ?app_nil_r. reflexivity.
    + rewrite Hc. rewrite !bind_done. cbv beta iota.
      rewrite ?bind_done. cbn [log end_ fst snd app Nat.add].
      eexists [Text _; Text _; Text _; Text _]. cbn [app].
      split; [reflexivity |]. split; [reflexivity |]. split; [reflexivity |].
      split; [| split; [reflexivity | discriminate]].
      rewrite ?app_nil_r. reflexivity.
  - destruct (print_rows_end_invalid mode wr sep checklist (0, 0) Hall) as [msg Hend].
    fold rows in Hend. destruct rows as [l r]. cbn [log end_ fst snd] in Hlog, Hend.
    subst l r. destruct wr.
    + rewrite !bind_done. cbn [bind log end_ fst snd app].
      eexists [Text _; Text _; Text _; Text _; Text _]. cbn [app].
      split; [reflexivity |]. split; [reflexivity |]. split; [reflexivity |].
      split; [| split; [discriminate | eauto]].
      rewrite ?app_nil_r. reflexivity.
    + rewrite !bind_done. cbn [bind log end_ fst snd app].
      eexists [Text _; Text _; Text _; Text _]. cbn [app].
      split; [reflexivity |]. split; [reflexivity |]. split; [reflexivity |].
      split; [| split; [discriminate | eauto]].
      rewrite ?app_nil_r. reflexivity.
Qed.


Lemma ok_not_fail (opt : OptCheck) : is_ok opt = true -> is_fail opt = false.
Proof.
  unfold is_ok, is_fail. destruct (the (result opt)) as [| c r]; [discriminate |].
  cbn [startswith]. intros H. apply andb_prop in H as [Hc _].
  apply Ascii.eqb_eq in Hc as <-. reflexivity.
Qed.

Lemma valid_prefix_valid wr (checklist : list OptCheck) (opt : OptCheck) :
  In opt (valid_prefix wr checklist) -> row_valid wr opt = true.
Proof.
  induction checklist as [| o rest IH]; cbn [valid_prefix]; [intros [] |].
  destruct (row_valid wr o) eqn:Hv; [| intros []].
  intros [<- | H]; auto.
Qed.

Lemma valid_prefix_all wr (checklist : list OptCheck) :
  forallb (row_valid wr) checklist = true -> valid_prefix wr checklist = checklist.
Proof.
  induction checklist as [| o rest IH]; [reflexivity |].
  cbn [forallb valid_prefix]. intros H. apply andb_prop in H as [-> Hrest].
  rewrite (IH Hrest). reflexivity.
Qed.

Lemma valid_prefix_sublist wr (checklist : list OptCheck) :
  sublist (valid_prefix wr checklist) checklist.
Proof.
  induction checklist as [| o rest IH]; [constructor |].
  cbn [valid_prefix]. destruct (row_valid wr o).
  - apply sublist_skip. exact IH.
  - apply sublist_nil_l.
Qed.


Lemma printed_of_table mode (checklist : list OptCheck) wr :
  is_ mode "json" = false ->
  printed (log (print_checklist mode checklist wr))
  = List.filter (row_shown mode wr) (valid_prefix wr checklist).
Proof.
  intros Hj.
  destruct (print_checklist_table mode checklist wr Hj) as (h & Hp & _ & _ & -> & _).
  rewrite !printed_app, Hp, printed_rows.
  destruct (forallb (row_valid wr) checklist); [| apply app_nil_r].
  destruct wr; apply app_nil_r.
Qed.

Lemma scores_of_table mode (checklist : list OptCheck) :
  is_ mode "json" = false ->
  scores (log (print_checklist mode checklist true))
  = if forallb has_verdict checklist
    then [(length (List.filter is_ok checklist),
           length (List.filter (fun o => negb (is_ok o)) checklist))]
    else [].
Proof.
  intros Hj.
  destruct (print_checklist_table mode checklist true Hj) as (h & _ & Hs & _ & -> & _).
  rewrite !scores_app, Hs, scores_rows. cbn [app].
  change (forallb (row_valid true) checklist) with (forallb has_verdict checklist).
  destruct (forallb has_verdict checklist); reflexivity.
Qed.

Lemma dumps_of_table mode (checklist : list OptCheck) wr :
  is_ mode "json" = false ->
  dumps (log (print_checklist mode checklist wr)) = [].
Proof.
  intros Hj.
  destruct (print_checklist_table mode checklist wr Hj) as (h & _ & _ & Hd & -> & _).
  rewrite !dumps_app, Hd, dumps_rows. cbn [app].
  destruct (forallb (row_valid wr) checklist); [| reflexivity].
  destruct wr; reflexivity.
Qed.

Lemma in_printed (l : list out) opt mode wr :
  In (TablePrint opt mode wr) l -> In opt (printed l).
Proof.
  induction l as [| o l IH]; [intros [] |].
  intros [-> | H].
  - left. reflexivity.
  - unfold printed. cbn [omap list_omap]. fold (printed l).
    destruct o; try (apply IH, H). right. apply IH, H.
Qed.

Lemma in_dumps (l : list out) output :
  In (JsonDumps output) l -> In output (dumps l).
Proof.
  induction l as [| o l IH]; [intros [] |].
  intros [-> | H].
  - left. reflexivity.
  - unfold dumps. cbn [omap list_omap]. fold (dumps l).
    destruct o; try (apply IH, H). right. apply IH, H.
Qed.

Lemma fail_count_eq (checklist : list OptCheck) :
  forallb has_verdict checklist = true ->
  List.filter (fun o => negb (is_ok o)) checklist = List.filter is_fail checklist.
Proof.
  induction checklist as [| o rest IH]; [reflexivity |].
  cbn [forallb List.filter]. intros H. apply andb_prop in H as [Ho Hrest].
  rewrite (IH Hrest). unfold has_verdict in Ho.
  destruct (is_ok o) eqn:Hok.
  - rewrite (ok_not_fail _ Hok). reflexivity.
  - cbn [orb] in Ho. rewrite Ho. reflexivity.
Qed.

(** C6, as amended: in a mode other than [json], with results, every check
    [print_checklist] prints has a result that starts with [OK] or [FAIL];
    mode [show_fail] prints no [OK] check and mode [show_ok] prints no [FAIL]
    check; a score line is printed only when every check of the checklist has
    such a result, and it then reports the number of [OK] checks and the
    number of [FAIL] checks of the whole checklist, which add up to its
    length; and when every check has such a result the report is printed to
    its end, score line included. *)
Theorem print_checklist_tally (mode : option string) (checklist : list OptCheck) :
  is_ mode "json" = false ->
  (forall opt, In opt (printed (log (print_checklist mode checklist true))) ->
     has_verdict opt = true)
  /\ (is_ mode "show_fail" = true ->
      forall opt, In opt (printed (log (print_checklist mode checklist true))) ->
        is_ok opt = false)
  /\ (is_ mode "show_ok" = true ->
      forall opt, In opt (printed (log (print_checklist mode checklist true))) ->
        is_ok opt = true /\ is_fail opt = false)
  /\ (forall ok_count fail_count,
        In (ok_count, fail_count) (scores (log (print_checklist mode checklist true))) ->
        Forall (fun opt => has_verdict opt = true) checklist
        /\ ok_count = length (List.filter is_ok checklist)
        /\ fail_count = length (List.filter is_fail checklist)
        /\ ok_count + fail_count = length checklist)
  /\ (Forall (fun opt => has_verdict opt = true) checklist ->
      end_ (print_checklist mode checklist true) = Done tt
      /\ scores (log (print_checklist mode checklist true))
         = [(length (List.filter is_ok checklist),
             length (List.filter is_fail checklist))]).
Proof.
  intros Hj. rewrite (printed_of_table _ _ _ Hj), (scores_of_table _ _ Hj).
  assert (Hshown : forall opt,
            In opt (List.filter (row_shown mode true) (valid_prefix true checklist)) ->
            has_verdict opt = true /\ row_shown mode true opt = true).
  { intros opt Hin. apply filter_In in Hin as [Hin Hs]. split; [| exact Hs].
    apply (valid_prefix_valid true checklist). exact Hin. }
  split; [intros opt Hin; apply Hshown, Hin |].
  split; [| split; [| split]].
  - intros Hm opt Hin. apply Hshown in Hin as [_ Hs]. unfold row_shown in Hs.
    rewrite Hm in Hs. destruct (is_ok opt); [discriminate | reflexivity].
  - intros Hm opt Hin. apply Hshown in Hin as [_ Hs]. unfold row_shown in Hs.
    rewrite Hm in Hs. destruct (is_ok opt) eqn:Hok; [| discriminate].
    split; [reflexivity | apply ok_not_fail, Hok].
  - intros ok fail. destruct (forallb has_verdict checklist) eqn:Hall; [| intros []].
    intros [[= <- <-] | []]. split; [| split; [reflexivity | split]].
    + apply List.Forall_forall. intros opt Hin.
      rewrite forallb_forall in Hall. apply Hall, Hin.
    + rewrite (fail_count_eq _ Hall). reflexivity.
    + apply filter_split_length.
  - intros Hall.
    assert (Hb : forallb has_verdict checklist = true).
    { apply forallb_forall. rewrite List.Forall_forall in Hall. exact Hall. }
    rewrite Hb, (fail_count_eq _ Hb). split; [| reflexivity].
    destruct (print_checklist_table mode checklist true Hj) as (_ & _ & _ & _ & _ & Hend & _).
    apply Hend. exact Hb.
Qed.

(** C7, as amended: in a mode other than [json], with results, a checklist
    that has a check whose result is empty or [None], or starts with neither
    [OK] nor [FAIL], makes an assertion of [print_checklist] fail; that check
    is not printed, nothing without a verdict is, and no score is reported. *)
Theorem print_checklist_asserts (mode : option string) (checklist : list OptCheck)
  (opt : OptCheck) :
  is_ mode "json" = false ->
  In opt checklist ->
  truthy (result opt) = false
  \/ (startswith "OK" (the (result opt)) = false
      /\ startswith "FAIL" (the (result opt)) = false) ->
  (exists msg, end_ (print_checklist mode checklist true) = Raised (AssertionError msg))
  /\ (forall o, In o (printed (log (print_checklist mode checklist true))) ->
        has_verdict o = true)
  /\ ~ In opt (printed (log (print_checklist mode checklist true)))
  /\ scores (log (print_checklist mode checklist true)) = [].
Proof.
  intros Hj Hin Hbad.
  assert (Hv : has_verdict opt = false).
  { unfold has_verdict, is_ok, is_fail. destruct Hbad as [Ht | [-> ->]]; [| reflexivity].
    destruct (result opt) as [[| c r] |]; try discriminate Ht; reflexivity. }
  assert (Hall : forallb (row_valid true) checklist = false).
  { destruct (forallb (row_valid true) checklist) eqn:Hall; [| reflexivity].
    rewrite forallb_forall in Hall. specialize (Hall opt Hin).
    cbn [row_valid] in Hall. congruence. }
  assert (Hp : forall o, In o (printed (log (print_checklist mode checklist true))) ->
                 has_verdict o = true).
  { rewrite (printed_of_table _ _ _ Hj). intros o Ho.
    apply filter_In in Ho as [Ho _]. apply (valid_prefix_valid true checklist o Ho). }
  split; [| split; [exact Hp | split]].
  - destruct (print_checklist_table mode checklist true Hj) as (_ & _ & _ & _ & _ & _ & Hend).
    apply Hend. exact Hall.
  - intros Ho. apply Hp in Ho. congruence.
  - rewrite (scores_of_table _ _ Hj).
    change (forallb (row_valid true) checklist) with (forallb has_verdict checklist) in Hall.
    rewrite Hall. reflexivity.
Qed.


Lemma json_loop_end (wr : bool) (checklist : list OptCheck) (acc : list jdict) :
  log (@for_each out _ _
         (fun output opt => d <- ([], json_dump opt wr) ;; ret (output ++ [d]))
         checklist acc) = []
  /\ forall output,
       end_ (@for_each out _ _
               (fun output opt => d <- ([], json_dump opt wr) ;; ret (output ++ [d]))
               checklist acc) = Done output ->
       exists ds, output = acc ++ ds
                  /\ Forall2 (fun opt d => json_dump opt wr = Done d) checklist ds.
Proof.
  set (body := fun (output : list jdict) (opt : OptCheck) =>
                 @bind out _ _ ([], json_dump opt wr) (fun d => ret (output ++ [d]))).
  assert (Hbody : forall output opt,
            body output opt
            = ([], match json_dump opt wr with
                   | Done d => Done (output ++ [d])
                   | SysExit e => SysExit e
                   | Raised e => Raised e
                   end)).
  { intros output opt. unfold body. destruct (json_dump opt wr); reflexivity. }
  clearbody body.
  revert acc. induction checklist as [| opt rest IH]; intros acc.
  - split; [reflexivity |]. cbn. intros output [= <-]. exists [].
    split; [symmetry; apply app_nil_r | constructor].
  - cbn [for_each]. rewrite bind_log, bind_end, Hbody. cbn [log end_ fst snd app].
    destruct (json_dump opt wr) as [d | e | e] eqn:Hd.
    + destruct (IH (acc ++ [d])) as [Hlog Hend]. split; [exact Hlog |].
      intros output Hout. destruct (Hend output Hout) as (ds & -> & Hds).
      exists (d :: ds). rewrite <- app_assoc. split; [reflexivity |].
      constructor; assumption.
    + split; [reflexivity | discriminate].
    + split; [reflexivity | discriminate].
Qed.

Lemma print_checklist_json mode (checklist : list OptCheck) wr :
  is_ mode "json" = true ->
  printed (log (print_checklist mode checklist wr)) = []
  /\ scores (log (print_checklist mode checklist wr)) = []
  /\ forall output,
       In (JsonDumps output) (log (print_checklist mode checklist wr)) ->
       Forall2 (fun opt d => json_dump opt wr = Done d) checklist output.
Proof.
  intros Hj. unfold print_checklist. rewrite Hj.
  destruct (json_loop_end wr checklist []) as [Hlog Hend].
  destruct (for_each _ checklist []) as [l [output | e | e]];
    cbn [log end_ fst snd] in Hlog, Hend; subst l;
    cbn [bind emit log fst app].
  - split; [reflexivity |]. split; [reflexivity |].
    intros output' [[= <-] | []].
    destruct (Hend output eq_refl) as (ds & -> & Hds). exact Hds.
  - split; [reflexivity |]. split; [reflexivity |]. intros output' [].
  - split; [reflexivity |]. split; [reflexivity |]. intros output' [].
Qed.


End ReportProps.

Lemma print_checklist_tally_witness :
  scores (log (print_checklist (E := Sample.engine) (Some "show_fail") Sample.evaluated true))
  = [(2, 1)]
  /\ (forall opt,
        In opt (printed (log (print_checklist (E := Sample.engine) (Some "show_fail")
                                Sample.evaluated true))) ->
        is_ok opt = false).
Proof.
  destruct (print_checklist_tally (E := Sample.engine) (Some "show_fail")
              Sample.evaluated eq_refl) as (_ & Hfail & _ & _ & Hall).
  split.
  - destruct Hall as [_ ->]; [repeat constructor | reflexivity].
  - apply Hfail. reflexivity.
Defined.

(** C6, as stated, fails in [json] mode: each check of the checklist is
    printed, in the JSON output, whatever its result, here [MAYBE]; and there
    is no score line. *)
Lemma print_checklist_json_prints_any_result :
  (exists opt, In opt Sample.odd /\ result opt = Some "MAYBE" /\ has_verdict opt = false)
  /\ (exists d1 d2,
        print_checklist (E := Sample.engine) (Some "json") Sample.odd true
        = ([JsonDumps [d1; d2]], Done tt)
        /\ In ("option_name", JStr "nosmt") d2 /\ In ("check_result", JStr "MAYBE") d2)
  /\ scores (log (print_checklist (E := Sample.engine) (Some "json") Sample.odd true)) = [].
Proof.
  split; [| split].
  - eexists. split; [right; left; reflexivity |]. split; reflexivity.
  - eexists _, _. split; [vm_compute; reflexivity |].
    split; vm_compute; tauto.
  - vm_compute. reflexivity.
Qed.

Lemma print_checklist_asserts_witness :
  exists msg,
    end_ (print_checklist (E := Sample.engine) None Sample.unevaluated true)
    = Raised (AssertionError msg).
Proof.
  destruct (print_checklist_asserts (E := Sample.engine) None Sample.unevaluated
              (Sample.mk "nosmt" "cmdline" "")) as [H _].
  - reflexivity.
  - right. left. reflexivity.
  - left. reflexivity.
  - exact H.
Defined.

(** C7, as stated, fails in [json] mode: the result of the check starts with
    neither [OK] nor [FAIL], no assertion fails and the check is printed. *)
Lemma print_checklist_json_no_assertion :
  (exists opt, In opt Sample.odder /\ result opt = Some "N/A"
               /\ startswith "OK" (the (result opt)) = false
               /\ startswith "FAIL" (the (result opt)) = false)
  /\ exists d,
       print_checklist (E := Sample.engine) (Some "json") Sample.odder true
       = ([JsonDumps [d]], Done tt)
       /\ In ("check_result", JStr "N/A") d.
Proof.
  split.
  - eexists. split; [left; reflexivity |]. repeat split.
  - eexists. split; [vm_compute; reflexivity |]. vm_compute. tauto.
Qed.


(** ** The driver, part by part *)

Lemma bind_assoc {L A B C} (m : W L A) (f : A -> W L B) (g : B -> W L C) :
  bind (bind m f) g = bind m (fun x => bind (f x) g).
Proof.
  destruct m as [l [a | e | e]]; cbn [bind]; try reflexivity.
  destruct (f a) as [l' [b | e | e]]; cbn [bind]; try reflexivity.
  destruct (g b) as [l'' r]. rewrite app_assoc. reflexivity.
Qed.

Lemma bind_ext {L A B} (m : W L A) (f g : A -> W L B) :
  (forall a, f a = g a) -> bind m f = bind m g.
Proof.
  intros H. destruct m as [l [a | e | e]]; cbn [bind]; try reflexivity.
  rewrite H. reflexivity.
Qed.

Section DriverProps.

Variable fs : filesystem.
Context {E : Engine}.

Lemma perform_checking_parts mode version kconfig cmdline sysctl :
  perform_checking fs mode version kconfig cmdline sysctl
  = (config_checklist <- driver_build fs mode version kconfig cmdline sysctl ;;
     st <- driver_kconfig fs mode kconfig config_checklist ;;
     driver_report fs mode kconfig cmdline sysctl st).
Proof.
  unfold perform_checking, driver_build.
  repeat (rewrite bind_assoc; apply bind_ext; intros ?).
  reflexivity.
Qed.


(** *** Rules for [stage] *)

Lemma within_weaken lo hi lo' hi' l :
  lo' <= lo -> hi <= hi' -> within lo hi l = true -> within lo' hi' l = true.
Proof.
  revert lo lo'. induction l as [| p l IH]; intros lo lo' Hlo Hhi; [reflexivity |].
  cbn [within]. rewrite !andb_true_iff, !Nat.leb_le. intros [[H1 H2] H3].
  repeat split; try lia. apply (IH p p); [lia | exact Hhi | exact H3].
Qed.

Lemma within_app lo mid hi l1 l2 :
  lo <= mid -> mid <= hi ->
  within lo mid l1 = true -> within mid hi l2 = true -> within lo hi (l1 ++ l2) = true.
Proof.
  revert lo. induction l1 as [| p l1 IH]; intros lo Hlo Hhi H1 H2.
  - apply (within_weaken mid hi); [exact Hlo | lia | exact H2].
  - cbn [app within] in *. rewrite !andb_true_iff, !Nat.leb_le in *.
    destruct H1 as [[Ha Hb] Hc]. repeat split; try lia.
    apply IH; [lia | lia | exact Hc | exact H2].
Qed.

Lemma within_split lo hi l1 p l2 :
  within lo hi (l1 ++ p :: l2) = true ->
  Forall (fun q => q <= p) l1 /\ Forall (fun q => p <= q) l2.
Proof.
  revert lo. induction l1 as [| q l1 IH]; intros lo; cbn [app within];
    rewrite !andb_true_iff, !Nat.leb_le.
  - intros [_ H]. split; [constructor |].
    revert p H. induction l2 as [| q l2 IH2]; intros p H; [constructor |].
    cbn [within] in H. rewrite !andb_true_iff, !Nat.leb_le in H.
    destruct H as [[H1 H2] H3]. constructor; [exact H1 |].
    specialize (IH2 q H3). eapply List.Forall_impl; [| exact IH2].
    cbn. intros; lia.
  - intros [[H1 H2] H3]. destruct (IH q H3) as [Ha Hb]. split; [| exact Hb].
    constructor; [| exact Ha].
    clear -H3. revert q H3. induction l1 as [| r l1 IH]; intros q H3.
    + cbn [app within] in H3. rewrite !andb_true_iff, !Nat.leb_le in H3. lia.
    + cbn [app within] in H3. rewrite !andb_true_iff, !Nat.leb_le in H3.
      destruct H3 as [[H1 H2] H3]. specialize (IH r H3). lia.
Qed.

Lemma phases_app (l1 l2 : list event) : phases (l1 ++ l2) = phases l1 ++ phases l2.
Proof. unfold phases. apply omap_app. Qed.

Lemma phases_out (l : list out) : phases (Out <$> l) = [].
Proof. induction l as [| o l IH]; [reflexivity | exact IH]. Qed.

Lemma phases_text (l : list string) : phases ((fun s => Out (Text s)) <$> l) = [].
Proof. induction l as [| o l IH]; [reflexivity | exact IH]. Qed.

Lemma stage_bind {A B} lo mid hi (m : W event A) (k : A -> W event B) :
  lo <= mid -> mid <= hi ->
  stage lo mid m -> (forall a, stage mid hi (k a)) -> stage lo hi (bind m k).
Proof.
  unfold stage. intros Hlo Hhi Hm Hk. rewrite bind_log, phases_app.
  apply (within_app lo mid hi); try assumption.
  destruct (end_ m); [apply Hk | reflexivity | reflexivity].
Qed.

Lemma stage_quiet {A} lo hi (m : W event A) : phases (log m) = [] -> stage lo hi m.
Proof. unfold stage. intros ->. reflexivity. Qed.

Lemma stage_stdout {A} lo hi (m : W string A) : stage lo hi (stdout m).
Proof. apply stage_quiet. apply phases_text. Qed.

Lemma stage_lift {A} lo hi (m : W out A) : stage lo hi (lift m).
Proof. apply stage_quiet. apply phases_out. Qed.

Lemma stage_call {A} lo hi p (e : event) (r : outcome A) :
  phase e = Some p -> lo <= p -> p <= hi -> stage lo hi (call e r).
Proof.
  unfold stage, call, phases. cbn. intros -> H1 H2. cbn.
  apply Nat.leb_le in H1, H2. rewrite H1, H2. reflexivity.
Qed.

Ltac stage_leaf :=
  first
    [ apply stage_stdout
    | apply stage_lift
    | apply stage_quiet; reflexivity
    | eapply stage_call; [lazy; reflexivity | lia | lia] ].

Ltac stage_mid mid tac :=
  apply (stage_bind _ mid _); [lia | lia | solve [tac] | intros ?].

(** walks through a computation, trying every phase at each [bind] *)
Ltac stage_walk :=
  repeat first
    [ stage_leaf
    | match goal with
      | |- stage _ _ (if ?b then _ else _) => destruct b
      | |- stage _ _ (match ?x with _ => _ end) => destruct x
      | |- stage _ _ (assert_ _ _) => unfold assert_
      | |- stage _ _ (bind _ _) =>
          first [ stage_mid 0 stage_walk | stage_mid 1 stage_walk
                | stage_mid 2 stage_walk | stage_mid 3 stage_walk
                | stage_mid 4 stage_walk | stage_mid 5 stage_walk
                | stage_mid 6 stage_walk | stage_mid 7 stage_walk ]
      end ].

Lemma driver_build_stage mode version kconfig cmdline sysctl :
  stage 0 1 (driver_build fs mode version kconfig cmdline sysctl).
Proof. unfold driver_build. stage_walk. Qed.

Lemma driver_kconfig_stage mode kconfig cl :
  stage 2 3 (driver_kconfig fs mode kconfig cl).
Proof. unfold driver_kconfig. stage_walk. Qed.

Lemma driver_report_stage mode kconfig cmdline sysctl st :
  stage 4 7 (driver_report fs mode kconfig cmdline sysctl st).
Proof. unfold driver_report. destruct st as [cl pk]. stage_walk. Qed.

Lemma perform_checking_stage mode version kconfig cmdline sysctl :
  stage 0 7 (perform_checking fs mode version kconfig cmdline sysctl).
Proof.
  rewrite perform_checking_parts.
  apply (stage_bind 0 1 7); [lia | lia | apply driver_build_stage | intros cl].
  apply (stage_bind 1 3 7); [lia | lia | | intros st].
  - unfold stage. apply (within_weaken 2 3); [lia | lia | apply driver_kconfig_stage].
  - unfold stage. apply (within_weaken 4 7); [lia | lia | apply driver_report_stage].
Qed.


(** *** The population with the Kconfig data *)

Lemma text_quiet (l : list event) : Forall is_text l -> phases l = [].
Proof.
  induction 1 as [| e l He _ IH]; [reflexivity |].
  destruct e as [[] | | | | | | |]; try contradiction. exact IH.
Qed.

Lemma stdout_text {A} (m : W string A) : Forall is_text (log (stdout m)).
Proof.
  unfold stdout, log. cbn [fst]. induction (fst m) as [| s l IH]; constructor.
  - exact I.
  - exact IH.
Qed.

Lemma driver_kconfig_absent mode kconfig cl :
  truthy kconfig = false -> driver_kconfig fs mode kconfig cl = ret (cl, ∅).
Proof. unfold driver_kconfig. intros ->. reflexivity. Qed.

(** what the second part of the driver does, case by case *)
Lemma driver_kconfig_cases mode kconfig cl :
  truthy kconfig = true ->
  kconfig_run cl (end_ (parse_kconfig_file fs mode ∅ (the kconfig)))
    (log (driver_kconfig fs mode kconfig cl))
    (end_ (driver_kconfig fs mode kconfig cl)).
Proof.
  intros Hk. unfold driver_kconfig. rewrite Hk.
  set (P := parse_kconfig_file fs mode ∅ (the kconfig)).
  pose proof (stdout_text P) as Htexts.
  rewrite bind_log, bind_end.
  change (end_ (stdout P)) with (end_ P).
  destruct (end_ P) as [m | e | e] eqn:HP.
  2,3: apply (kconfig_unparsed _ _ _ _ (log (stdout P)));
         [exact I | exact Htexts | apply app_nil_r | exact I].
  rewrite bind_log, bind_end. cbn [call log end_ fst snd].
  change (m !! "CONFIG_ARCH_MMAP_RND_BITS_MAX") with (m !! MMAP_RND_BITS_MAX).
  destruct (populate_with_data cl (Options m) "kconfig") as [cl' | e | e] eqn:Hpop.
  2,3: apply (kconfig_unpopulated _ _ _ _ (log (stdout P)) m);
         [reflexivity | exact Htexts | rewrite Hpop; exact I
         | rewrite app_nil_r; reflexivity | exact I].
  destruct (truthy (m !! MMAP_RND_BITS_MAX)) eqn:Hmax.
  - apply (kconfig_refined _ _ _ _ (log (stdout P)) m cl'); try assumption;
      try reflexivity.
    + rewrite bind_log. cbn [call log end_ fst snd].
      destruct (override_expected_value cl' MMAP_RND_BITS (the (m !! MMAP_RND_BITS_MAX)));
        reflexivity.
    + intros st. rewrite bind_end. cbn [call log end_ fst snd].
      destruct (override_expected_value cl' MMAP_RND_BITS (the (m !! MMAP_RND_BITS_MAX)))
        as [cl'' | e | e]; cbn; intros [= <-]. eauto.
  - destruct (is_not mode "json").
    + eapply (kconfig_removed _ _ _ _ (log (stdout P)) _ m cl'); try assumption;
        try reflexivity.
      apply (stdout_text (print "[-] Can't check CONFIG_ARCH_MMAP_RND_BITS without CONFIG_ARCH_MMAP_RND_BITS_MAX")).
    + apply (kconfig_removed _ _ _ _ (log (stdout P)) [] m cl'); try assumption;
        try reflexivity.
      constructor.
Qed.


(** *** The report says nothing of a check that is not in the checklist *)

Lemma silent_bind {A B} (m : W event A) (k : A -> W event B)
  (Q : A -> Prop) (R : B -> Prop) :
  silent m Q -> (forall a, Q a -> silent (k a) R) -> silent (bind m k) R.
Proof.
  intros [Hl Hq] Hk. unfold silent. rewrite bind_log, bind_end.
  destruct (end_ m) as [a | e | e].
  - destruct (Hk a (Hq a eq_refl)) as [Hl' Hr]. split; [| exact Hr].
    apply Forall_app. split; assumption.
  - rewrite app_nil_r. split; [exact Hl | discriminate].
  - rewrite app_nil_r. split; [exact Hl | discriminate].
Qed.

Lemma text_silent (l : list event) :
  Forall is_text l -> Forall silent_on_mmap_rnd_bits l.
Proof.
  intros H. eapply List.Forall_impl; [| exact H].
  intros [[] | | | | | | |]; cbn; tauto.
Qed.

Lemma silent_stdout {A} (m : W string A) (Q : A -> Prop) :
  (forall a, Q a) -> silent (stdout m) Q.
Proof. intros H. split; [apply text_silent, stdout_text | auto]. Qed.

Lemma silent_ret {A} (a : A) (Q : A -> Prop) : Q a -> silent (ret a) Q.
Proof. intros H. split; [constructor | intros a' [= <-]; exact H]. Qed.

Lemma unnamed_by_names (cl cl' : list OptCheck) :
  name <$> cl' = name <$> cl -> unnamed_mmap_rnd_bits cl -> unnamed_mmap_rnd_bits cl'.
Proof.
  unfold unnamed_mmap_rnd_bits. intros Hn H.
  rewrite List.Forall_forall in *. intros o Ho.
  apply list_elem_of_In, (list_elem_of_fmap_2 name) in Ho. rewrite Hn in Ho.
  apply list_elem_of_fmap in Ho as (o' & -> & Ho').
  apply H. apply list_elem_of_In. exact Ho'.
Qed.

Lemma silent_populate (cl : list OptCheck) d ty :
  keeps_names -> unnamed_mmap_rnd_bits cl ->
  silent (call (Call_populate_with_data cl d ty) (populate_with_data cl d ty))
    unnamed_mmap_rnd_bits.
Proof.
  intros [Hpop _] Hcl. split; [repeat constructor |].
  cbn. intros cl' Hd. apply (unnamed_by_names cl); [eapply Hpop; eauto | exact Hcl].
Qed.

Lemma silent_perform_checks (cl : list OptCheck) :
  keeps_names -> unnamed_mmap_rnd_bits cl ->
  silent (call (Call_perform_checks cl) (perform_checks cl)) unnamed_mmap_rnd_bits.
Proof.
  intros [_ Hperf] Hcl. split; [repeat constructor; exact Hcl |].
  cbn. intros cl' Hd. apply (unnamed_by_names cl); [eapply Hperf; eauto | exact Hcl].
Qed.

Lemma silent_print_checklist mode (cl : list OptCheck) :
  unnamed_mmap_rnd_bits cl ->
  Forall silent_on_mmap_rnd_bits (log (lift (print_checklist mode cl true))).
Proof.
  intros Hcl. unfold lift, log. cbn [fst].
  change (fst (print_checklist mode cl true)) with (log (print_checklist mode cl true)).
  apply List.Forall_forall. intros e He.
  apply list_elem_of_In, list_elem_of_fmap in He as (o & -> & Ho).
  apply list_elem_of_In in Ho.
  destruct (is_ mode "json") eqn:Hj.
  - destruct (print_checklist_json mode cl true Hj) as (Hp & _ & Hd).
    destruct o as [s | opt md wr | output | ok s1 fail s2]; cbn; try exact I.
    + apply in_printed in Ho. rewrite Hp in Ho. destruct Ho.
    + exists cl. split; [exact Hcl | apply Hd, Ho].
  - destruct o as [s | opt md wr | output | ok s1 fail s2]; cbn; try exact I.
    + apply in_printed in Ho. rewrite (printed_of_table _ _ _ Hj) in Ho.
      apply filter_In in Ho as [Ho _].
      pose proof (valid_prefix_sublist true cl) as Hsub.
      apply sublist_subseteq in Hsub.
      unfold unnamed_mmap_rnd_bits in Hcl. rewrite List.Forall_forall in Hcl.
      apply Hcl. apply list_elem_of_In. apply Hsub. apply list_elem_of_In. exact Ho.
    + apply in_dumps in Ho. rewrite (dumps_of_table _ _ _ Hj) in Ho. destruct Ho.
Qed.

Lemma driver_report_silent mode kconfig cmdline sysctl cl pk :
  keeps_names -> unnamed_mmap_rnd_bits cl ->
  Forall silent_on_mmap_rnd_bits (log (driver_report fs mode kconfig cmdline sysctl (cl, pk))).
Proof.
  intros Hk Hcl.
  assert (Hunk : forall (b : bool) cl' d ty,
            silent (if b then
                      bind (call (Call_print_unknown_options cl' d ty) (Done tt))
                        (fun _ => stdout (print_unknown_options cl' d ty))
                    else pass) (fun _ => True)).
  { intros b cl' d ty. destruct b; [| apply silent_ret; exact I].
    apply (silent_bind _ _ (fun _ => True)).
    - split; [repeat constructor | auto].
    - intros _ _. apply silent_stdout. auto. }
  cut (silent (driver_report fs mode kconfig cmdline sysctl (cl, pk)) (fun _ => True)).
  { intros [H _]. exact H. }
  unfold driver_report.
  apply (silent_bind _ _ (fun st => unnamed_mmap_rnd_bits (fst st))).
  { destruct (truthy cmdline); [| apply silent_ret; exact Hcl].
    apply (silent_bind _ _ (fun _ => True)); [apply silent_stdout; auto |].
    intros pc _.
    apply (silent_bind _ _ unnamed_mmap_rnd_bits); [apply silent_populate; assumption |].
    intros cl1 H1. apply silent_ret. exact H1. }
  intros [cl1 pc] H1. cbn [fst] in H1.
  apply (silent_bind _ _ (fun st => unnamed_mmap_rnd_bits (fst st))).
  { destruct (truthy sysctl); [| apply silent_ret; exact H1].
    apply (silent_bind _ _ (fun _ => True)); [apply silent_stdout; auto |].
    intros ps _.
    apply (silent_bind _ _ unnamed_mmap_rnd_bits); [apply silent_populate; assumption |].
    intros cl2 H2. apply silent_ret. exact H2. }
  intros [cl2 ps] H2. cbn [fst] in H2.
  apply (silent_bind _ _ unnamed_mmap_rnd_bits); [apply silent_perform_checks; assumption |].
  intros cl3 H3.
  apply (silent_bind _ _ (fun _ => True)).
  { destruct (is_ mode "verbose"); [| apply silent_ret; exact I].
    apply (silent_bind _ _ (fun _ => True)); [apply Hunk |]. intros _ _.
    apply (silent_bind _ _ (fun _ => True)); [apply Hunk |]. intros _ _.
    apply Hunk. }
  intros _ _.
  apply (silent_bind _ _ (fun _ => True)).
  { split; [apply silent_print_checklist; exact H3 | auto]. }
  intros _ _. split; [constructor | discriminate].
Qed.


(** *** The whole run *)

Lemma split_unique {A} (P : A -> Prop) (a : list A) x b a' x' b' :
  a ++ x :: b = a' ++ x' :: b' ->
  P x -> Forall (fun y => ~ P y) a' -> Forall (fun y => ~ P y) b' ->
  a = a' /\ x = x' /\ b = b'.
Proof.
  intros Heq Hx Ha' Hb'. revert a Heq.
  induction Ha' as [| y' a' Hy' _ IH]; intros a Heq.
  - destruct a as [| y a]; cbn [app] in Heq.
    + injection Heq as -> ->. auto.
    + injection Heq as -> <-. rewrite List.Forall_forall in Hb'.
      destruct (Hb' x); [apply in_elt | exact Hx].
  - destruct a as [| y a]; cbn [app] in Heq.
    + injection Heq as -> _. contradiction.
    + injection Heq as -> Heq. destruct (IH a Heq) as (-> & -> & ->). auto.
Qed.

Lemma in_phases (l : list event) e p : In e l -> phase e = Some p -> In p (phases l).
Proof.
  intros Hin Hp. unfold phases. apply list_elem_of_In, list_elem_of_omap.
  exists e. split; [apply list_elem_of_In, Hin | exact Hp].
Qed.

Lemma within_bounds lo hi l : within lo hi l = true -> Forall (fun p => lo <= p <= hi) l.
Proof.
  revert lo. induction l as [| p l IH]; intros lo; [constructor |].
  cbn [within]. rewrite !andb_true_iff, !Nat.leb_le. intros [[H1 H2] H3].
  constructor; [lia |]. eapply List.Forall_impl; [| apply (IH p H3)].
  cbn. intros; lia.
Qed.

Lemma stage_bounds {A} lo hi (m : W event A) e p :
  stage lo hi m -> In e (log m) -> phase e = Some p -> lo <= p <= hi.
Proof.
  intros Hs Hin Hp. apply within_bounds in Hs. rewrite List.Forall_forall in Hs.
  apply Hs. eapply in_phases; eassumption.
Qed.

(** no call of phase [p] in a log whose calls are in phases [lo] to [hi] *)
Lemma stage_without {A} lo hi p (m : W event A) :
  stage lo hi m -> p < lo \/ hi < p -> Forall (fun e => phase e <> Some p) (log m).
Proof.
  intros Hs Hp. apply List.Forall_forall. intros e Hin He.
  pose proof (stage_bounds _ _ _ _ _ Hs Hin He). lia.
Qed.

Lemma text_without p (l : list event) :
  Forall is_text l -> Forall (fun e => phase e <> Some p) l.
Proof.
  intros H. eapply List.Forall_impl; [| exact H].
  intros [[] | | | | | | |]; cbn; try tauto. discriminate.
Qed.

Lemma perform_checking_log mode version kconfig cmdline sysctl :
  log (perform_checking fs mode version kconfig cmdline sysctl)
  = log (driver_build fs mode version kconfig cmdline sysctl)
    ++ match end_ (driver_build fs mode version kconfig cmdline sysctl) with
       | Done cl =>
           log (driver_kconfig fs mode kconfig cl)
           ++ match end_ (driver_kconfig fs mode kconfig cl) with
              | Done st => log (driver_report fs mode kconfig cmdline sysctl st)
              | _ => []
              end
       | _ => []
       end.
Proof.
  rewrite perform_checking_parts, bind_log.
  destruct (end_ (driver_build fs mode version kconfig cmdline sysctl)); try reflexivity.
  rewrite bind_log. reflexivity.
Qed.

Lemma perform_checking_shape mode version kconfig cmdline sysctl :
  run_shape (end_ (parse_kconfig_file fs mode ∅ (the kconfig)))
    (log (perform_checking fs mode version kconfig cmdline sysctl)).
Proof.
  rewrite perform_checking_log.
  pose proof (driver_build_stage mode version kconfig cmdline sysctl) as HB.
  assert (HB2 := stage_without 0 1 2 _ HB ltac:(lia)).
  assert (HB3 := stage_without 0 1 3 _ HB ltac:(lia)).
  set (B := log (driver_build fs mode version kconfig cmdline sysctl)) in *.
  destruct (end_ (driver_build fs mode version kconfig cmdline sysctl)) as [cl | e | e].
  2,3: rewrite app_nil_r; apply run_without; assumption.
  assert (HR2 := fun st => stage_without 4 7 2 _
                   (driver_report_stage mode kconfig cmdline sysctl st) ltac:(lia)).
  assert (HR3 := fun st => stage_without 4 7 3 _
                   (driver_report_stage mode kconfig cmdline sysctl st) ltac:(lia)).
  destruct (truthy kconfig) eqn:Hk.
  - assert (Hbefore : forall p texts, Forall (fun e => phase e <> Some p) B ->
              Forall is_text texts -> Forall (fun e => phase e <> Some p) (B ++ texts)).
    { intros p texts H1 H2. apply Forall_app. split; [exact H1 | apply text_without, H2]. }
    destruct (driver_kconfig_cases mode kconfig cl Hk)
      as [texts Hp Ht -> Hr | texts m Hp Ht Hpop -> Hr
          | texts m cl' Hp Ht Hpop Hmax -> Hr | texts texts' m cl' Hp Ht Ht' Hpop Hmax -> ->].
    + destruct (end_ (driver_kconfig fs mode kconfig cl)); [destruct Hr | |];
        rewrite app_nil_r; apply run_without; auto.
    + destruct (end_ (driver_kconfig fs mode kconfig cl)); [destruct Hr | |];
        rewrite app_nil_r, app_assoc;
        apply (run_unpopulated _ _ (B ++ texts) cl m); auto.
    + rewrite <- app_assoc, app_assoc. cbn [app].
      apply (run_refined _ _ (B ++ texts) cl m cl'
               (match end_ (driver_kconfig fs mode kconfig cl) with
                | Done st => log (driver_report fs mode kconfig cmdline sysctl st)
                | _ => []
                end)); auto.
      * destruct (end_ (driver_kconfig fs mode kconfig cl)); [apply HR2 | constructor ..].
      * destruct (end_ (driver_kconfig fs mode kconfig cl)); [apply HR3 | constructor ..].
    + rewrite <- app_assoc, app_assoc. cbn [app].
      apply (run_removed _ _ (B ++ texts) cl m cl'
               (texts' ++ log (driver_report fs mode kconfig cmdline sysctl
                                 (remove_mmap_rnd_bits cl', m)))); auto.
      * apply Forall_app; (split; [apply text_without, Ht' | apply HR2]).
      * apply Forall_app; (split; [apply text_without, Ht' | apply HR3]).
      * intros Hkeep. apply Forall_app. split; [apply text_silent, Ht' |].
        apply driver_report_silent; [exact Hkeep |].
        apply List.Forall_forall. intros o Ho.
        apply filter_In in Ho as [_ Ho]. apply negb_true_iff, String.eqb_neq in Ho.
        exact Ho.
  - rewrite (driver_kconfig_absent _ _ _ Hk). cbn [ret log end_ fst snd app].
    apply run_without; apply Forall_app; split; auto.
Qed.


Lemma override_phase e : is_override e = true -> phase e = Some 3.
Proof. destruct e; cbn; congruence. Qed.

Lemma not_override e : phase e <> Some 3 -> is_override e = false.
Proof. destruct e; cbn; congruence. Qed.

Lemma populate_phase e ty p :
  is_populate ty e = true ->
  phase (Call_populate_with_data [] (Version []) ty) = Some p ->
  phase e = Some p.
Proof.
  destruct e; cbn; try congruence. intros H. apply String.eqb_eq in H as ->. auto.
Qed.

Lemma perform_checks_phase e : is_perform_checks e = true -> phase e = Some 6.
Proof. destruct e; cbn; congruence. Qed.

(** C1: in every run of [perform_checking], the population with the Kconfig
    data is called with the mapping [parse_kconfig_file] returned.  When that
    call returns and the mapping has a non-empty value for
    [CONFIG_ARCH_MMAP_RND_BITS_MAX], the next thing the driver does is to call
    [override_expected_value] for [CONFIG_ARCH_MMAP_RND_BITS] with that value.
    Otherwise no override is called, and, the engine keeping the names of the
    checks, every later evaluation is of a checklist without a check of that
    name, and no row of the table and no entry of the JSON output is for one. *)
Theorem perform_checking_refines_mmap_rnd_bits mode version kconfig cmdline sysctl
  (pre : list event) (cl : list OptCheck) (m : gmap string string) (post : list event) :
  log (perform_checking fs mode version kconfig cmdline sysctl)
  = pre ++ Call_populate_with_data cl (Options m) "kconfig" :: post ->
  end_ (parse_kconfig_file fs mode ∅ (the kconfig)) = Done m
  /\ forall cl',
       populate_with_data cl (Options m) "kconfig" = Done cl' ->
       (truthy (m !! MMAP_RND_BITS_MAX) = true ->
        exists post',
          post = Call_override_expected_value cl' MMAP_RND_BITS
                   (the (m !! MMAP_RND_BITS_MAX)) :: post')
       /\ (truthy (m !! MMAP_RND_BITS_MAX) = false ->
           Forall (fun e => is_override e = false) post
           /\ (keeps_names -> Forall silent_on_mmap_rnd_bits post)).
Proof.
  intros Hlog.
  assert (H2 : phase (Call_populate_with_data cl (Options m) "kconfig") = Some 2)
    by reflexivity.
  destruct (perform_checking_shape mode version kconfig cmdline sysctl)
    as [Hno _ | before cl0 m0 Hp Hb2 _ Hpop Hl
        | before cl0 m0 cl0' rest Hp Hb2 _ Hpop Hmax Hr2 _ Hl
        | before cl0 m0 cl0' rest Hp Hb2 _ Hpop Hmax Hr2 Hr3 Hsil Hl].
  - rewrite Hlog in Hno. apply Forall_app in Hno as [_ Hno].
    apply Forall_cons in Hno as [Hno _]. contradiction.
  - rewrite Hlog in Hl.
    apply (split_unique (fun e => phase e = Some 2)) in Hl
      as (_ & [= -> ->] & ->); [| exact H2 | exact Hb2 | constructor].
    split; [exact Hp |]. intros cl' Hd. rewrite Hd in Hpop. destruct Hpop.
  - rewrite Hlog in Hl.
    apply (split_unique (fun e => phase e = Some 2)) in Hl
      as (_ & [= -> ->] & ->); [| exact H2 | exact Hb2 |].
    2: { constructor; [discriminate | exact Hr2]. }
    split; [exact Hp |]. intros cl' Hd. rewrite Hd in Hpop. injection Hpop as ->.
    split; [eauto | congruence].
  - rewrite Hlog in Hl.
    apply (split_unique (fun e => phase e = Some 2)) in Hl
      as (_ & [= -> ->] & ->); [| exact H2 | exact Hb2 | exact Hr2].
    split; [exact Hp |]. intros cl' Hd. rewrite Hd in Hpop. injection Hpop as ->.
    split; [congruence |]. intros _. split; [| exact Hsil].
    eapply List.Forall_impl; [| exact Hr3]. apply not_override.
Qed.

(** C2, as amended: in every run of [perform_checking], a call of
    [override_expected_value] comes right after the population with the
    Kconfig data; no population with the version or the Kconfig data and no
    other override comes after it; and the evaluation and the populations
    with the cmdline and the sysctl data do not come before it. *)
Theorem override_follows_kconfig_population mode version kconfig cmdline sysctl
  (pre : list event) (e : event) (post : list event) :
  log (perform_checking fs mode version kconfig cmdline sysctl) = pre ++ e :: post ->
  is_override e = true ->
  (exists pre' cl m, pre = pre' ++ [Call_populate_with_data cl (Options m) "kconfig"])
  /\ Forall (fun e' => is_populate "version" e' = false
                       /\ is_populate "kconfig" e' = false
                       /\ is_override e' = false) post
  /\ Forall (fun e' => is_perform_checks e' = false
                       /\ is_populate "cmdline" e' = false
                       /\ is_populate "sysctl" e' = false) pre.
Proof.
  intros Hlog He. apply override_phase in He.
  pose proof (perform_checking_stage mode version kconfig cmdline sysctl) as Hst.
  unfold stage in Hst. rewrite Hlog, phases_app in Hst.
  cbn [phases omap list_omap] in Hst. rewrite He in Hst. fold (phases post) in Hst.
  apply within_split in Hst as [Hpre Hpost].
  assert (Hpre' : forall e' p, In e' pre -> phase e' = Some p -> p <= 3).
  { intros e' p Hin Hp. rewrite List.Forall_forall in Hpre. apply Hpre.
    eapply in_phases; eassumption. }
  assert (Hpost' : forall e' p, In e' post -> phase e' = Some p -> 3 <= p).
  { intros e' p Hin Hp. rewrite List.Forall_forall in Hpost. apply Hpost.
    eapply in_phases; eassumption. }
  assert (Hno : forall (b : bool), (b = true -> False) -> b = false).
  { intros []; [intros H; destruct H; reflexivity | reflexivity]. }
  destruct (perform_checking_shape mode version kconfig cmdline sysctl)
    as [_ Hno3 | before cl0 m0 _ _ Hb3 _ Hl
        | before cl0 m0 cl0' rest _ Hb2 Hb3 _ _ Hr2 Hr3 Hl
        | before cl0 m0 cl0' rest _ _ Hb3 _ _ _ Hr3 _ Hl].
  - rewrite Hlog in Hno3. apply Forall_app in Hno3 as [_ Hno3].
    apply Forall_cons in Hno3 as [Hno3 _]. contradiction.
  - rewrite Hlog in Hl.
    assert (Hall : Forall (fun e => phase e <> Some 3)
                     (before ++ [Call_populate_with_data cl0 (Options m0) "kconfig"])).
    { apply Forall_app. split; [exact Hb3 |]. repeat constructor. discriminate. }
    rewrite <- Hl in Hall. apply Forall_app in Hall as [_ Hall].
    apply Forall_cons in Hall as [Hall _]. contradiction.
  - rewrite Hlog in Hl.
    change (before ++ Call_populate_with_data cl0 (Options m0) "kconfig"
              :: Call_override_expected_value cl0' MMAP_RND_BITS (the (m0 !! MMAP_RND_BITS_MAX))
              :: rest)
      with (before ++ [Call_populate_with_data cl0 (Options m0) "kconfig"]
              ++ Call_override_expected_value cl0' MMAP_RND_BITS (the (m0 !! MMAP_RND_BITS_MAX))
              :: rest) in Hl.
    rewrite app_assoc in Hl.
    apply (split_unique (fun e => phase e = Some 3)) in Hl
      as (-> & -> & ->); [| exact He | | exact Hr3].
    2: { apply Forall_app. split; [exact Hb3 |]. repeat constructor. discriminate. }
    split; [eauto |]. split.
    + apply List.Forall_forall. intros e' Hin. repeat split; apply Hno; intros Ht.
      * pose proof (Hpost' e' 1 Hin (populate_phase _ _ _ Ht eq_refl)). lia.
      * pose proof (Hpost' e' 2 Hin (populate_phase _ _ _ Ht eq_refl)). lia.
      * rewrite List.Forall_forall in Hr3. apply (Hr3 e' Hin).
        apply override_phase, Ht.
    + apply List.Forall_forall. intros e' Hin. repeat split; apply Hno; intros Ht.
      * pose proof (Hpre' e' 6 Hin (perform_checks_phase _ Ht)). lia.
      * pose proof (Hpre' e' 4 Hin (populate_phase _ _ _ Ht eq_refl)). lia.
      * pose proof (Hpre' e' 5 Hin (populate_phase _ _ _ Ht eq_refl)). lia.
  - rewrite Hlog in Hl.
    assert (Hall : Forall (fun e => phase e <> Some 3)
                     (before ++ Call_populate_with_data cl0 (Options m0) "kconfig" :: rest)).
    { apply Forall_app. split; [exact Hb3 |]. constructor; [discriminate | exact Hr3]. }
    rewrite <- Hl in Hall. apply Forall_app in Hall as [_ Hall].
    apply Forall_cons in Hall as [Hall _]. contradiction.
Qed.

End DriverProps.

Lemma sample_keeps_names : keeps_names (E := Sample.engine).
Proof.
  split.
  - intros cl d ty cl' [= <-]. induction cl as [| c cl IH]; [reflexivity |].
    cbn [map fmap list_fmap] in *. f_equal; [| exact IH].
    unfold Sample.record. destruct (String.eqb (opt_type c) ty); [| reflexivity].
    destruct d; reflexivity.
  - intros cl cl' [= <-]. induction cl as [| c cl IH]; [reflexivity |].
    cbn [map fmap list_fmap] in *. f_equal; [| exact IH].
    unfold Sample.resolve. destruct (state c) as [v |]; [| reflexivity].
    destruct (String.eqb v (expected c)); reflexivity.
Qed.

Lemma perform_checking_refines_mmap_rnd_bits_witness :
  (exists cl' post',
     skipn 2 (log (perform_checking (E := Sample.engine) Sample.fs (Some "json") None
                     (Some "config-min") None None))
     = Call_override_expected_value cl' MMAP_RND_BITS "32" :: post')
  /\ Forall (silent_on_mmap_rnd_bits (E := Sample.engine))
        (skipn 2 (log (perform_checking (E := Sample.engine) Sample.fs (Some "json") None
                         (Some "config-min-nomax") None None))).
Proof.
  split.
  - destruct (perform_checking_refines_mmap_rnd_bits (E := Sample.engine) Sample.fs
                (Some "json") None (Some "config-min") None None
                [Call_add_kconfig_checks [] "X86_64"] Sample.kconfig_checks
                Sample.min_options
                (skipn 2 (log (perform_checking (E := Sample.engine) Sample.fs
                                 (Some "json") None (Some "config-min") None None))))
      as [_ Hnext].
    { vm_compute. reflexivity. }
    destruct (Hnext (map (Sample.record (Options Sample.min_options) "kconfig")
                       Sample.kconfig_checks) eq_refl) as [Hyes _].
    destruct Hyes as [post' Hpost]; [vm_compute; reflexivity |].
    eexists _, post'. exact Hpost.
  - destruct (perform_checking_refines_mmap_rnd_bits (E := Sample.engine) Sample.fs
                (Some "json") None (Some "config-min-nomax") None None
                [Call_add_kconfig_checks [] "X86_64"] Sample.kconfig_checks
                Sample.min_nomax_options
                (skipn 2 (log (perform_checking (E := Sample.engine) Sample.fs
                                 (Some "json") None (Some "config-min-nomax") None None))))
      as [_ Hnext].
    { vm_compute. reflexivity. }
    destruct (Hnext (map (Sample.record (Options Sample.min_nomax_options) "kconfig")
                       Sample.kconfig_checks) eq_refl) as [_ Hno].
    destruct Hno as [_ Hsilent]; [vm_compute; reflexivity |].
    apply Hsilent, sample_keeps_names.
Defined.

Lemma override_follows_kconfig_population_witness :
  exists pre' cl m,
    [Call_add_kconfig_checks [] "X86_64";
     Call_populate_with_data Sample.kconfig_checks (Options Sample.min_options) "kconfig"]
    = pre' ++ [Call_populate_with_data cl (Options m) "kconfig"].
Proof.
  destruct (override_follows_kconfig_population (E := Sample.engine) Sample.fs
              (Some "json") None (Some "config-min") None None
              [Call_add_kconfig_checks [] "X86_64";
               Call_populate_with_data Sample.kconfig_checks
                 (Options Sample.min_options) "kconfig"]
              (Call_override_expected_value
                 (map (Sample.record (Options Sample.min_options) "kconfig")
                    Sample.kconfig_checks) MMAP_RND_BITS "32")
              (skipn 3 (log (perform_checking (E := Sample.engine) Sample.fs
                               (Some "json") None (Some "config-min") None None))))
    as [Hpre _].
  - vm_compute. reflexivity.
  - reflexivity.
  - exact Hpre.
Defined.

(** C2, as stated, fails when a cmdline or a sysctl file is given with the
    Kconfig file: the override is the eighth thing the driver does, and the
    populations with the cmdline and the sysctl data are the ninth and the
    tenth. *)
Lemma populations_after_override :
  (fun l => (is_override <$> l !! 7, is_populate "cmdline" <$> l !! 8,
             is_populate "sysctl" <$> l !! 9, is_perform_checks <$> l !! 10))
    (log (perform_checking (E := Sample.engine) Sample.fs None (Some [6; 1; 0]%N)
            (Some "config") (Some "cmdline") (Some "sysctl")))
  = (Some true, Some true, Some true, Some true).
Proof. vm_compute. reflexivity. Qed.

(** * Further properties *)

(** ** [detect_arch_sysctl] *)

Lemma lit_k_spec (l : string) pos s caps (k : cont) :
  lit_k l pos s caps k
  = if startswith l s
    then k (pos + String.length l) (slice_from (String.length l) s) caps
    else None.
Proof.
  revert pos s. induction l as [| a l IH]; intros pos s.
  - cbn. rewrite Nat.add_0_r. reflexivity.
  - destruct s as [| b s]; cbn [lit_k startswith String.length slice_from]; [reflexivity |].
    destruct (Ascii.eqb a b); cbn [andb]; [| reflexivity].
    rewrite IH. replace (S pos + String.length l) with (pos + S (String.length l)) by lia.
    reflexivity.
Qed.

(** a pattern that begins with [^] matches at the start of the subject or
    nowhere *)
Lemma search_from_bol (r : regex) (pos : nat) (s : string) :
  search_from (Seq Bol r) (S pos) s = None.
Proof.
  revert pos. induction s as [| a s IH]; intros pos; cbn [search_from rmatch Nat.eqb].
  - reflexivity.
  - apply IH.
Qed.

Lemma search_bol (r : regex) (s : string) :
  matched (search (Seq Bol r) s) = matched (rmatch r 0 s [] accept).
Proof.
  unfold search. destruct s as [| a s]; cbn [search_from rmatch Nat.eqb].
  - destruct (rmatch r 0 "" [] accept); reflexivity.
  - destruct (rmatch r 0 (String a s) [] accept); [reflexivity |].
    rewrite search_from_bol. reflexivity.
Qed.

Lemma search_arm64 (pos : nat) (s : string) :
  matched (search_from (Alt (cat [Bol; Lit "aarch64"]) (Lit "armv8")) pos s)
  = (Nat.eqb pos 0 && startswith "aarch64" s) || has_substring "armv8" s.
Proof.
  revert pos. induction s as [| a s IH]; intros pos.
  - cbn [search_from rmatch cat foldr]. destruct (Nat.eqb pos 0); reflexivity.
  - cbn [search_from]. cbn [rmatch cat foldr].
    rewrite !lit_k_spec. cbn [has_substring].
    destruct (Nat.eqb pos 0); cbn [andb orb].
    + destruct (startswith "aarch64" (String a s)); [reflexivity |].
      cbn [orb]. destruct (startswith "armv8" (String a s)); [reflexivity |].
      cbn [orb]. rewrite IH. reflexivity.
    + destruct (startswith "armv8" (String a s)); [reflexivity |].
      cbn [orb]. rewrite IH. reflexivity.
Qed.

Lemma search_arm (p : ascii -> bool) (s : string) :
  matched (search (cat [Bol; Lit "armv"; Chr p]) s)
  = startswith "armv" s
    && match char_at 4 s with Some c => p c | None => false end.
Proof.
  cbn [cat foldr]. rewrite search_bol. cbn [rmatch]. rewrite lit_k_spec.
  destruct (startswith "armv" s); [| reflexivity].
  unfold char_at. cbn [String.length andb].
  destruct (slice_from 4 s) as [| c rest]; [reflexivity |].
  destruct (p c); reflexivity.
Qed.

Lemma lit_end_matched (l : string) pos s :
  matched (rmatch (Seq (Lit l) (Lit "")) pos s [] accept) = startswith l s.
Proof.
  cbn [rmatch]. rewrite lit_k_spec. destruct (startswith l s); reflexivity.
Qed.

Lemma opt_lit_matched (p : ascii -> bool) (l : string) pos s :
  matched (rmatch (Seq (Opt p) (Seq (Lit l) (Lit ""))) pos s [] accept)
  = match s with
    | String c s' => p c && startswith l s'
    | EmptyString => false
    end
    || startswith l s.
Proof.
  pose proof (lit_end_matched l) as Hl.
  change (rmatch (Seq (Opt p) (Seq (Lit l) (Lit ""))) pos s [] accept)
    with (match s with
          | String c s' =>
              if p c then
                match rmatch (Seq (Lit l) (Lit "")) (S pos) s' [] accept with
                | Some r => Some r
                | None => rmatch (Seq (Lit l) (Lit "")) pos s [] accept
                end
              else rmatch (Seq (Lit l) (Lit "")) pos s [] accept
          | EmptyString => rmatch (Seq (Lit l) (Lit "")) pos s [] accept
          end).
  destruct s as [| c s']; [apply Hl |].
  destruct (p c); cbn [andb orb]; [| apply Hl].
  rewrite <- (Hl (S pos) s'), <- (Hl pos (String c s')).
  destruct (rmatch (Seq (Lit l) (Lit "")) (S pos) s' [] accept); reflexivity.
Qed.

Lemma search_x86_32 (p : ascii -> bool) (s : string) :
  matched (search (cat [Bol; Lit "i"; Opt p; Lit "86"]) s)
  = startswith "i86" s
    || (startswith "i" s
        && match char_at 1 s with Some c => p c | None => false end
        && startswith "86" (slice_from 2 s)).
Proof.
  cbn [cat foldr]. rewrite search_bol.
  change (rmatch (Seq (Lit "i") (Seq (Opt p) (Seq (Lit "86") (Lit "")))) 0 s [] accept)
    with (lit_k "i" 0 s []
            (fun pos' s' caps' =>
               rmatch (Seq (Opt p) (Seq (Lit "86") (Lit ""))) pos' s' caps' accept)).
  rewrite lit_k_spec. destruct s as [| x s]; [reflexivity |].
  change (startswith "i86" (String x s)) with (Ascii.eqb "i" x && startswith "86" s).
  change (startswith "i" (String x s)) with (Ascii.eqb "i" x && true).
  change (slice_from (String.length "i") (String x s)) with s.
  change (slice_from 2 (String x s)) with (slice_from 1 s).
  change (char_at 1 (String x s)) with (char_at 0 s).
  destruct (Ascii.eqb "i" x); cbn [andb orb]; [| reflexivity].
  rewrite opt_lit_matched. unfold char_at.
  destruct s as [| c s']; cbn [slice_from]; [reflexivity |].
  apply orb_comm.
Qed.

Lemma search_x86_64 (s : string) :
  matched (search (cat [Bol; Lit "x86_64"]) s) = startswith "x86_64" s.
Proof.
  cbn [cat foldr]. rewrite search_bol. cbn [rmatch]. rewrite lit_k_spec.
  destruct (startswith "x86_64" s); reflexivity.
Qed.

Lemma detect_arch_sysctl_value_spec (value : string) :
  detect_arch_sysctl_value value arch_mapping
  = ret (match arch_of_value value with
         | Some arch => (Some arch, value)
         | None => (None, value +:+ " is an unsupported arch")
         end).
Proof.
  unfold arch_mapping, arch_of_value. cbn [detect_arch_sysctl_value].
  change (in_list "ARM64" SUPPORTED_ARCHS) with true.
  change (in_list "ARM" SUPPORTED_ARCHS) with true.
  change (in_list "X86_32" SUPPORTED_ARCHS) with true.
  change (in_list "X86_64" SUPPORTED_ARCHS) with true.
  cbn [assert_]. rewrite !bind_ret_l.
  unfold search at 1. rewrite search_arm64, search_arm, search_x86_32, search_x86_64.
  cbn [Nat.eqb andb].
  destruct (startswith "aarch64" value || has_substring "armv8" value); [reflexivity |].
  destruct (startswith "armv" value && _); [reflexivity |].
  destruct (startswith "i86" value || _); [reflexivity |].
  destruct (startswith "x86_64" value); reflexivity.
Qed.

Lemma arch_of_value_supported (value arch : string) :
  arch_of_value value = Some arch -> In arch SUPPORTED_ARCHS.
Proof.
  unfold arch_of_value, SUPPORTED_ARCHS.
  destruct (startswith "aarch64" value || has_substring "armv8" value);
    [intros [= <-]; cbn; tauto |].
  destruct (startswith "armv" value && _); [intros [= <-]; cbn; tauto |].
  destruct (startswith "i86" value || _); [intros [= <-]; cbn; tauto |].
  destruct (startswith "x86_64" value); [intros [= <-]; cbn; tauto | discriminate].
Qed.

Lemma detect_arch_sysctl_lines_none (lines : list string) :
  Forall (fun l => is_arch_line l = false) lines ->
  detect_arch_sysctl_lines lines
  = ret (None, "failed to detect microarchitecture in sysctl").
Proof.
  induction 1 as [| line rest Hline _ IH]; [reflexivity |].
  cbn [detect_arch_sysctl_lines]. unfold is_arch_line in Hline. rewrite Hline. exact IH.
Qed.

Lemma detect_arch_sysctl_line (line : string) :
  (v <- @index string (split1 "=" line) 1 ;;
   detect_arch_sysctl_value (strip v) arch_mapping)
  = if contains "=" line then
      ret (match arch_of_value (arch_line_value line) with
           | Some arch => (Some arch, arch_line_value line)
           | None => (None, arch_line_value line +:+ " is an unsupported arch")
           end)
    else raise IndexError.
Proof.
  unfold arch_line_value. destruct (contains "=" line) eqn:Hc.
  - destruct (split1_present _ _ Hc) as (a & b & -> & _ & _).
    cbn [index nth_error nth]. rewrite bind_ret_l. apply detect_arch_sysctl_value_spec.
  - rewrite (split1_absent _ _ Hc). reflexivity.
Qed.

Lemma detect_arch_sysctl_lines_first (pre : list string) (line : string)
  (post : list string) :
  Forall (fun l => is_arch_line l = false) pre ->
  is_arch_line line = true ->
  detect_arch_sysctl_lines (pre ++ line :: post)
  = if contains "=" line then
      ret (match arch_of_value (arch_line_value line) with
           | Some arch => (Some arch, arch_line_value line)
           | None => (None, arch_line_value line +:+ " is an unsupported arch")
           end)
    else raise IndexError.
Proof.
  intros Hpre Hline. induction Hpre as [| l pre Hl _ IH].
  - cbn [app detect_arch_sysctl_lines]. unfold is_arch_line in Hline. rewrite Hline.
    apply detect_arch_sysctl_line.
  - cbn [app detect_arch_sysctl_lines]. unfold is_arch_line in Hl. rewrite Hl. exact IH.
Qed.

(** X1: [detect_arch_sysctl] looks at the first line of the file that starts
    with [kernel.arch] and at no other.  Without such a line it returns
    [None] and 'failed to detect microarchitecture in sysctl'.  When that
    line has no [=], taking the text after it raises [IndexError].
    Otherwise the stripped text after the first [=] is the value: the first
    pattern of the mapping that is found in it gives the architecture, which
    is returned with the value; a value none of them is found in gives
    [None] and '<value> is an unsupported arch'. *)
Theorem detect_arch_sysctl_first_line (fs : filesystem) (fname : string) (f : file) :
  fs fname = Some f ->
  (Forall (fun l => is_arch_line l = false) (readlines (text f)) ->
   detect_arch_sysctl fs fname
   = ([], Done (None, "failed to detect microarchitecture in sysctl")))
  /\ (forall pre line post,
        readlines (text f) = pre ++ line :: post ->
        Forall (fun l => is_arch_line l = false) pre ->
        is_arch_line line = true ->
        (contains "=" line = false ->
         detect_arch_sysctl fs fname = ([], Raised IndexError))
        /\ (contains "=" line = true ->
            detect_arch_sysctl fs fname
            = ([], Done (match arch_of_value (arch_line_value line) with
                         | Some arch => (Some arch, arch_line_value line)
                         | None => (None, arch_line_value line +:+ " is an unsupported arch")
                         end)))).
Proof.
  intros Hf. unfold detect_arch_sysctl. rewrite (open_found _ _ _ Hf), bind_ret_l.
  split; [apply detect_arch_sysctl_lines_none |].
  intros pre line post -> Hpre Hline.
  rewrite (detect_arch_sysctl_lines_first _ _ _ Hpre Hline).
  split; intros ->; reflexivity.
Qed.

Lemma detect_arch_sysctl_first_line_witness :
  detect_arch_sysctl Sample.fs "sysctl" = ([], Done (Some "X86_64", "x86_64")).
Proof.
  pose proof (detect_arch_sysctl_first_line Sample.fs "sysctl"
                (Sample.plain Sample.sysctl_text) eq_refl) as [_ H].
  destruct (H [] ("kernel.arch = x86_64" +:+ NL) (skipn 1 (readlines Sample.sysctl_text)))
    as [_ H'].
  - vm_compute. reflexivity.
  - constructor.
  - vm_compute. reflexivity.
  - rewrite H' by (vm_compute; reflexivity). vm_compute. reflexivity.
Defined.

Lemma detect_arch_sysctl_lines_cases (lines : list string) :
  detect_arch_sysctl_lines lines = ([], Raised IndexError)
  \/ (exists msg, detect_arch_sysctl_lines lines = ([], Done (None, msg)))
  \/ (exists arch value,
        detect_arch_sysctl_lines lines = ([], Done (Some arch, value))
        /\ arch_of_value value = Some arch).
Proof.
  induction lines as [| line rest IH].
  - right. left. eexists. reflexivity.
  - cbn [detect_arch_sysctl_lines]. destruct (startswith "kernel.arch" line); [| exact IH].
    rewrite detect_arch_sysctl_line. destruct (contains "=" line); [| left; reflexivity].
    right. destruct (arch_of_value (arch_line_value line)) as [arch |] eqn:Ha.
    + right. exists arch, (arch_line_value line). split; [reflexivity | exact Ha].
    + left. eexists. reflexivity.
Qed.

(** X2: whatever the file, [detect_arch_sysctl] writes nothing, and the
    assertion on its mapping never fails: it ends with the exit of a missing
    file, with the [IndexError] of an architecture line without [=], or with
    a result; an architecture it returns is one of [SUPPORTED_ARCHS], and
    comes with the value it was read from. *)
Theorem detect_arch_sysctl_supported (fs : filesystem) (fname : string) :
  log (detect_arch_sysctl fs fname) = []
  /\ (forall msg, end_ (detect_arch_sysctl fs fname) <> Raised (AssertionError msg))
  /\ (forall arch value,
        end_ (detect_arch_sysctl fs fname) = Done (Some arch, value) ->
        In arch SUPPORTED_ARCHS /\ arch_of_value value = Some arch).
Proof.
  unfold detect_arch_sysctl, _open. destruct (fs fname) as [f |].
  - rewrite bind_ret_l.
    destruct (detect_arch_sysctl_lines_cases (readlines (text f)))
      as [-> | [[msg ->] | (arch & value & -> & Ha)]]; cbn [log end_ fst snd].
    + split; [reflexivity |]. split; [discriminate | discriminate].
    + split; [reflexivity |]. split; [discriminate | discriminate].
    + split; [reflexivity |]. split; [discriminate |].
      intros arch' value' [= <- <-]. split; [| exact Ha].
      eapply arch_of_value_supported, Ha.
  - cbn. split; [reflexivity |]. split; discriminate.
Qed.

(** ** [detect_compiler] *)

Lemma last_cons_or {A} (x : A) (l : list A) :
  last (x :: l) = match last l with Some y => Some y | None => Some x end.
Proof. destruct l as [| y l]; [reflexivity |]. cbn [last]. destruct (last (y :: l)) eqn:H; [reflexivity |].
  apply last_None in H. discriminate H. Qed.

Lemma compiler_version_cons (prefix line : string) (lines : list string) :
  compiler_version prefix (line :: lines)
  = match compiler_version prefix lines with
    | Some v => Some v
    | None => if startswith prefix line then Some (version_in prefix line) else None
    end.
Proof.
  unfold compiler_version. cbn [List.filter].
  destruct (startswith prefix line).
  - rewrite last_cons_or.
    destruct (last (List.filter (startswith prefix) lines)); reflexivity.
  - destruct (last (List.filter (startswith prefix) lines)); reflexivity.
Qed.

Lemma detect_compiler_fold (lines : list string) (gcc clang : option string) :
  fold_left detect_compiler_line lines (gcc, clang)
  = (match compiler_version "CONFIG_GCC_VERSION=" lines with Some v => Some v | None => gcc end,
     match compiler_version "CONFIG_CLANG_VERSION=" lines with Some v => Some v | None => clang end).
Proof.
  revert gcc clang. induction lines as [| line lines IH]; intros gcc clang; [reflexivity |].
  cbn [fold_left]. unfold detect_compiler_line at 2. rewrite IH, !compiler_version_cons.
  unfold version_in.
  change (String.length "CONFIG_GCC_VERSION=") with 19.
  change (String.length "CONFIG_CLANG_VERSION=") with 21.
  destruct (compiler_version "CONFIG_GCC_VERSION=" lines);
    destruct (compiler_version "CONFIG_CLANG_VERSION=" lines);
    destruct (startswith "CONFIG_GCC_VERSION=" line);
    destruct (startswith "CONFIG_CLANG_VERSION=" line); reflexivity.
Qed.

Lemma startswith_app (p s : string) : startswith p (p +:+ s) = true.
Proof.
  induction p as [| a p IH]; [reflexivity |].
  change (startswith (String a p) (String a p +:+ s))
    with (Ascii.eqb a a && startswith p (p +:+ s)).
  rewrite Ascii.eqb_refl. exact IH.
Qed.

Lemma slice_from_app (p s : string) : slice_from (String.length p) (p +:+ s) = s.
Proof. induction p as [| a p IH]; [reflexivity | exact IH]. Qed.

Lemma drop_last_app (s : string) (c : ascii) : drop_last (s +:+ String c "") = s.
Proof.
  induction s as [| a s IH]; [reflexivity |].
  change (drop_last (String a s +:+ String c ""))
    with (match s +:+ String c "" with
          | EmptyString => EmptyString
          | _ => String a (drop_last (s +:+ String c ""))
          end).
  rewrite IH. destruct s; reflexivity.
Qed.

Lemma compiler_version_last (prefix : string) (pre : list string) (v : string)
  (post : list string) :
  Forall (fun l => startswith prefix l = false) post ->
  compiler_version prefix (pre ++ (prefix +:+ v +:+ NL) :: post) = Some v.
Proof.
  intros Hpost.
  assert (Hnone : compiler_version prefix post = None).
  { induction Hpost as [| l post Hl _ IH]; [reflexivity |].
    rewrite compiler_version_cons, IH, Hl. reflexivity. }
  induction pre as [| l pre IH]; cbn [app]; rewrite compiler_version_cons.
  - rewrite Hnone, startswith_app. unfold version_in.
    rewrite slice_from_app. unfold NL. rewrite drop_last_app. reflexivity.
  - rewrite IH. reflexivity.
Qed.

(** X3: [detect_compiler] goes by the last line of the file that starts with
    [CONFIG_GCC_VERSION=] and the last one that starts with
    [CONFIG_CLANG_VERSION=]; the version of a line is the text after the [=],
    less the last character of the line, so for a line that ends with a
    newline it is the text between the [=] and the newline.  When one of the
    two lines is missing the answer is [None].  When both are there, exactly
    one of the two versions has to be ['0']: the other one names the
    compiler, [GCC] or [CLANG].  When both are ['0'] or neither is, the
    program exits with an error message that holds both versions. *)
Theorem detect_compiler_last_lines (fs : filesystem) (fname : string) (f : file) :
  fs fname = Some f ->
  (compiler_version "CONFIG_GCC_VERSION=" (readlines (text f)) = None
   \/ compiler_version "CONFIG_CLANG_VERSION=" (readlines (text f)) = None ->
   detect_compiler fs fname
   = ([], Done (None, "no CONFIG_GCC_VERSION or CONFIG_CLANG_VERSION")))
  /\ (forall gcc clang,
        compiler_version "CONFIG_GCC_VERSION=" (readlines (text f)) = Some gcc ->
        compiler_version "CONFIG_CLANG_VERSION=" (readlines (text f)) = Some clang ->
        (gcc = "0" -> clang <> "0" ->
         detect_compiler fs fname = ([], Done (Some ("CLANG " +:+ clang), "OK")))
        /\ (gcc <> "0" -> clang = "0" ->
            detect_compiler fs fname = ([], Done (Some ("GCC " +:+ gcc), "OK")))
        /\ ((gcc = "0" <-> clang = "0") ->
            detect_compiler fs fname
            = ([], SysExit (ExitMsg ("[!] ERROR: invalid GCC_VERSION and CLANG_VERSION: "
                                     +:+ gcc +:+ " " +:+ clang)))))
  /\ (forall prefix pre v post,
        readlines (text f) = pre ++ (prefix +:+ v +:+ NL) :: post ->
        Forall (fun l => startswith prefix l = false) post ->
        compiler_version prefix (readlines (text f)) = Some v).
Proof.
  intros Hf. unfold detect_compiler. rewrite (open_found _ _ _ Hf), bind_ret_l.
  rewrite detect_compiler_fold.
  split; [| split].
  - intros [-> | ->]; [reflexivity |].
    destruct (compiler_version "CONFIG_GCC_VERSION=" (readlines (text f))); reflexivity.
  - intros gcc clang -> ->.
    destruct (String.eqb_spec gcc "0") as [Hg | Hg];
      destruct (String.eqb_spec clang "0") as [Hc | Hc]; cbn [andb negb].
    + split; [intros _ H; contradiction |]. split; [intros H; contradiction |]. reflexivity.
    + split; [reflexivity |]. split; [intros H; contradiction |]. intros [H _]. specialize (H Hg). contradiction.
    + split; [intros H; contradiction |]. split; [reflexivity |]. intros [_ H]. specialize (H Hc). contradiction.
    + split; [intros H; contradiction |]. split; [intros _ H; contradiction |]. reflexivity.
  - intros prefix pre v post -> Hpost. apply compiler_version_last. exact Hpost.
Qed.

Lemma detect_compiler_last_lines_witness :
  detect_compiler Sample.fs "config" = ([], Done (Some "GCC 120200", "OK")).
Proof.
  pose proof (detect_compiler_last_lines Sample.fs "config"
                (Sample.plain Sample.kconfig_text) eq_refl) as (_ & H & _).
  destruct (H "120200" "0") as (_ & Hgcc & _).
  - vm_compute. reflexivity.
  - vm_compute. reflexivity.
  - apply Hgcc; [discriminate | reflexivity].
Defined.

(** X4: the detectors and the parsers open their file before anything else:
    when the file is missing each of them ends the program with the message
    of [_open], which names the file, and has written nothing. *)
Theorem missing_file_exits {E : Engine} (fs : filesystem) (fname : string)
  (mode : option string) (parsed_options : gmap string string) :
  fs fname = None ->
  detect_arch_kconfig fs fname
  = ([], SysExit (ExitMsg ("[!] ERROR: unable to open " +:+ fname
                           +:+ ", are you sure it exists?")))
  /\ detect_arch_sysctl fs fname
     = ([], SysExit (ExitMsg ("[!] ERROR: unable to open " +:+ fname
                              +:+ ", are you sure it exists?")))
  /\ detect_kernel_version fs fname
     = ([], SysExit (ExitMsg ("[!] ERROR: unable to open " +:+ fname
                              +:+ ", are you sure it exists?")))
  /\ detect_compiler fs fname
     = ([], SysExit (ExitMsg ("[!] ERROR: unable to open " +:+ fname
                              +:+ ", are you sure it exists?")))
  /\ parse_kconfig_file fs mode parsed_options fname
     = ([], SysExit (ExitMsg ("[!] ERROR: unable to open " +:+ fname
                              +:+ ", are you sure it exists?")))
  /\ parse_cmdline_file fs mode parsed_options fname
     = ([], SysExit (ExitMsg ("[!] ERROR: unable to open " +:+ fname
                              +:+ ", are you sure it exists?")))
  /\ parse_sysctl_file fs mode parsed_options fname
     = ([], SysExit (ExitMsg ("[!] ERROR: unable to open " +:+ fname
                              +:+ ", are you sure it exists?"))).
Proof.
  intros Hf.
  unfold detect_arch_kconfig, detect_arch_sysctl, detect_kernel_version, detect_compiler,
    parse_kconfig_file, parse_cmdline_file, parse_sysctl_file, _open.
  rewrite Hf. repeat split; reflexivity.
Qed.

Lemma missing_file_exits_witness :
  detect_compiler Sample.fs "nowhere"
  = ([], SysExit (ExitMsg "[!] ERROR: unable to open nowhere, are you sure it exists?")).
Proof.
  destruct (missing_file_exits (E := Sample.engine) Sample.fs "nowhere" None ∅ eq_refl)
    as (_ & _ & _ & H & _).
  exact H.
Defined.

(** ** Strings *)

Lemma startswith_cut (p s : string) :
  startswith p s = true -> s = p +:+ slice_from (String.length p) s.
Proof.
  revert s. induction p as [| a p IH]; intros s; [reflexivity |].
  destruct s as [| b s]; [discriminate |].
  change (startswith (String a p) (String b s)) with (Ascii.eqb a b && startswith p s).
  intros H. apply andb_prop in H as [Hab Hp]. apply Ascii.eqb_eq in Hab as <-.
  change (String a s = String a (p +:+ slice_from (String.length p) s)).
  f_equal. apply IH, Hp.
Qed.

Lemma app_nil (t : string) : "" +:+ t = t.
Proof. reflexivity. Qed.

Lemma app_cons (a : ascii) (s t : string) : String a s +:+ t = String a (s +:+ t).
Proof. reflexivity. Qed.

Lemma split1_at (c : ascii) (a b : string) :
  contains c a = false -> split1 c (a +:+ String c b) = [a; b].
Proof.
  induction a as [| x a IH]; intros Ha.
  - rewrite app_nil. cbn [split1]. rewrite Ascii.eqb_refl. reflexivity.
  - cbn [contains] in Ha. apply orb_false_elim in Ha as [Hx Ha].
    rewrite app_cons. cbn [split1]. rewrite Hx, (IH Ha). reflexivity.
Qed.

Lemma all_chars_contains (p : ascii -> bool) (c : ascii) (n : string) :
  p c = false -> all_chars p n = true -> contains c n = false.
Proof.
  intros Hc. induction n as [| a n IH]; [reflexivity |].
  cbn [all_chars contains]. intros H. apply andb_prop in H as [Ha Hn].
  rewrite (IH Hn), orb_false_r.
  destruct (Ascii.eqb_spec a c) as [-> |]; [congruence | reflexivity].
Qed.

Lemma last_char_app (a : string) (c : ascii) (b : string) :
  last_char (a +:+ String c b) = last_char (String c b).
Proof.
  induction a as [| x a IH]; [reflexivity |].
  change (last_char (String x a +:+ String c b))
    with (match a +:+ String c b with
          | EmptyString => Some x
          | _ => last_char (a +:+ String c b)
          end).
  rewrite IH. destruct a; reflexivity.
Qed.

Lemma rstrip_last (s : string) (c : ascii) :
  last_char (rstrip s) = Some c -> isspace c = false.
Proof.
  induction s as [| a s IH]; [discriminate |].
  cbn [rstrip]. destruct (rstrip s) as [| b r] eqn:Hr.
  - destruct (isspace a) eqn:Ha; [discriminate |]. intros [= <-]. exact Ha.
  - exact IH.
Qed.

Lemma lstrip_last (s : string) (c : ascii) :
  last_char (lstrip s) = Some c -> last_char s = Some c.
Proof.
  induction s as [| a s IH]; [discriminate |].
  cbn [lstrip]. destruct (isspace a); [| tauto].
  intros H. specialize (IH H). cbn [last_char]. destruct s; [discriminate | exact IH].
Qed.

(** a stripped string does not end with a whitespace character *)
Lemma strip_last (s : string) (c : ascii) :
  last_char (strip s) = Some c -> isspace c = false.
Proof. unfold strip. intros H. apply lstrip_last in H. eapply rstrip_last, H. Qed.

(** ** What the patterns of [parse_kconfig_file] match *)

Lemma star_k_run (p : ascii -> bool) (Q : string -> Prop) (k : cont) :
  only_on Q k -> only_on (run_then p Q) (fun pos s caps => star_k p pos s caps k).
Proof.
  intros Hk pos s. revert pos.
  assert (Hbase : forall pos s caps r, k pos s caps = Some r -> run_then p Q s).
  { intros pos s' caps r H. exists "", s'. split; [reflexivity |]. split; [reflexivity |].
    eapply Hk, H. }
  induction s as [| a s IH]; intros pos caps r; cbn [star_k]; [apply Hbase |].
  destruct (p a) eqn:Ha; [| apply Hbase].
  destruct (star_k p (S pos) s caps k) eqn:Hstar; [| apply Hbase].
  intros _. destruct (IH _ _ _ Hstar) as (n & rest & -> & Hn & Hrest).
  exists (String a n), rest. split; [reflexivity |]. split; [| exact Hrest].
  cbn [all_chars]. rewrite Ha, Hn. reflexivity.
Qed.

Lemma plus_run (p : ascii -> bool) (Q : string -> Prop) (r : regex) pos s caps res :
  only_on Q (fun pos' s' caps' => rmatch r pos' s' caps' accept) ->
  rmatch (Seq (Plus p) r) pos s caps accept = Some res ->
  exists n rest, s = n +:+ rest /\ nonempty n = true /\ all_chars p n = true /\ Q rest.
Proof.
  intros Hk. cbn [rmatch]. destruct s as [| a s]; [discriminate |].
  destruct (p a) eqn:Ha; [| discriminate]. intros H.
  destruct (star_k_run p Q _ Hk _ _ _ _ H) as (n & rest & -> & Hn & Hrest).
  exists (String a n), rest. split; [reflexivity |]. split; [reflexivity |].
  split; [| exact Hrest]. cbn [all_chars]. rewrite Ha, Hn. reflexivity.
Qed.

Lemma enabled_line_shape (s : string) :
  is_enabled_line s = true ->
  exists n v, s = "CONFIG_" +:+ n +:+ "=" +:+ v
              /\ nonempty n = true /\ all_chars kconfig_name_chars n = true.
Proof.
  unfold is_enabled_line, match_, opt_is_on. cbn [cat foldr].
  change (rmatch (Seq (Lit "CONFIG_") ?r) 0 s [] accept)
    with (lit_k "CONFIG_" 0 s [] (fun pos' s' caps' => rmatch r pos' s' caps' accept)).
  rewrite lit_k_spec. destruct (startswith "CONFIG_" s) eqn:Hs; [| discriminate].
  apply startswith_cut in Hs. set (s1 := slice_from (String.length "CONFIG_") s) in *.
  destruct (rmatch _ _ s1 [] accept) as [res |] eqn:Hm; [| discriminate]. intros _.
  apply (plus_run _ (fun rest => startswith "=" rest = true)) in Hm.
  - destruct Hm as (n & rest & Hs1 & Hne & Hn & Hrest).
    apply startswith_cut in Hrest. exists n, (slice_from 1 rest).
    split; [| split; assumption].
    rewrite Hs, Hs1. rewrite Hrest at 1. reflexivity.
  - intros pos s' caps r.
    change (rmatch (Seq (Lit "=") ?r) pos s' caps accept)
      with (lit_k "=" pos s' caps (fun pos' s' caps' => rmatch r pos' s' caps' accept)).
    rewrite lit_k_spec. destruct (startswith "=" s'); [reflexivity | discriminate].
Qed.

Lemma disabled_line_shape (s : string) :
  is_disabled_line s = true ->
  exists n tail, s = "# CONFIG_" +:+ n +:+ " is not set" +:+ tail
                 /\ nonempty n = true /\ all_chars kconfig_name_chars n = true
                 /\ (tail = "" \/ tail = NL).
Proof.
  unfold is_disabled_line, match_, opt_is_off. cbn [cat foldr].
  change (rmatch (Seq (Lit "# CONFIG_") ?r) 0 s [] accept)
    with (lit_k "# CONFIG_" 0 s [] (fun pos' s' caps' => rmatch r pos' s' caps' accept)).
  rewrite lit_k_spec. destruct (startswith "# CONFIG_" s) eqn:Hs; [| discriminate].
  apply startswith_cut in Hs. set (s1 := slice_from (String.length "# CONFIG_") s) in *.
  destruct (rmatch _ _ s1 [] accept) as [res |] eqn:Hm; [| discriminate]. intros _.
  apply (plus_run _ (fun rest => exists tail, rest = " is not set" +:+ tail
                                              /\ (tail = "" \/ tail = NL))) in Hm.
  - destruct Hm as (n & rest & Hs1 & Hne & Hn & tail & -> & Htail).
    exists n, tail. split; [| split; [| split]]; try assumption.
    rewrite Hs, Hs1. reflexivity.
  - intros pos s' caps r.
    change (rmatch (Seq (Lit " is not set") ?r) pos s' caps accept)
      with (lit_k " is not set" pos s' caps (fun pos' s' caps' => rmatch r pos' s' caps' accept)).
    rewrite lit_k_spec. destruct (startswith " is not set" s') eqn:Hs'; [| discriminate].
    apply startswith_cut in Hs'. cbn [rmatch].
    set (tail := slice_from (String.length " is not set") s') in *.
    destruct (String.eqb_spec tail "") as [Ht | Ht].
    + intros _. exists tail. auto.
    + destruct (String.eqb_spec tail NL) as [Ht' | Ht']; [| discriminate].
      intros _. exists tail. auto.
Qed.

(** ** [parse_kconfig_file], line by line *)

Lemma name_chars_no_eq (n : string) :
  all_chars kconfig_name_chars n = true -> contains "=" ("CONFIG_" +:+ n) = false.
Proof.
  intros Hn. rewrite !app_cons, app_nil. cbn [contains].
  rewrite (all_chars_contains kconfig_name_chars "=" n eq_refl Hn). reflexivity.
Qed.

Lemma name_chars_no_space (n : string) :
  all_chars kconfig_name_chars n = true -> contains " " ("CONFIG_" +:+ n) = false.
Proof.
  intros Hn. rewrite !app_cons, app_nil. cbn [contains].
  rewrite (all_chars_contains kconfig_name_chars " " n eq_refl Hn). reflexivity.
Qed.

Lemma enabled_not_disabled (s : string) :
  is_enabled_line s = true -> is_disabled_line s = false.
Proof.
  intros Hon. apply enabled_line_startswith in Hon.
  destruct (is_disabled_line s) eqn:Hoff; [| reflexivity].
  apply disabled_line_startswith in Hoff.
  destruct s as [| a s]; [discriminate |]. cbn [startswith] in Hon, Hoff.
  apply andb_prop in Hon as [Ha _]. apply andb_prop in Hoff as [Hb _].
  apply Ascii.eqb_eq in Ha as <-. discriminate Hb.
Qed.

(** an enabled line, cut at its first [=] *)
Lemma enabled_line_split (s : string) :
  is_enabled_line s = true ->
  exists n v, split1 "=" s = ["CONFIG_" +:+ n; v]
              /\ s = "CONFIG_" +:+ n +:+ "=" +:+ v
              /\ all_chars kconfig_name_chars n = true.
Proof.
  intros H. destruct (enabled_line_shape s H) as (n & v & -> & _ & Hn).
  exists n, v. split; [| split; [reflexivity | exact Hn]].
  apply (split1_at "=" ("CONFIG_" +:+ n) v), name_chars_no_eq, Hn.
Qed.

(** a disabled line of a stripped text, cut at the first space after [# ] *)
Lemma disabled_line_split (line : string) :
  is_disabled_line (strip line) = true ->
  exists n, split1 " " (slice_from 2 (strip line)) = ["CONFIG_" +:+ n; "is not set"]
            /\ strip line = "# CONFIG_" +:+ n +:+ " is not set"
            /\ all_chars kconfig_name_chars n = true.
Proof.
  intros H. destruct (disabled_line_shape _ H) as (n & tail & Hs & _ & Hn & Htail).
  destruct Htail as [-> | ->].
  - exists n. rewrite Hs. split; [| split; [reflexivity | exact Hn]].
    apply (split1_at " " ("CONFIG_" +:+ n) "is not set"), name_chars_no_space, Hn.
  - exfalso. pose proof (strip_last line LF) as Hlast. rewrite Hs in Hlast.
    assert (Hc : last_char ("# CONFIG_" +:+ n +:+ " is not set" +:+ NL) = Some LF).
    { change ("# CONFIG_" +:+ n +:+ " is not set" +:+ NL)
        with (("# CONFIG_" +:+ n) +:+ String " " ("is not set" +:+ NL)).
      rewrite last_char_app. reflexivity. }
    specialize (Hlast Hc). discriminate Hlast.
Qed.

Lemma parse_kconfig_line_spec (m : gmap string string) (line : string) :
  parse_kconfig_line m line
  = if malformed_kconfig_line (strip line) then
      ([], SysExit (ExitMsg ("[!] ERROR: unexpected line in Kconfig file: "
                             +:+ DQ +:+ strip line +:+ DQ)))
    else if enabled_as_not_set (strip line) then
      ([], SysExit (ExitMsg ("[!] ERROR: bad enabled Kconfig option "
                             +:+ DQ +:+ strip line +:+ DQ)))
    else
      match kconfig_option_of (strip line) with
      | Some o =>
          (kconfig_line_warning (strip line),
           if in_dict o m then
             SysExit (ExitMsg ("[!] ERROR: Kconfig option " +:+ DQ +:+ strip line +:+ DQ
                               +:+ " is found multiple times"))
           else Done (<[o := kconfig_value_of (strip line)]> m))
      | None => ([], Done m)
      end.
Proof.
  unfold parse_kconfig_line, malformed_kconfig_line, enabled_as_not_set,
    kconfig_option_of, kconfig_line_warning, kconfig_value_of, kconfig_option_of.
  change (matched (match_ opt_is_on (strip line))) with (is_enabled_line (strip line)).
  change (matched (match_ opt_is_off (strip line))) with (is_disabled_line (strip line)).
  destruct (is_enabled_line (strip line)) eqn:Hon;
    [| destruct (is_disabled_line (strip line)) eqn:Hoff].
  - destruct (enabled_line_split _ Hon) as (n & v & Hsplit & _ & _).
    rewrite Hsplit. cbn [negb andb hd nth unpack2 default].
    rewrite andb_false_r, (bind_ret_l ("CONFIG_" +:+ n, v)). cbn [andb].
    destruct (String.eqb v "is not set"); [reflexivity |].
    destruct (String.eqb v ""); destruct (in_dict ("CONFIG_" +:+ n) m) eqn:Hin;
      cbv [bind ret pass print emit sys_exit]; rewrite ?Hin; reflexivity.
  - destruct (disabled_line_split _ Hoff) as (n & Hsplit & _ & _).
    rewrite Hsplit. cbn [negb andb hd unpack2].
    rewrite andb_false_r, (bind_ret_l ("CONFIG_" +:+ n, "is not set")).
    destruct (in_dict ("CONFIG_" +:+ n) m) eqn:Hin;
      change (String.eqb "is not set" "is not set") with true;
      cbv [bind ret pass sys_exit assert_]; rewrite ?Hin; reflexivity.
  - cbn [negb andb]. rewrite !andb_true_r.
    destruct (negb (String.eqb (strip line) "") && negb (startswith "#" (strip line)));
      reflexivity.
Qed.

Lemma kconfig_steps_other (lines : list string) (m : gmap string string) (k : string) :
  ~ In k (kconfig_options lines) -> fold_left kconfig_step lines m !! k = m !! k.
Proof.
  revert m. induction lines as [| line lines IH]; intros m Hk; [reflexivity |].
  cbn [fold_left]. unfold kconfig_options in Hk |- *. cbn [omap list_omap] in Hk.
  fold (kconfig_options lines) in Hk. unfold kconfig_step at 2.
  destruct (kconfig_option_of (strip line)) as [o |].
  - rewrite IH by (intros H; apply Hk; right; exact H).
    apply lookup_insert_ne. intros ->. apply Hk. left. reflexivity.
  - apply IH, Hk.
Qed.

Lemma kconfig_steps_line (lines : list string) (m : gmap string string)
  (line o : string) :
  NoDup (kconfig_options lines) ->
  In line lines -> kconfig_option_of (strip line) = Some o ->
  fold_left kconfig_step lines m !! o = Some (kconfig_value_of (strip line)).
Proof.
  revert m. induction lines as [| l lines IH]; intros m Hnd Hin Ho; [destruct Hin |].
  cbn [fold_left]. unfold kconfig_options in Hnd. cbn [omap list_omap] in Hnd.
  fold (kconfig_options lines) in Hnd.
  destruct Hin as [-> | Hin].
  - unfold kconfig_step at 2. rewrite Ho in Hnd |- *. apply NoDup_cons in Hnd as [Hfresh _].
    rewrite kconfig_steps_other by (rewrite <- list_elem_of_In; exact Hfresh).
    apply lookup_insert_eq.
  - apply IH; try assumption.
    destruct (kconfig_option_of (strip l)); [| exact Hnd].
    apply NoDup_cons in Hnd as [_ Hnd]. exact Hnd.
Qed.

Lemma parse_kconfig_lines_spec (lines : list string) (m : gmap string string) :
  Forall (fun l => kconfig_line_ok l = true) lines ->
  NoDup (kconfig_options lines) ->
  (forall o, In o (kconfig_options lines) -> m !! o = None) ->
  for_each parse_kconfig_line lines m
  = (flat_map (fun l => kconfig_line_warning (strip l)) lines,
     Done (fold_left kconfig_step lines m)).
Proof.
  intros Hok. revert m. induction Hok as [| line lines Hline _ IH]; intros m Hnd Hfresh.
  - reflexivity.
  - cbn [for_each fold_left flat_map]. rewrite parse_kconfig_line_spec.
    unfold kconfig_line_ok in Hline. apply andb_prop in Hline as [H1 H2].
    apply negb_true_iff in H1, H2. rewrite H1, H2.
    unfold kconfig_options in Hnd, Hfresh. cbn [omap list_omap] in Hnd, Hfresh.
    fold (kconfig_options lines) in Hnd, Hfresh. unfold kconfig_step at 2.
    destruct (kconfig_option_of (strip line)) as [o |] eqn:Ho.
    + apply NoDup_cons in Hnd as [Hnew Hnd].
      assert (Hin : in_dict o m = false).
      { unfold in_dict. rewrite Hfresh; [reflexivity | left; reflexivity]. }
      rewrite Hin, bind_done, IH; [reflexivity | exact Hnd |].
      intros o' Ho'. rewrite lookup_insert_ne.
      * apply Hfresh. right. exact Ho'.
      * intros ->. apply Hnew, list_elem_of_In, Ho'.
    + assert (Hw : is_enabled_line (strip line) = false).
      { unfold kconfig_option_of in Ho.
        destruct (is_enabled_line (strip line)); [discriminate | reflexivity]. }
      rewrite bind_done, IH by assumption.
      assert (Hnone : kconfig_line_warning (strip line) = []).
      { unfold kconfig_line_warning. rewrite Hw. reflexivity. }
      rewrite Hnone. reflexivity.
Qed.

Lemma parse_kconfig_lines_done (lines : list string) (m m' : gmap string string) :
  end_ (for_each parse_kconfig_line lines m) = Done m' ->
  Forall (fun l => kconfig_line_ok l = true) lines
  /\ NoDup (kconfig_options lines)
  /\ (forall o, In o (kconfig_options lines) -> m !! o = None).
Proof.
  revert m. induction lines as [| line lines IH]; intros m.
  - intros _. split; [constructor |]. split; [constructor | intros o []].
  - cbn [for_each]. rewrite bind_end, parse_kconfig_line_spec.
    unfold kconfig_options. cbn [omap list_omap]. fold (kconfig_options lines).
    destruct (malformed_kconfig_line (strip line)) eqn:H1; [nodone |].
    destruct (enabled_as_not_set (strip line)) eqn:H2; [nodone |].
    assert (Hline : kconfig_line_ok line = true).
    { unfold kconfig_line_ok. rewrite H1, H2. reflexivity. }
    destruct (kconfig_option_of (strip line)) as [o |] eqn:Ho; cbn [end_ snd].
    + destruct (in_dict o m) eqn:Hin; [nodone |]. intros Hrest.
      destruct (IH _ Hrest) as (Hok & Hnd & Hfresh).
      assert (Hnew : ~ In o (kconfig_options lines)).
      { intros H. apply Hfresh in H. rewrite lookup_insert_eq in H. discriminate H. }
      split; [constructor; [exact Hline | exact Hok] |]. split.
      * apply NoDup_cons. split; [rewrite list_elem_of_In; exact Hnew | exact Hnd].
      * intros o' [<- | Ho']; [apply in_dict_false, Hin |].
        specialize (Hfresh o' Ho'). rewrite lookup_insert_ne in Hfresh; [exact Hfresh |].
        intros ->. contradiction.
    + intros Hrest. destruct (IH _ Hrest) as (Hok & Hnd & Hfresh).
      split; [constructor; [exact Hline | exact Hok] |]. split; assumption.
Qed.

(** X5: [parse_kconfig_file] returns a mapping exactly when every line of
    the file is one it takes (empty, a comment, a disabled option, or an
    enabled option whose value is not [is not set]), no two lines are about
    the same option, and no line is about an option that is in the mapping
    at the start.  It has then written one warning for each enabled option
    with an empty value, in the order of the file; the mapping returned
    gives the option of every line the value of that line, [is not set] for
    a disabled option, and is the mapping of the start for every other
    name. *)
Theorem parse_kconfig_file_accepts (fs : filesystem) (mode : option string)
  (parsed_options : gmap string string) (fname : string) (f : file) :
  fs fname = Some f ->
  ((exists m, end_ (parse_kconfig_file fs mode parsed_options fname) = Done m)
   <-> Forall (fun l => kconfig_line_ok l = true) (readlines (text f))
       /\ NoDup (kconfig_options (readlines (text f)))
       /\ (forall o, In o (kconfig_options (readlines (text f))) -> parsed_options !! o = None))
  /\ (forall m,
        end_ (parse_kconfig_file fs mode parsed_options fname) = Done m ->
        log (parse_kconfig_file fs mode parsed_options fname)
        = flat_map (fun l => kconfig_line_warning (strip l)) (readlines (text f))
        /\ (forall line o,
              In line (readlines (text f)) ->
              kconfig_option_of (strip line) = Some o ->
              m !! o = Some (kconfig_value_of (strip line)))
        /\ (forall k, ~ In k (kconfig_options (readlines (text f))) ->
              m !! k = parsed_options !! k)).
Proof.
  intros Hf. unfold parse_kconfig_file. rewrite (open_found _ _ _ Hf), bind_ret_l.
  split.
  - split.
    + intros [m Hm]. eapply parse_kconfig_lines_done, Hm.
    + intros (Hok & Hnd & Hfresh).
      rewrite (parse_kconfig_lines_spec _ _ Hok Hnd Hfresh). eexists. reflexivity.
  - intros m Hm. destruct (parse_kconfig_lines_done _ _ _ Hm) as (Hok & Hnd & Hfresh).
    rewrite (parse_kconfig_lines_spec _ _ Hok Hnd Hfresh) in Hm |- *.
    cbn [log end_ fst snd] in Hm |- *. injection Hm as <-.
    split; [reflexivity |]. split.
    + intros line o Hin Ho. apply kconfig_steps_line; assumption.
    + intros k Hk. apply kconfig_steps_other, Hk.
Qed.

Lemma kconfig_lines_ok_dec (lines : list string) :
  forallb kconfig_line_ok lines = true ->
  Forall (fun l => kconfig_line_ok l = true) lines.
Proof.
  intros H. apply List.Forall_forall. apply forallb_forall. exact H.
Qed.

Lemma parse_kconfig_file_accepts_witness :
  exists m,
    end_ (parse_kconfig_file Sample.fs None ∅ "config-min-nomax") = Done m
    /\ m !! "CONFIG_X86_64" = Some "y".
Proof.
  destruct (parse_kconfig_file_accepts Sample.fs None ∅ "config-min-nomax"
              (Sample.plain (Sample.lines ["CONFIG_X86_64=y"]))
              eq_refl) as [[_ Hyes] Hres].
  assert (Hopts : kconfig_options (readlines (Sample.lines ["CONFIG_X86_64=y"]))
                  = ["CONFIG_X86_64"]) by (vm_compute; reflexivity).
  destruct Hyes as [m Hm].
  - split; [| split].
    + apply kconfig_lines_ok_dec. vm_compute. reflexivity.
    + cbn [text Sample.plain]. rewrite Hopts. apply NoDup_singleton.
    + intros o _. apply lookup_empty.
  - exists m. split; [exact Hm |].
    destruct (Hres m Hm) as (_ & Hin & _).
    apply (Hin ("CONFIG_X86_64=y" +:+ NL)).
    + left. vm_compute. reflexivity.
    + vm_compute. reflexivity.
Defined.

(** ** Lines of a file *)

Lemma readlines_nonempty (s : string) :
  Forall (fun l => nonempty l = true) (readlines s).
Proof.
  induction s as [| c s IH]; [constructor |].
  cbn [readlines]. destruct (Ascii.eqb c LF).
  - constructor; [reflexivity | exact IH].
  - destruct (readlines s) as [| l ls]; [repeat constructor |].
    apply Forall_cons in IH as [_ IH]. constructor; [reflexivity | exact IH].
Qed.

Lemma readlines_nil (s : string) : readlines s = [] <-> s = "".
Proof.
  split; [| intros ->; reflexivity].
  destruct s as [| c s]; [reflexivity |]. cbn [readlines].
  destruct (Ascii.eqb c LF); [discriminate |].
  destruct (readlines s); discriminate.
Qed.

Lemma readline_nonempty (n : nat) (s : string) :
  nonempty (readline n s) = true <-> n < length (readlines s).
Proof.
  unfold readline. pose proof (readlines_nonempty s) as H.
  revert n. induction H as [| l ls Hl _ IH]; intros n.
  - destruct n; cbn; split; try discriminate; lia.
  - destruct n as [| n]; cbn [nth length].
    + split; [lia | intros _; exact Hl].
    + rewrite IH. lia.
Qed.

Lemma for_each_quiet {L A S} (body : S -> A -> W L S) (l : list A) (s : S) :
  (forall s x, log (body s x) = []) -> log (for_each body l s) = [].
Proof.
  intros Hbody. revert s. induction l as [| x l IH]; intros s; [reflexivity |].
  cbn [for_each]. rewrite bind_log, Hbody. cbn [app].
  destruct (end_ (body s x)); [apply IH | reflexivity | reflexivity].
Qed.

(** ** [parse_cmdline_file]: the number of lines, the warnings *)

Section CmdlineMore.

Context {E : Engine}.

(** X6: [parse_cmdline_file] takes a file of exactly one line.  An empty
    file ends the program with 'empty cmdline file', a file of two lines or
    more with 'more than one line', both with the name of the file and
    before any option is recorded.  A file whose only line is blank is
    accepted: nothing is written and the mapping is returned as it was. *)
Theorem parse_cmdline_file_one_line (fs : filesystem) (mode : option string)
  (parsed_options : gmap string string) (fname : string) (f : file) :
  fs fname = Some f ->
  (text f = "" ->
   parse_cmdline_file fs mode parsed_options fname
   = ([], SysExit (ExitMsg ("[!] ERROR: empty cmdline file " +:+ DQ +:+ fname +:+ DQ))))
  /\ (2 <= length (readlines (text f)) ->
      parse_cmdline_file fs mode parsed_options fname
      = ([], SysExit (ExitMsg ("[!] ERROR: more than one line in " +:+ DQ +:+ fname +:+ DQ))))
  /\ (length (readlines (text f)) = 1 ->
      split_ws (readline 0 (text f)) = [] ->
      parse_cmdline_file fs mode parsed_options fname = ([], Done parsed_options)).
Proof.
  intros Hf. unfold parse_cmdline_file. rewrite (open_found _ _ _ Hf), bind_ret_l.
  split; [| split].
  - intros ->. reflexivity.
  - intros Hlen.
    assert (H0 : nonempty (readline 0 (text f)) = true) by (apply readline_nonempty; lia).
    assert (H1 : nonempty (readline 1 (text f)) = true) by (apply readline_nonempty; lia).
    rewrite H0, H1. reflexivity.
  - intros Hlen Hblank.
    assert (H0 : nonempty (readline 0 (text f)) = true) by (apply readline_nonempty; lia).
    assert (H1 : nonempty (readline 1 (text f)) = false).
    { destruct (nonempty (readline 1 (text f))) eqn:H; [| reflexivity].
      apply readline_nonempty in H. lia. }
    rewrite H0, H1, Hblank. reflexivity.
Qed.

(** the warning of [parse_cmdline_file] for a name *)
Lemma parse_cmdline_opt_log (mode : option string) (m : gmap string string)
  (opt : string) :
  log (parse_cmdline_opt mode m opt)
  = if in_dict (cmdline_name opt) m && is_not mode "json"
    then [("[!] WARNING: cmdline option " +:+ DQ +:+ cmdline_name opt +:+ DQ
           +:+ " is found multiple times") +:+ NL]
    else [].
Proof.
  unfold parse_cmdline_opt, cmdline_name.
  destruct (contains "=" opt) eqn:Hc.
  - destruct (split1_present _ _ Hc) as (a & b & -> & _ & _).
    cbn [unpack2 hd]. rewrite bind_ret_l.
    destruct (in_dict a m && is_not mode "json");
      destruct (normalize_cmdline_options a b); reflexivity.
  - rewrite bind_ret_l.
    destruct (in_dict opt m && is_not mode "json");
      destruct (normalize_cmdline_options opt ""); reflexivity.
Qed.

Lemma parse_cmdline_opts_count (mode : option string) (opts : list string)
  (m : gmap string string) :
  is_not mode "json" = true ->
  Forall (fun opt => is_Some (normalize_cmdline_options (cmdline_name opt) (cmdline_value opt))) opts ->
  length (log (for_each (parse_cmdline_opt mode) opts m)) + size (cmdline_steps opts m)
  = size m + length opts.
Proof.
  intros Hmode H. revert m. induction H as [| opt rest [v Hv] _ IH]; intros m.
  - cbn. lia.
  - cbn [for_each cmdline_steps length]. rewrite bind_log, length_app.
    rewrite (parse_cmdline_opt_end _ _ _ _ Hv), Hv.
    change (default "" (Some v)) with v.
    specialize (IH (<[cmdline_name opt := v]> m)).
    rewrite parse_cmdline_opt_log, Hmode, andb_true_r. unfold in_dict.
    destruct (m !! cmdline_name opt) as [old |] eqn:Hm.
    + rewrite map_size_insert_Some in IH by (rewrite Hm; eauto). cbn [length]. lia.
    + rewrite map_size_insert_None in IH by exact Hm. cbn [length]. lia.
Qed.

Lemma parse_cmdline_opts_quiet (mode : option string) (opts : list string)
  (m : gmap string string) :
  is_not mode "json" = false ->
  log (for_each (parse_cmdline_opt mode) opts m) = [].
Proof.
  intros Hmode. apply for_each_quiet. intros s x.
  rewrite parse_cmdline_opt_log, Hmode, andb_false_r. reflexivity.
Qed.

Lemma parse_cmdline_file_log (fs : filesystem) (mode : option string)
  (m : gmap string string) (fname : string) :
  log (parse_cmdline_file fs mode m fname)
  = match fs fname with
    | Some f =>
        if nonempty (readline 0 (text f)) && negb (nonempty (readline 1 (text f)))
        then log (for_each (parse_cmdline_opt mode) (split_ws (readline 0 (text f))) m)
        else []
    | None => []
    end.
Proof.
  unfold parse_cmdline_file, _open. destruct (fs fname) as [f |]; [| reflexivity].
  rewrite bind_ret_l.
  destruct (nonempty (readline 0 (text f))); [| reflexivity].
  cbn [negb andb]. unfold pass. rewrite bind_ret_l.
  destruct (nonempty (readline 1 (text f))); [reflexivity |].
  rewrite bind_ret_l. reflexivity.
Qed.

(** X7: the only thing [parse_cmdline_file] writes is its warning about a
    name that is already in the mapping, and in mode [json] it writes
    nothing.  In the other modes, on a file of one line whose values all
    normalise, every token either adds a name to the mapping or is warned
    about: the number of warnings and the size of the mapping returned add
    up to the size of the mapping at the start and the number of tokens. *)
Theorem parse_cmdline_file_warnings (fs : filesystem) (mode : option string)
  (parsed_options : gmap string string) (fname : string) (f : file) :
  fs fname = Some f ->
  (is_ mode "json" = true -> log (parse_cmdline_file fs mode parsed_options fname) = [])
  /\ (is_ mode "json" = false ->
      length (readlines (text f)) = 1 ->
      Forall (fun opt => is_Some (normalize_cmdline_options (cmdline_name opt) (cmdline_value opt)))
             (split_ws (readline 0 (text f))) ->
      exists m,
        end_ (parse_cmdline_file fs mode parsed_options fname) = Done m
        /\ length (log (parse_cmdline_file fs mode parsed_options fname)) + size m
           = size parsed_options + length (split_ws (readline 0 (text f))))
  /\ (forall line, In line (log (parse_cmdline_file fs mode parsed_options fname)) ->
        exists opt, In opt (split_ws (readline 0 (text f)))
                    /\ line = ("[!] WARNING: cmdline option " +:+ DQ +:+ cmdline_name opt
                               +:+ DQ +:+ " is found multiple times") +:+ NL).
Proof.
  intros Hf. rewrite parse_cmdline_file_log, Hf. split; [| split].
  - intros Hj. unfold is_ in Hj. apply negb_true_iff in Hj.
    destruct (_ && _); [| reflexivity]. apply parse_cmdline_opts_quiet. exact Hj.
  - intros Hj Hlen Hnorm. unfold is_ in Hj. apply negb_false_iff in Hj.
    assert (H0 : nonempty (readline 0 (text f)) = true) by (apply readline_nonempty; lia).
    assert (H1 : nonempty (readline 1 (text f)) = false).
    { destruct (nonempty (readline 1 (text f))) eqn:H; [| reflexivity].
      apply readline_nonempty in H. lia. }
    exists (cmdline_steps (split_ws (readline 0 (text f))) parsed_options). split.
    + unfold parse_cmdline_file. rewrite (open_found _ _ _ Hf), bind_ret_l.
      rewrite H0, H1. cbn [negb]. unfold pass. rewrite !bind_ret_l.
      apply parse_cmdline_opts_end. exact Hnorm.
    + rewrite H0, H1. cbn [negb andb]. apply parse_cmdline_opts_count; assumption.
  - intros line. destruct (_ && _); [| intros []].
    generalize parsed_options.
    induction (split_ws (readline 0 (text f))) as [| opt rest IH]; intros m; [intros [] |].
    cbn [for_each]. rewrite bind_log, parse_cmdline_opt_log. intros Hin.
    apply in_app_or in Hin as [Hin | Hin].
    + exists opt. split; [left; reflexivity |].
      destruct (_ && _); [| destruct Hin]. destruct Hin as [<- | []]. reflexivity.
    + destruct (end_ (parse_cmdline_opt mode m opt)) as [m' | e | e]; try destruct Hin.
      destruct (IH m' Hin) as (o & Ho & ->). exists o. split; [right; exact Ho | reflexivity].
Qed.

End CmdlineMore.

Lemma parse_cmdline_file_one_line_witness :
  parse_cmdline_file (E := Sample.engine) Sample.fs None ∅ "config-min"
  = ([], SysExit (ExitMsg ("[!] ERROR: more than one line in " +:+ DQ +:+ "config-min" +:+ DQ))).
Proof.
  destruct (parse_cmdline_file_one_line (E := Sample.engine) Sample.fs None ∅ "config-min"
              (Sample.plain (Sample.lines ["CONFIG_X86_64=y"; "CONFIG_ARCH_MMAP_RND_BITS_MAX=32"]))
              eq_refl) as (_ & H & _).
  apply H. vm_compute. lia.
Defined.

Lemma parse_cmdline_file_warnings_witness :
  exists m,
    end_ (parse_cmdline_file (E := Sample.engine) Sample.fs None ∅ "cmdline") = Done m
    /\ length (log (parse_cmdline_file (E := Sample.engine) Sample.fs None ∅ "cmdline"))
       + size m = 0 + 5.
Proof.
  destruct (parse_cmdline_file_warnings (E := Sample.engine) Sample.fs None ∅ "cmdline"
              (Sample.plain Sample.cmdline_text) eq_refl) as (_ & H & _).
  destruct H as (m & Hend & Hcount).
  - reflexivity.
  - vm_compute. reflexivity.
  - vm_compute. repeat constructor; eexists; reflexivity.
  - exists m. split; [exact Hend |]. exact Hcount.
Defined.

(** ** [parse_sysctl_file]: the errors, the warnings *)

Lemma parse_sysctl_line_spec (m : gmap string string) (line : string) :
  parse_sysctl_line m line
  = if sysctl_data_line (strip line) && negb (matched (match_ sysctl_pattern (strip line)))
    then ([], SysExit (ExitMsg ("[!] ERROR: unexpected line in sysctl file: "
                                +:+ DQ +:+ strip line +:+ DQ)))
    else ret (sysctl_step m line).
Proof.
  destruct (sysctl_data_line (strip line) && _) eqn:Hbad.
  - apply andb_prop in Hbad as [Hd Hm]. unfold parse_sysctl_line.
    unfold sysctl_data_line in Hd. apply andb_prop in Hd as [Hne Hc].
    rewrite Hne. apply negb_true_iff in Hc. rewrite Hc, Hm. reflexivity.
  - apply parse_sysctl_line_ok. intros Hd. rewrite Hd in Hbad.
    cbn [andb] in Hbad. apply negb_false_iff in Hbad. exact Hbad.
Qed.

Lemma parse_sysctl_lines_quiet (lines : list string) (m : gmap string string) :
  log (for_each parse_sysctl_line lines m) = [].
Proof.
  apply for_each_quiet. intros s x. rewrite parse_sysctl_line_spec.
  destruct (_ && _); reflexivity.
Qed.

(** X8: [parse_sysctl_file] ends the program with 'empty sysctl file' when
    the size of the file is zero.  Otherwise the first line that, once
    stripped, is neither empty nor a comment and that the pattern of the
    parser does not match ends it with 'unexpected line in sysctl file' and
    the stripped line; nothing has been written by then. *)
Theorem parse_sysctl_file_rejects (fs : filesystem) (mode : option string)
  (parsed_options : gmap string string) (fname : string) (f : file) :
  fs fname = Some f ->
  (st_size f = 0%N ->
   parse_sysctl_file fs mode parsed_options fname
   = ([], SysExit (ExitMsg ("[!] ERROR: empty sysctl file " +:+ DQ +:+ fname +:+ DQ))))
  /\ (st_size f <> 0%N ->
      forall pre line post,
        readlines (text f) = pre ++ line :: post ->
        Forall sysctl_line_ok pre ->
        sysctl_data_line (strip line) = true ->
        matched (match_ sysctl_pattern (strip line)) = false ->
        parse_sysctl_file fs mode parsed_options fname
        = ([], SysExit (ExitMsg ("[!] ERROR: unexpected line in sysctl file: "
                                 +:+ DQ +:+ strip line +:+ DQ)))).
Proof.
  intros Hf. unfold parse_sysctl_file. rewrite (open_found _ _ _ Hf), bind_ret_l.
  split.
  - intros ->. reflexivity.
  - intros Hsize pre line post -> Hpre Hd Hm.
    apply N.eqb_neq in Hsize. rewrite Hsize. unfold pass at 1. rewrite bind_ret_l.
    rewrite for_each_app, (parse_sysctl_lines_ok _ _ Hpre), bind_ret_l.
    cbn [for_each]. rewrite parse_sysctl_line_spec, Hd, Hm. reflexivity.
Qed.

Lemma parse_sysctl_file_rejects_witness :
  parse_sysctl_file Sample.fs None ∅ "config-bad"
  = ([], SysExit (ExitMsg ("[!] ERROR: unexpected line in sysctl file: " +:+ DQ
                           +:+ "CONFIG BUG" +:+ DQ))).
Proof.
  destruct (parse_sysctl_file_rejects Sample.fs None ∅ "config-bad"
              (Sample.plain (Sample.lines ["CONFIG_BUG=y"; "CONFIG BUG"])) eq_refl)
    as [_ H].
  rewrite (H ltac:(vm_compute; discriminate) ["CONFIG_BUG=y" +:+ NL]
             ("CONFIG BUG" +:+ NL) []).
  - vm_compute. reflexivity.
  - vm_compute. reflexivity.
  - apply sysctl_lines_ok_dec. vm_compute. reflexivity.
  - vm_compute. reflexivity.
  - vm_compute. reflexivity.
Defined.

(** X9: what [parse_sysctl_file] writes.  In mode [json] and in a run that
    ends with an error it writes nothing.  In another mode, a run that
    returns a mapping has written the warning about ancient options exactly
    when the mapping has no [kernel.printk], then the warning about options
    available for root exactly when it has no [kernel.cad_pid], be these
    names from the file or from the mapping at the start. *)
Theorem parse_sysctl_file_warnings (fs : filesystem) (mode : option string)
  (parsed_options : gmap string string) (fname : string) :
  (is_ mode "json" = true -> log (parse_sysctl_file fs mode parsed_options fname) = [])
  /\ (failed (end_ (parse_sysctl_file fs mode parsed_options fname)) ->
      log (parse_sysctl_file fs mode parsed_options fname) = [])
  /\ (forall m,
        end_ (parse_sysctl_file fs mode parsed_options fname) = Done m ->
        is_ mode "json" = false ->
        log (parse_sysctl_file fs mode parsed_options fname)
        = (if in_dict "kernel.printk" m then []
           else [("[!] WARNING: ancient sysctl options are not found in " +:+ fname
                  +:+ ", please use the output of `sudo sysctl -a`") +:+ NL])
          ++ (if in_dict "kernel.cad_pid" m then []
              else [("[!] WARNING: sysctl options available for root are not found in "
                     +:+ fname +:+ ", please use the output of `sudo sysctl -a`") +:+ NL])).
Proof.
  unfold parse_sysctl_file, _open, is_. destruct (fs fname) as [f |].
  2: { cbn. split; [reflexivity |]. split; [reflexivity | discriminate]. }
  rewrite bind_ret_l. destruct (N.eqb (st_size f) 0).
  { cbn. split; [reflexivity |]. split; [reflexivity | discriminate]. }
  unfold pass at 1. rewrite bind_ret_l.
  pose proof (parse_sysctl_lines_quiet (readlines (text f)) parsed_options) as Hq.
  destruct (for_each parse_sysctl_line (readlines (text f)) parsed_options)
    as [l [m | e | e]]; cbn [log fst] in Hq; subst l.
  2, 3: cbn; split; [reflexivity |]; split; [reflexivity | discriminate].
  rewrite bind_done. cbn [app].
  destruct (is_not mode "json"); cbn [negb].
  - split; [discriminate |]. rewrite !andb_true_r. split.
    + rewrite !bind_end.
      destruct (in_dict "kernel.printk" m); destruct (in_dict "kernel.cad_pid" m);
        intros [].
    + intros m' Hm' _.
      assert (m' = m) as ->.
      { rewrite !bind_end in Hm'.
        destruct (in_dict "kernel.printk" m); destruct (in_dict "kernel.cad_pid" m);
          cbn in Hm'; congruence. }
      destruct (in_dict "kernel.printk" m); destruct (in_dict "kernel.cad_pid" m);
        reflexivity.
  - rewrite !andb_false_r. cbn. split; [reflexivity |].
    split; [intros [] | discriminate].
Qed.

Lemma parse_sysctl_file_warnings_witness :
  log (parse_sysctl_file Sample.fs (Some "json") ∅ "config-min") = [].
Proof.
  destruct (parse_sysctl_file_warnings Sample.fs (Some "json") ∅ "config-min") as [H _].
  apply H. reflexivity.
Defined.

(** ** No parser raises *)

Lemma for_each_never {L A S} (body : S -> A -> W L S) (P : exn -> Prop)
  (l : list A) (s : S) (e : exn) :
  (forall s x e, In x l -> end_ (body s x) = Raised e -> P e) ->
  end_ (for_each body l s) = Raised e -> P e.
Proof.
  revert s. induction l as [| x l IH]; intros s Hbody; cbn [for_each].
  - discriminate.
  - rewrite bind_end. destruct (end_ (body s x)) as [s' | a | e'] eqn:Hx.
    + apply IH. intros s0 y e0 Hy. apply Hbody. right. exact Hy.
    + discriminate.
    + intros [= <-]. eapply Hbody; [left; reflexivity | exact Hx].
Qed.

(** an outcome that is no exception *)
Lemma returns_or_exits {A} (o : outcome A) :
  (forall e, o <> Raised e) -> (exists a, o = Done a) \/ (exists c, o = SysExit c).
Proof.
  intros H. destruct o as [a | c | e]; [eauto | eauto |]. destruct (H e eq_refl).
Qed.

Section NoRaise.

Context {E : Engine}.

Lemma parse_cmdline_opt_raises (mode : option string) (m : gmap string string)
  (opt : string) (e : exn) :
  end_ (parse_cmdline_opt mode m opt) = Raised e ->
  e = AssertionError ("unexpected None value for " +:+ cmdline_name opt)
  /\ normalize_cmdline_options (cmdline_name opt) (cmdline_value opt) = None.
Proof.
  unfold parse_cmdline_opt, cmdline_name, cmdline_value.
  destruct (contains "=" opt) eqn:Hc.
  - destruct (split1_present _ _ Hc) as (a & b & -> & _ & _).
    cbn [unpack2 hd nth]. rewrite (bind_ret_l (a, b)), bind_end.
    destruct (in_dict a m && is_not mode "json"); cbn [end_ snd print emit pass ret];
      destruct (normalize_cmdline_options a b); cbn; try discriminate;
      intros [= <-]; auto.
  - rewrite (bind_ret_l (opt, "")), bind_end.
    destruct (in_dict opt m && is_not mode "json"); cbn [end_ snd print emit pass ret];
      destruct (normalize_cmdline_options opt ""); cbn; try discriminate;
      intros [= <-]; auto.
Qed.

(** X10: parsing a file that is read raises no exception of its own.  On
    such a file [parse_kconfig_file] and [parse_sysctl_file] end with a
    mapping or with [sys.exit], whatever the mapping they start from: the
    unpacking of a line cut at its separator always finds two fields, and
    the assertions of [parse_kconfig_file] never fail.  [parse_cmdline_file]
    raises only when [normalize_cmdline_options] gives no value for a token
    of the line, and the exception is then the failed assertion that names
    the token. *)
Theorem parsers_never_raise (fs : filesystem) (mode : option string)
  (parsed_options : gmap string string) (fname : string) (f : file) :
  fs fname = Some f ->
  ((exists m, end_ (parse_kconfig_file fs mode parsed_options fname) = Done m)
   \/ (exists c, end_ (parse_kconfig_file fs mode parsed_options fname) = SysExit c))
  /\ ((exists m, end_ (parse_sysctl_file fs mode parsed_options fname) = Done m)
      \/ (exists c, end_ (parse_sysctl_file fs mode parsed_options fname) = SysExit c))
  /\ (forall e,
        end_ (parse_cmdline_file fs mode parsed_options fname) = Raised e ->
        exists opt,
          In opt (split_ws (readline 0 (text f)))
          /\ e = AssertionError ("unexpected None value for " +:+ cmdline_name opt)
          /\ normalize_cmdline_options (cmdline_name opt) (cmdline_value opt) = None).
Proof.
  intros Hf. split; [| split].
  - apply returns_or_exits. intros e.
    unfold parse_kconfig_file. rewrite (open_found _ _ _ Hf), bind_ret_l. intros H.
    apply (for_each_never parse_kconfig_line (fun _ => False)) in H; [exact H |].
    intros m line e' _. rewrite parse_kconfig_line_spec.
    destruct (malformed_kconfig_line (strip line)); [discriminate |].
    destruct (enabled_as_not_set (strip line)); [discriminate |].
    destruct (kconfig_option_of (strip line)) as [o |]; [| discriminate].
    cbn [end_ snd]. destruct (in_dict o m); discriminate.
  - apply returns_or_exits. intros e.
    unfold parse_sysctl_file. rewrite (open_found _ _ _ Hf), bind_ret_l.
    destruct (N.eqb (st_size f) 0); [discriminate |].
    unfold pass at 1. rewrite bind_ret_l, bind_end.
    destruct (end_ (for_each parse_sysctl_line (readlines (text f)) parsed_options))
      as [m | a | e'] eqn:Hloop.
    + rewrite !bind_end.
      destruct (negb (in_dict "kernel.printk" m) && is_not mode "json");
        destruct (negb (in_dict "kernel.cad_pid" m) && is_not mode "json"); discriminate.
    + discriminate.
    + apply (for_each_never parse_sysctl_line (fun _ => False)) in Hloop; [destruct Hloop |].
      intros m line e'' _. rewrite parse_sysctl_line_spec. destruct (_ && _); discriminate.
  - intros e. unfold parse_cmdline_file. rewrite (open_found _ _ _ Hf), bind_ret_l.
    destruct (nonempty (readline 0 (text f))); [| discriminate].
    cbn [negb]. unfold pass at 1. rewrite bind_ret_l.
    destruct (nonempty (readline 1 (text f))); [discriminate |].
    unfold pass at 1. rewrite bind_ret_l. intros H.
    apply (for_each_never (parse_cmdline_opt mode)
             (fun e => exists opt,
                In opt (split_ws (readline 0 (text f)))
                /\ e = AssertionError ("unexpected None value for " +:+ cmdline_name opt)
                /\ normalize_cmdline_options (cmdline_name opt) (cmdline_value opt) = None))
      in H; [exact H |].
    intros m opt e' Hin He. exists opt. split; [exact Hin |].
    eapply parse_cmdline_opt_raises, He.
Qed.

End NoRaise.

Lemma parsers_never_raise_witness :
  (exists m, end_ (parse_kconfig_file Sample.fs None ∅ "config-min") = Done m)
  \/ (exists c, end_ (parse_kconfig_file Sample.fs None ∅ "config-min") = SysExit c).
Proof.
  destruct (parsers_never_raise (E := Sample.engine) Sample.fs None ∅ "config-min"
              (Sample.plain (Sample.lines ["CONFIG_X86_64=y";
                                           "CONFIG_ARCH_MMAP_RND_BITS_MAX=32"]))
              eq_refl) as [H _].
  exact H.
Defined.

(** ** [print_checklist]: without results, and in mode [json] *)

Section ReportMore.

Context {E : Engine}.

Lemma row_valid_without_results (checklist : list OptCheck) :
  forallb (row_valid false) checklist = true.
Proof. induction checklist as [| o l IH]; [reflexivity | exact IH]. Qed.

Lemma rows_without_results mode sep (checklist : list OptCheck) :
  length (flat_map (row_log mode false sep) checklist)
  = (if is_ mode "verbose" then 3 else 2) * length checklist.
Proof.
  induction checklist as [| o l IH]; [destruct (is_ mode "verbose"); reflexivity |].
  cbn [flat_map length]. rewrite length_app, IH. unfold row_log, row_shown.
  destruct (is_ mode "verbose"); cbn [length]; lia.
Qed.

Lemma print_checklist_plain_log mode (checklist : list OptCheck) :
  is_ mode "json" = false ->
  log (print_checklist mode checklist false)
  = [Text (times "=" 91 +:+ NL);
     Text (centre 40 "option_name" +:+ "|" +:+ centre 7 "type" +:+ "|"
           +:+ centre 12 "desired_val" +:+ "|" +:+ centre 10 "decision"
           +:+ "|" +:+ centre 18 "reason");
     Text ("" +:+ NL);
     Text (times "=" 91 +:+ NL)]
    ++ flat_map (row_log mode false 91) checklist
    ++ [Text ("" +:+ NL)].
Proof.
  intros Hj. unfold print_checklist. rewrite Hj.
  pose proof (row_valid_without_results checklist) as Hall.
  set (rows := for_each (print_checklist_row mode false 91) checklist (0, 0)).
  pose proof (print_rows_log mode false 91 checklist (0, 0)) as Hlog. fold rows in Hlog.
  pose proof (print_rows_end_valid mode false 91 checklist (0, 0) Hall) as Hend.
  fold rows in Hend. rewrite (valid_prefix_all _ _ Hall) in Hlog.
  destruct rows as [l r]. cbn [log end_ fst snd] in Hlog, Hend. subst l r.
  unfold tprint, tprint_noend, emit, pass, ret.
  rewrite !bind_done. cbv beta iota.
  destruct (fold_left (row_counts false) checklist (0, 0)) as [ok fail].
  rewrite ?bind_done. cbn [log end_ fst snd app]. rewrite ?app_nil_r. reflexivity.
Qed.

(** X11: without results, in a mode other than [json], [print_checklist]
    cannot fail: it prints the table header, one row for every check of the
    checklist, in the order of the checklist and whatever its result, and
    the empty line that ends the table; it prints no score.  Every row is
    [table_print] called with the mode and without results, then a newline,
    then, in mode [verbose], a line of dashes: two or three writes a
    check, after the four of the header. *)
Theorem print_checklist_without_results (mode : option string) (checklist : list OptCheck) :
  is_ mode "json" = false ->
  end_ (print_checklist mode checklist false) = Done tt
  /\ printed (log (print_checklist mode checklist false)) = checklist
  /\ scores (log (print_checklist mode checklist false)) = []
  /\ (forall opt md wr,
        In (TablePrint opt md wr) (log (print_checklist mode checklist false)) ->
        md = mode /\ wr = false)
  /\ length (log (print_checklist mode checklist false))
     = 4 + (if is_ mode "verbose" then 3 else 2) * length checklist + 1.
Proof.
  intros Hj.
  pose proof (row_valid_without_results checklist) as Hall.
  split; [| split; [| split; [| split]]].
  - destruct (print_checklist_table mode checklist false Hj) as (_ & _ & _ & _ & _ & Hend & _).
    apply Hend, Hall.
  - rewrite (printed_of_table _ _ _ Hj), (valid_prefix_all _ _ Hall).
    clear. induction checklist as [| o l IH]; [reflexivity |].
    cbn [List.filter row_shown]. rewrite IH. reflexivity.
  - rewrite (print_checklist_plain_log _ _ Hj), !scores_app, scores_rows. reflexivity.
  - intros opt md wr. rewrite (print_checklist_plain_log _ _ Hj). intros Hin.
    apply in_app_or in Hin as [Hin | Hin].
    { destruct Hin as [Hin | [Hin | [Hin | [Hin | []]]]]; discriminate Hin. }
    apply in_app_or in Hin as [Hin | Hin].
    2: { destruct Hin as [Hin | []]. discriminate Hin. }
    apply in_flat_map in Hin as (o & _ & Hin). unfold row_log, row_shown in Hin.
    destruct Hin as [Hin | [Hin | Hin]].
    + injection Hin as <- <- <-. auto.
    + discriminate Hin.
    + destruct (is_ mode "verbose"); [destruct Hin as [Hin | []]; discriminate Hin | destruct Hin].
  - rewrite (print_checklist_plain_log _ _ Hj), !length_app, rows_without_results.
    cbn [length]. lia.
Qed.

Lemma json_loop_done (wr : bool) (checklist : list OptCheck) (acc ds : list jdict) :
  Forall2 (fun opt d => json_dump opt wr = Done d) checklist ds ->
  @for_each out _ _
    (fun output opt => d <- ([], json_dump opt wr) ;; ret (output ++ [d]))
    checklist acc
  = ret (acc ++ ds).
Proof.
  set (body := fun (output : list jdict) (opt : OptCheck) =>
                 @bind out _ _ ([], json_dump opt wr) (fun d => ret (output ++ [d]))).
  assert (Hbody : forall output opt d,
            json_dump opt wr = Done d -> body output opt = ret (output ++ [d])).
  { intros output opt d Hd. unfold body. rewrite Hd. reflexivity. }
  clearbody body.
  intros H. revert acc. induction H as [| opt d checklist ds Hd _ IH]; intros acc.
  - rewrite app_nil_r. reflexivity.
  - cbn [for_each]. rewrite (Hbody _ _ _ Hd), bind_ret_l, IH, <- app_assoc. reflexivity.
Qed.

Lemma json_loop_failed (wr : bool) (pre : list OptCheck) (opt : OptCheck)
  (post : list OptCheck) (acc ds : list jdict) :
  Forall2 (fun opt d => json_dump opt wr = Done d) pre ds ->
  failed (json_dump opt wr) ->
  @for_each out _ _
    (fun output opt => d <- ([], json_dump opt wr) ;; ret (output ++ [d]))
    (pre ++ opt :: post) acc
  = ([], match json_dump opt wr with
         | Done d => Done []
         | SysExit e => SysExit e
         | Raised e => Raised e
         end).
Proof.
  intros H Hfail. rewrite for_each_app, (json_loop_done _ _ _ _ H), bind_ret_l.
  cbn [for_each].
  destruct (json_dump opt wr) as [d | e | e]; [destruct Hfail | reflexivity | reflexivity].
Qed.

(** X12: in mode [json] the report is all or nothing.  When [json_dump]
    returns for every check, [print_checklist] writes one JSON document,
    the list of these dumps in the order of the checklist, and nothing
    else.  When it fails for a check, [print_checklist] ends as the first
    failing [json_dump] does and has written nothing, not even the dumps of
    the checks before it. *)
Theorem print_checklist_json_all_or_nothing (mode : option string)
  (checklist : list OptCheck) (with_results : bool) :
  is_ mode "json" = true ->
  (forall output,
     Forall2 (fun opt d => json_dump opt with_results = Done d) checklist output ->
     print_checklist mode checklist with_results = ([JsonDumps output], Done tt))
  /\ (forall pre opt post output,
        checklist = pre ++ opt :: post ->
        Forall2 (fun opt d => json_dump opt with_results = Done d) pre output ->
        failed (json_dump opt with_results) ->
        log (print_checklist mode checklist with_results) = []
        /\ match json_dump opt with_results with
           | Done _ => False
           | SysExit e => end_ (print_checklist mode checklist with_results) = SysExit e
           | Raised e => end_ (print_checklist mode checklist with_results) = Raised e
           end).
Proof.
  intros Hj. unfold print_checklist. rewrite Hj. split.
  - intros output H. rewrite (json_loop_done _ _ [] _ H), bind_ret_l. reflexivity.
  - intros pre opt post output -> Hpre Hfail.
    rewrite (json_loop_failed _ _ _ _ [] _ Hpre Hfail).
    destruct (json_dump opt with_results); [destruct Hfail | |]; split; reflexivity.
Qed.

End ReportMore.

Lemma print_checklist_without_results_witness :
  printed (log (print_checklist (E := Sample.engine) None Sample.unevaluated false))
  = Sample.unevaluated
  /\ length (log (print_checklist (E := Sample.engine) None Sample.unevaluated false)) = 9.
Proof.
  destruct (print_checklist_without_results (E := Sample.engine) None Sample.unevaluated
              eq_refl) as (_ & Hp & _ & _ & Hlen).
  split; [exact Hp | exact Hlen].
Defined.

Lemma print_checklist_json_all_or_nothing_witness :
  print_checklist (E := Sample.engine) (Some "json") Sample.unevaluated true
  = ([], Raised (AssertionError "unexpected empty result in nosmt")).
Proof.
  destruct (print_checklist_json_all_or_nothing (E := Sample.engine) (Some "json")
              Sample.unevaluated true eq_refl) as [_ H].
  edestruct (H [Sample.set_result "OK" (Sample.mk "CONFIG_BUG" "kconfig" "y")]
               (Sample.mk "nosmt" "cmdline" "") []) as [Hlog Hend].
  - reflexivity.
  - constructor; [vm_compute; reflexivity | constructor].
  - exact I.
  - change (end_ (print_checklist (E := Sample.engine) (Some "json") Sample.unevaluated true)
            = Raised (AssertionError "unexpected empty result in nosmt")) in Hend.
    destruct (print_checklist (Some "json") Sample.unevaluated true) as [l r].
    cbn [log end_ fst snd] in Hlog, Hend. rewrite Hlog, Hend. reflexivity.
Defined.

(** ** [perform_checking]: how it ends *)

Section DriverMore.

Variable fs : filesystem.
Context {E : Engine}.

(** X13: [perform_checking] takes a Kconfig file, or a sysctl file and no
    cmdline file.  Without a Kconfig file, a cmdline file or the absence of
    a sysctl file makes its first assertion fail, 'wrong perform_checking()
    usage', before a file is read or the engine module is called. *)
Theorem perform_checking_usage (mode : option string) (version : option (list N))
  (kconfig cmdline sysctl : option string) :
  truthy kconfig = false ->
  truthy cmdline = true \/ truthy sysctl = false ->
  perform_checking fs mode version kconfig cmdline sysctl
  = ([], Raised (AssertionError "wrong perform_checking() usage")).
Proof.
  intros Hk H. unfold perform_checking. rewrite Hk.
  destruct H as [-> | ->]; [reflexivity |].
  destruct (truthy cmdline); reflexivity.
Qed.

Lemma driver_report_failed mode kconfig cmdline sysctl st :
  failed (end_ (driver_report fs mode kconfig cmdline sysctl st)).
Proof.
  unfold driver_report. destruct st as [cl pk].
  apply failed_bind_r. intros [cl1 pc] _.
  apply failed_bind_r. intros [cl2 ps] _.
  apply failed_bind_r. intros cl3 _.
  apply failed_bind_r. intros _ _.
  apply failed_bind_r. intros _ _.
  exact I.
Qed.

Lemma perform_checking_failed mode version kconfig cmdline sysctl :
  failed (end_ (perform_checking fs mode version kconfig cmdline sysctl)).
Proof.
  rewrite perform_checking_parts.
  apply failed_bind_r. intros cl _.
  apply failed_bind_r. intros st _.
  apply driver_report_failed.
Qed.

(** *** Rules for [in_turn] *)

Lemma rising_weaken lo hi lo' hi' l :
  lo' <= lo -> hi <= hi' -> rising lo hi l = true -> rising lo' hi' l = true.
Proof.
  revert lo lo'. induction l as [| p l IH]; intros lo lo' Hlo Hhi; [reflexivity |].
  cbn [rising]. rewrite !andb_true_iff, !Nat.leb_le, !Nat.ltb_lt. intros [[H1 H2] H3].
  repeat split; try lia. apply (IH (S p) (S p)); [lia | exact Hhi | exact H3].
Qed.

Lemma rising_app lo mid hi l1 l2 :
  lo <= mid -> mid <= hi ->
  rising lo mid l1 = true -> rising mid hi l2 = true -> rising lo hi (l1 ++ l2) = true.
Proof.
  revert lo. induction l1 as [| p l1 IH]; intros lo Hlo Hhi H1 H2.
  - apply (rising_weaken mid hi); [exact Hlo | lia | exact H2].
  - cbn [app rising] in *. rewrite !andb_true_iff, !Nat.leb_le, !Nat.ltb_lt in *.
    destruct H1 as [[Ha Hb] Hc]. repeat split; try lia.
    apply IH; [lia | lia | exact Hc | exact H2].
Qed.

Lemma rising_bounds lo hi l :
  rising lo hi l = true -> Forall (fun p => lo <= p < hi) l.
Proof.
  revert lo. induction l as [| p l IH]; intros lo; [constructor |].
  cbn [rising]. rewrite !andb_true_iff, !Nat.leb_le, !Nat.ltb_lt. intros [[H1 H2] H3].
  constructor; [lia |]. eapply List.Forall_impl; [| apply (IH (S p) H3)].
  cbn. intros; lia.
Qed.

Lemma rising_split lo hi l1 p l2 :
  rising lo hi (l1 ++ p :: l2) = true -> Forall (fun q => p < q) l2.
Proof.
  revert lo. induction l1 as [| q l1 IH]; intros lo; cbn [app rising];
    rewrite !andb_true_iff.
  - intros [_ H]. apply rising_bounds in H.
    eapply List.Forall_impl; [| exact H]. cbn. intros; lia.
  - intros [_ H]. eapply IH, H.
Qed.

Lemma ranks_app (l1 l2 : list event) : ranks (l1 ++ l2) = ranks l1 ++ ranks l2.
Proof. unfold ranks. apply omap_app. Qed.

Lemma ranks_out (l : list out) : ranks (Out <$> l) = [].
Proof. induction l as [| o l IH]; [reflexivity | exact IH]. Qed.

Lemma ranks_text (l : list string) : ranks ((fun s => Out (Text s)) <$> l) = [].
Proof. induction l as [| o l IH]; [reflexivity | exact IH]. Qed.

Lemma in_turn_bind {A B} lo mid hi (m : W event A) (k : A -> W event B) :
  lo <= mid -> mid <= hi ->
  in_turn lo mid m -> (forall a, in_turn mid hi (k a)) -> in_turn lo hi (bind m k).
Proof.
  unfold in_turn. intros Hlo Hhi Hm Hk. rewrite bind_log, ranks_app.
  apply (rising_app lo mid hi); try assumption.
  destruct (end_ m); [apply Hk | reflexivity | reflexivity].
Qed.

Lemma in_turn_quiet {A} lo hi (m : W event A) : ranks (log m) = [] -> in_turn lo hi m.
Proof. unfold in_turn. intros ->. reflexivity. Qed.

Lemma in_turn_stdout {A} lo hi (m : W string A) : in_turn lo hi (stdout m).
Proof. apply in_turn_quiet. apply ranks_text. Qed.

Lemma in_turn_lift {A} lo hi (m : W out A) : in_turn lo hi (lift m).
Proof. apply in_turn_quiet. apply ranks_out. Qed.

Lemma in_turn_call {A} lo hi p (e : event) (r : outcome A) :
  rank e = Some p -> lo <= p -> p < hi -> in_turn lo hi (call e r).
Proof.
  unfold in_turn, call, ranks, log. cbn [fst omap list_omap]. intros -> H1 H2.
  cbn [rising]. apply Nat.leb_le in H1. apply Nat.ltb_lt in H2.
  rewrite H1, H2. reflexivity.
Qed.

Ltac turn_leaf :=
  first
    [ apply in_turn_stdout
    | apply in_turn_lift
    | apply in_turn_quiet; reflexivity
    | eapply in_turn_call; [lazy; reflexivity | lia | lia] ].

Ltac turn_mid mid tac :=
  apply (in_turn_bind _ mid _); [lia | lia | solve [tac] | intros ?].

(** walks through a computation, trying every rank at each [bind] *)
Ltac turn_walk :=
  repeat first
    [ turn_leaf
    | match goal with
      | |- in_turn _ _ (if ?b then _ else _) => destruct b
      | |- in_turn _ _ (match ?x with _ => _ end) => destruct x
      | |- in_turn _ _ (assert_ _ _) => unfold assert_
      | |- in_turn _ _ (bind _ _) =>
          first [ turn_mid 0 turn_walk | turn_mid 1 turn_walk
                | turn_mid 2 turn_walk | turn_mid 3 turn_walk
                | turn_mid 4 turn_walk | turn_mid 5 turn_walk
                | turn_mid 6 turn_walk | turn_mid 7 turn_walk
                | turn_mid 8 turn_walk | turn_mid 9 turn_walk
                | turn_mid 10 turn_walk | turn_mid 11 turn_walk
                | turn_mid 12 turn_walk ]
      end ].

Lemma driver_build_in_turn mode version kconfig cmdline sysctl :
  in_turn 0 4 (driver_build fs mode version kconfig cmdline sysctl).
Proof. unfold driver_build. turn_walk. Qed.

Lemma driver_kconfig_in_turn mode kconfig cl :
  in_turn 4 6 (driver_kconfig fs mode kconfig cl).
Proof. unfold driver_kconfig. turn_walk. Qed.

Lemma driver_report_in_turn mode kconfig cmdline sysctl st :
  in_turn 6 12 (driver_report fs mode kconfig cmdline sysctl st).
Proof. unfold driver_report. destruct st as [cl pk]. turn_walk. Qed.

Lemma perform_checking_in_turn mode version kconfig cmdline sysctl :
  in_turn 0 12 (perform_checking fs mode version kconfig cmdline sysctl).
Proof.
  rewrite perform_checking_parts.
  apply (in_turn_bind 0 4 12); [lia | lia | apply driver_build_in_turn | intros cl].
  apply (in_turn_bind 4 6 12); [lia | lia | apply driver_kconfig_in_turn | intros st].
  apply driver_report_in_turn.
Qed.

(** X14: in a run of [perform_checking] the calls of the engine module come
    in one order, and none comes twice.  Give every call a rank:
    [add_kconfig_checks], [add_cmdline_checks], [add_sysctl_checks], then
    [populate_with_data] for the version, for the Kconfig data,
    [override_expected_value], [populate_with_data] for the cmdline and for
    the sysctl data, [perform_checks], then [print_unknown_options] for the
    Kconfig, the cmdline and the sysctl data.  Of two calls of a run the
    later one has the greater rank: the checklist is complete before it is
    populated, it is evaluated once, after all the populations, and the
    diagnostic passes come after the evaluation. *)
Theorem perform_checking_calls_once_in_order (mode : option string)
  (version : option (list N)) (kconfig cmdline sysctl : option string)
  (pre : list event) (e1 : event) (mid : list event) (e2 : event) (post : list event)
  (r1 r2 : nat) :
  log (perform_checking fs mode version kconfig cmdline sysctl)
  = pre ++ e1 :: mid ++ e2 :: post ->
  rank e1 = Some r1 -> rank e2 = Some r2 ->
  r1 < r2 /\ r2 < 12.
Proof.
  intros Hlog H1 H2.
  pose proof (perform_checking_in_turn mode version kconfig cmdline sysctl) as H.
  unfold in_turn in H. rewrite Hlog in H.
  rewrite ranks_app in H. unfold ranks at 2 in H. cbn [omap list_omap] in H.
  rewrite H1 in H. fold (ranks (mid ++ e2 :: post)) in H.
  pose proof (rising_split _ _ _ _ _ H) as Hlater.
  apply rising_bounds in H.
  rewrite List.Forall_forall in Hlater, H.
  assert (Hin : In r2 (ranks (mid ++ e2 :: post))).
  { unfold ranks. apply list_elem_of_In, list_elem_of_omap. exists e2.
    split; [apply list_elem_of_In, in_elt | exact H2]. }
  split; [apply Hlater, Hin |].
  apply (H r2). apply in_or_app. right. right. exact Hin.
Qed.

(** X15: what [perform_checking] makes of an architecture that is not
    detected.  With a Kconfig file it is an error: the program exits with
    the message of the detector, before the engine module is called.
    Without one, the architecture is that of the sysctl file and may be
    missing: the result of the detector is reported, as a warning when
    there is no architecture, in every mode but [json], and the first call
    of the engine module is [add_sysctl_checks] on the empty checklist with
    that architecture, be it [None]. *)
Theorem perform_checking_arch_detection (mode : option string)
  (version : option (list N)) (kconfig cmdline sysctl : option string) :
  (truthy kconfig = true ->
   forall msg,
     detect_arch_kconfig fs (the kconfig) = ([], Done (None, msg)) ->
     perform_checking fs mode version kconfig cmdline sysctl
     = ([], SysExit (ExitMsg ("[!] ERROR: " +:+ msg))))
  /\ (truthy kconfig = false -> truthy cmdline = false -> truthy sysctl = true ->
      forall arch msg,
        detect_arch_sysctl fs (the sysctl) = ([], Done (arch, msg)) ->
        exists rest,
          log (perform_checking fs mode version kconfig cmdline sysctl)
          = (if is_not mode "json" then
               [Out (Text (match arch with
                           | None => ("[!] WARNING: " +:+ msg
                                      +:+ ", arch-dependent checks will be dropped") +:+ NL
                           | Some a => ("[+] Detected microarchitecture: " +:+ a
                                        +:+ " (" +:+ msg +:+ ")") +:+ NL
                           end))]
             else [])
            ++ Call_add_sysctl_checks [] arch :: rest).
Proof.
  split.
  - intros Hk msg Hd. unfold perform_checking. rewrite Hk, Hd. reflexivity.
  - intros Hk Hc Hs arch msg Hd. unfold perform_checking. rewrite Hk, Hc, Hs, Hd.
    cbn [negb assert_]. rewrite !bind_ret_l.
    change (stdout (A := option string * string) ([], Done (arch, msg)))
      with (@ret event _ (arch, msg)).
    rewrite (bind_ret_l (arch, msg)).
    set (texts := if is_not mode "json" then _ else []).
    assert (Hp : forall B (k : unit -> W event B),
              bind (if is_not mode "json" then
                      match arch with
                      | None => stdout (print ("[!] WARNING: " +:+ msg
                                   +:+ ", arch-dependent checks will be dropped"))
                      | Some a => stdout (print ("[+] Detected microarchitecture: " +:+ a
                                   +:+ " (" +:+ msg +:+ ")"))
                      end
                    else pass) k
              = (texts ++ log (k tt), end_ (k tt))).
    { intros B k. unfold texts. destruct (is_not mode "json"); [| apply bind_done].
      destruct arch; apply bind_done. }
    rewrite bind_assoc, Hp, !bind_ret_l. unfold pass at 1. rewrite !bind_ret_l.
    cbn [log fst]. rewrite bind_log. cbn [call log fst app].
    eexists. reflexivity.
Qed.

End DriverMore.

Lemma perform_checking_usage_witness :
  perform_checking (E := Sample.engine) Sample.fs None None None (Some "cmdline") (Some "sysctl")
  = ([], Raised (AssertionError "wrong perform_checking() usage")).
Proof.
  apply (perform_checking_usage Sample.fs (E := Sample.engine)).
  - reflexivity.
  - left. reflexivity.
Defined.

Lemma perform_checking_calls_once_in_order_witness : 0 < 4 /\ 4 < 12.
Proof.
  apply (perform_checking_calls_once_in_order (E := Sample.engine) Sample.fs
           (Some "json") None (Some "config-min") None None
           [] (Call_add_kconfig_checks [] "X86_64") []
           (Call_populate_with_data Sample.kconfig_checks (Options Sample.min_options) "kconfig")
           (skipn 2 (log (perform_checking (E := Sample.engine) Sample.fs
                            (Some "json") None (Some "config-min") None None)))).
  - vm_compute. reflexivity.
  - reflexivity.
  - reflexivity.
Defined.

Lemma perform_checking_arch_detection_witness :
  perform_checking (E := Sample.engine) Sample.fs None None (Some "cmdline") None None
  = ([], SysExit (ExitMsg "[!] ERROR: failed to detect microarchitecture in kconfig")).
Proof.
  destruct (perform_checking_arch_detection (E := Sample.engine) Sample.fs None None
              (Some "cmdline") None None) as [H _].
  apply H; [reflexivity | vm_compute; reflexivity].
Defined.

(** ** The detectors write nothing *)

Lemma detect_kernel_version_line_quiet (line : string) :
  log (detect_kernel_version_line line) = [].
Proof.
  unfold detect_kernel_version_line.
  unfold index.
  destruct (nth_error (split_ws (strip line)) 2) as [p |]; [| reflexivity].
  rewrite bind_ret_l.
  destruct (nth_error (split1 "-" p) 0) as [v |]; [| reflexivity].
  rewrite bind_ret_l.
  destruct (Nat.leb 3 (length (split "." v))); [| reflexivity].
  destruct (forallb isdecimal (split "." v)); [| reflexivity].
  rewrite ints_spec. destruct (forallb _ (split "." v)); reflexivity.
Qed.

Lemma detect_arch_kconfig_quiet (fs : filesystem) (fname : string) :
  log (detect_arch_kconfig fs fname) = [].
Proof.
  unfold detect_arch_kconfig, _open. destruct (fs fname) as [f |]; reflexivity.
Qed.

Lemma detect_arch_sysctl_quiet (fs : filesystem) (fname : string) :
  log (detect_arch_sysctl fs fname) = [].
Proof.
  unfold detect_arch_sysctl, _open. destruct (fs fname) as [f |]; [| reflexivity].
  rewrite bind_ret_l.
  destruct (detect_arch_sysctl_lines_cases (readlines (text f)))
    as [-> | [[msg ->] | (arch & value & -> & _)]]; reflexivity.
Qed.

Lemma detect_kernel_version_quiet (fs : filesystem) (fname : string) :
  log (detect_kernel_version fs fname) = [].
Proof.
  unfold detect_kernel_version, _open. destruct (fs fname) as [f |]; [| reflexivity].
  rewrite bind_ret_l.
  induction (readlines (text f)) as [| line rest IH]; [reflexivity |].
  cbn [detect_kernel_version_lines].
  destruct (matched (match_ ver_pattern line)); [| exact IH].
  apply detect_kernel_version_line_quiet.
Qed.

Lemma detect_compiler_quiet (fs : filesystem) (fname : string) :
  log (detect_compiler fs fname) = [].
Proof.
  unfold detect_compiler, _open. destruct (fs fname) as [f |]; [| reflexivity].
  rewrite bind_ret_l.
  destruct (fold_left detect_compiler_line (readlines (text f)) (None, None))
    as [[g |] [c |]]; try reflexivity.
  destruct (String.eqb g "0" && negb (String.eqb c "0")); [reflexivity |].
  destruct (negb (String.eqb g "0") && String.eqb c "0"); reflexivity.
Qed.

(** X16: the four detectors report through their result and never write to
    stdout, whatever the file holds and whether or not it exists. *)
Theorem detectors_write_nothing (fs : filesystem) (fname : string) :
  log (detect_arch_kconfig fs fname) = []
  /\ log (detect_arch_sysctl fs fname) = []
  /\ log (detect_kernel_version fs fname) = []
  /\ log (detect_compiler fs fname) = [].
Proof.
  split; [apply detect_arch_kconfig_quiet |].
  split; [apply detect_arch_sysctl_quiet |].
  split; [apply detect_kernel_version_quiet | apply detect_compiler_quiet].
Qed.

(** ** [perform_checking] in mode [json] *)

Lemma is_exactly (s : option string) (lit : string) : is_ s lit = true -> s = Some lit.
Proof.
  unfold is_, is_not. destruct s as [s |]; [| discriminate].
  rewrite negb_involutive. intros H. apply String.eqb_eq in H. congruence.
Qed.

Lemma all_bind {L A B} (P : L -> Prop) (m : W L A) (k : A -> W L B) :
  Forall P (log m) -> (forall a, Forall P (log (k a))) -> Forall P (log (bind m k)).
Proof.
  intros Hm Hk. rewrite bind_log. apply Forall_app. split; [exact Hm |].
  destruct (end_ m); [apply Hk | constructor | constructor].
Qed.

Lemma json_log_bind {A B} (warnings : list string) (m : W event A) (k : A -> W event B) :
  Forall (before_json warnings) (log m) ->
  (forall a, json_log warnings (log (k a))) ->
  json_log warnings (log (bind m k)).
Proof.
  intros Hm Hk. rewrite bind_log. destruct (end_ m) as [a | e | e].
  - destruct (Hk a) as (before & Hb & [-> | [output ->]]).
    + exists (log m ++ before). split; [apply Forall_app; auto | left; reflexivity].
    + exists (log m ++ before). split; [apply Forall_app; auto |].
      right. exists output. apply app_assoc.
  - exists (log m). split; [exact Hm | left; apply app_nil_r].
  - exists (log m). split; [exact Hm | left; apply app_nil_r].
Qed.

Section JsonMode.

Variable fs : filesystem.
Context {E : Engine}.

Lemma parse_cmdline_file_json_quiet (m : gmap string string) (fname : string) :
  log (parse_cmdline_file fs (Some "json") m fname) = [].
Proof.
  rewrite parse_cmdline_file_log. destruct (fs fname) as [f |]; [| reflexivity].
  destruct (_ && _); [| reflexivity]. apply parse_cmdline_opts_quiet. reflexivity.
Qed.

Lemma parse_sysctl_file_json_quiet (m : gmap string string) (fname : string) :
  log (parse_sysctl_file fs (Some "json") m fname) = [].
Proof.
  unfold parse_sysctl_file, _open. destruct (fs fname) as [f |]; [| reflexivity].
  rewrite bind_ret_l. destruct (N.eqb (st_size f) 0); [reflexivity |].
  unfold pass at 1. rewrite bind_ret_l, bind_log, parse_sysctl_lines_quiet.
  destruct (end_ (for_each parse_sysctl_line (readlines (text f)) m)) as [m' | e | e];
    [| reflexivity | reflexivity].
  change (is_not (Some "json") "json") with false. rewrite !andb_false_r. reflexivity.
Qed.

Lemma stdout_nothing {A} (P : event -> Prop) (m : W string A) :
  log m = [] -> Forall P (log (stdout m)).
Proof. unfold stdout, log. cbn [fst]. intros ->. constructor. Qed.

Lemma stdout_warnings {A} (m : W string A) :
  Forall (before_json (log m)) (log (stdout m)).
Proof.
  unfold stdout, log. cbn [fst]. apply List.Forall_forall. intros e He.
  apply list_elem_of_In, list_elem_of_fmap in He as (s & -> & Hs).
  apply list_elem_of_In in Hs. exact Hs.
Qed.

Lemma call_before_json {A} warnings (e : event) (r : outcome A) :
  rank e <> None -> Forall (before_json warnings) (log (call e r)).
Proof.
  intros He. repeat constructor. destruct e; try exact I. contradiction.
Qed.

Lemma print_checklist_json_log (cl : list OptCheck) (wr : bool) :
  log (print_checklist (Some "json") cl wr) = []
  \/ exists output, log (print_checklist (Some "json") cl wr) = [JsonDumps output].
Proof.
  unfold print_checklist. change (is_ (Some "json") "json") with true. cbv iota.
  destruct (json_loop_end wr cl []) as [Hlog _].
  destruct (for_each _ cl []) as [l [output | e | e]]; cbn [log fst] in Hlog; subst l.
  - right. exists output. reflexivity.
  - left. reflexivity.
  - left. reflexivity.
Qed.

Lemma report_json_log warnings (cl : list OptCheck) (e : exit_arg) :
  json_log warnings
    (log (bind (lift (print_checklist (Some "json") cl true))
            (fun _ => ([], @SysExit unit e)))).
Proof.
  exists []. split; [constructor |]. rewrite bind_log. unfold lift, log. cbn [fst snd].
  change (fst (print_checklist (Some "json") cl true))
    with (log (print_checklist (Some "json") cl true)).
  destruct (print_checklist_json_log cl true) as [-> | [output ->]].
  - left. destruct (snd (print_checklist (Some "json") cl true)); reflexivity.
  - right. exists output.
    destruct (snd (print_checklist (Some "json") cl true)); reflexivity.
Qed.

Ltac quiet_leaf :=
  first
    [ apply List.Forall_nil
    | apply stdout_nothing;
      first [ apply detect_arch_kconfig_quiet | apply detect_arch_sysctl_quiet
            | apply detect_compiler_quiet
            | apply parse_cmdline_file_json_quiet | apply parse_sysctl_file_json_quiet ]
    | apply call_before_json; discriminate
    | apply stdout_warnings ].

Ltac quiet_walk :=
  repeat first
    [ quiet_leaf
    | match goal with
      | |- Forall _ (log (if ?b then _ else _)) => destruct b
      | |- Forall _ (log (match ?x with _ => _ end)) => destruct x
      | |- Forall _ (log (assert_ _ _)) => unfold assert_
      | |- Forall _ (log (bind _ _)) => apply all_bind; [| intros ?]
      end ].

Ltac json_walk :=
  repeat first
    [ apply report_json_log
    | match goal with
      | |- json_log _ (log (let (_, _) := ?x in _)) => destruct x
      | |- json_log _ (log (bind _ _)) =>
          apply json_log_bind; [solve [quiet_walk] | intros ?]
      end ].

(** X17: what a run of [perform_checking] writes in mode [json].  The
    detectors, the cmdline and the sysctl parser and the driver itself write
    nothing; the only text that can come before the report is what
    [parse_kconfig_file] writes, its warnings about options with an empty
    value, which it writes in every mode.  The report is one JSON document,
    and it is the last thing written; a run that ends before the report
    writes none. *)
Theorem perform_checking_json_output (mode : option string) (version : option (list N))
  (kconfig cmdline sysctl : option string) :
  is_ mode "json" = true ->
  json_log (if truthy kconfig then log (parse_kconfig_file fs mode ∅ (the kconfig)) else [])
    (log (perform_checking fs mode version kconfig cmdline sysctl)).
Proof.
  intros Hj. apply is_exactly in Hj. subst mode. unfold perform_checking.
  change (is_not (Some "json") "json") with false.
  change (is_ (Some "json") "verbose") with false.
  cbv iota.
  destruct (truthy kconfig); json_walk.
Qed.

End JsonMode.

(** ** [main] *)

(** a computation that writes text, calls nothing and returns [a] *)
Lemma text_then_bind {A B} (m : W event A) (a : A) (k : A -> W event B) :
  end_ m = Done a ->
  log (bind m k) = log m ++ log (k a) /\ end_ (bind m k) = end_ (k a).
Proof.
  intros H. rewrite bind_log, bind_end, H. split; reflexivity.
Qed.

Section MainProps.

Variable fs : filesystem.
Context {E : Engine}.
Variable help : string.

Lemma main_mode_end (a : args) : end_ (main_mode a) = Done (mode_of a).
Proof.
  unfold main_mode, mode_of. destruct (truthy (args_mode a)); [| reflexivity].
  destruct (is_not (args_mode a) "json"); reflexivity.
Qed.

Lemma opening_text (l : list event) : Forall is_opening l -> Forall is_text l.
Proof.
  intros H. eapply List.Forall_impl; [| exact H].
  intros [[] | | | | | | |]; cbn; tauto.
Qed.

Lemma main_mode_text (a : args) : Forall is_opening (log (main_mode a)).
Proof.
  unfold main_mode. destruct (truthy (args_mode a)); [| constructor].
  destruct (is_not (args_mode a) "json"); repeat constructor.
Qed.

Lemma main_announce_end (mode : option string) (a : args) :
  end_ (main_announce mode a) = Done tt.
Proof.
  unfold main_announce. destruct (is_not mode "json"); [| reflexivity].
  destruct (truthy (args_config a)); destruct (truthy (args_cmdline a));
    destruct (truthy (args_sysctl a)); reflexivity.
Qed.

Lemma main_announce_text (mode : option string) (a : args) :
  Forall is_opening (log (main_announce mode a)).
Proof.
  unfold main_announce. destruct (is_not mode "json"); [| constructor].
  destruct (truthy (args_config a)); destruct (truthy (args_cmdline a));
    destruct (truthy (args_sysctl a)); repeat constructor.
Qed.

(** the run of [main], from its third block on *)
Lemma main_from_check (a : args) :
  exists texts,
    Forall is_opening texts
    /\ main fs help a
       = bind (texts, Done tt)
           (fun _ =>
              bind (main_check fs (mode_of a) a)
                (fun _ =>
                   bind (main_print (mode_of a) a)
                     (fun _ =>
                        bind (main_generate (mode_of a) a)
                          (fun _ => bind (stdout (emit help))
                                      (fun _ => ([], SysExit (ExitCode 0))))))).
Proof.
  exists (log (main_mode a) ++ log (main_announce (mode_of a) a)). split.
  - apply Forall_app. split; [apply main_mode_text | apply main_announce_text].
  - unfold main.
    pose proof (main_mode_end a) as H1. pose proof (main_announce_end (mode_of a) a) as H2.
    destruct (main_mode a) as [l1 r1]. cbn [end_ snd log fst] in *. subst r1.
    rewrite bind_done.
    destruct (main_announce (mode_of a) a) as [l2 r2]. cbn [end_ snd log fst] in *. subst r2.
    rewrite !bind_done. cbn [log end_ fst snd]. rewrite <- app_assoc. reflexivity.
Qed.

Lemma main_check_failed (mode : option string) (a : args) :
  truthy (args_config a) = true \/ truthy (args_cmdline a) = true
  \/ truthy (args_sysctl a) = true ->
  failed (end_ (main_check fs mode a)).
Proof.
  intros H. unfold main_check. destruct (truthy (args_config a)).
  - apply failed_bind_r. intros _ _. apply failed_bind_r. intros _ _.
    apply failed_bind_r. intros [v msg] _. apply failed_bind_r. intros _ _.
    apply failed_bind_r. intros _ _. apply failed_bind_r. intros _ _. exact I.
  - destruct (truthy (args_cmdline a)); [exact I |].
    destruct (truthy (args_sysctl a)).
    + apply failed_bind_r. intros _ _. apply failed_bind_r. intros _ _.
      apply failed_bind_r. intros _ _. exact I.
    + destruct H as [H | [H | H]]; discriminate H.
Qed.

(** X18: neither [perform_checking] nor [main] returns to its caller: every
    run ends with [sys.exit] or with an exception. *)
Theorem never_returns (mode : option string) (version : option (list N))
  (kconfig cmdline sysctl : option string) (a : args) :
  failed (end_ (perform_checking fs mode version kconfig cmdline sysctl))
  /\ failed (end_ (main fs help a)).
Proof.
  split; [apply perform_checking_failed |].
  unfold main.
  apply failed_bind_r. intros md _. apply failed_bind_r. intros _ _.
  apply failed_bind_r. intros _ _. apply failed_bind_r. intros _ _.
  apply failed_bind_r. intros _ _. apply failed_bind_r. intros _ _. exact I.
Qed.

Lemma rejected (a : args) (msg : string) :
  (forall mode, main_check fs mode a = sys_exit msg
                \/ (main_check fs mode a = pass /\ main_print mode a = sys_exit msg)) ->
  end_ (main fs help a) = SysExit (ExitMsg msg)
  /\ Forall is_text (log (main fs help a)).
Proof.
  intros H. destruct (main_from_check a) as (texts & Htexts & ->).
  rewrite bind_done.
  destruct (H (mode_of a)) as [-> | [-> ->]]; cbn [log end_ fst snd bind sys_exit pass ret];
    rewrite ?app_nil_r; split; try reflexivity; apply opening_text, Htexts.
Qed.

(** X19: the options [main] refuses to combine.  A Kconfig file goes with
    neither [--print] nor [--generate]; a cmdline file needs a Kconfig
    file; a sysctl file without a Kconfig file goes with neither [--print]
    nor [--generate]; and [--print] does not go with [--generate].  In each
    case the program exits with the message for that combination, having
    written nothing but its opening lines: no file is read and the engine
    module is not called. *)
Theorem main_rejects_conflicts (a : args) :
  (truthy (args_config a) = true -> truthy (args_print a) = true ->
   end_ (main fs help a)
   = SysExit (ExitMsg "[!] ERROR: --config and --print can't be used together")
   /\ Forall is_text (log (main fs help a)))
  /\ (truthy (args_config a) = true -> truthy (args_print a) = false ->
      truthy (args_generate a) = true ->
      end_ (main fs help a)
      = SysExit (ExitMsg "[!] ERROR: --config and --generate can't be used together")
      /\ Forall is_text (log (main fs help a)))
  /\ (truthy (args_config a) = false -> truthy (args_cmdline a) = true ->
      end_ (main fs help a)
      = SysExit (ExitMsg "[!] ERROR: checking cmdline depends on checking Kconfig")
      /\ Forall is_text (log (main fs help a)))
  /\ (truthy (args_config a) = false -> truthy (args_cmdline a) = false ->
      truthy (args_sysctl a) = true -> truthy (args_print a) = true ->
      end_ (main fs help a)
      = SysExit (ExitMsg "[!] ERROR: --sysctl and --print can't be used together")
      /\ Forall is_text (log (main fs help a)))
  /\ (truthy (args_config a) = false -> truthy (args_cmdline a) = false ->
      truthy (args_sysctl a) = true -> truthy (args_print a) = false ->
      truthy (args_generate a) = true ->
      end_ (main fs help a)
      = SysExit (ExitMsg "[!] ERROR: --sysctl and --generate can't be used together")
      /\ Forall is_text (log (main fs help a)))
  /\ (args_config a = None -> args_cmdline a = None -> args_sysctl a = None ->
      truthy (args_print a) = true -> truthy (args_generate a) = true ->
      end_ (main fs help a)
      = SysExit (ExitMsg "[!] ERROR: --print and --generate can't be used together")
      /\ Forall is_text (log (main fs help a))).
Proof.
  split; [| split; [| split; [| split; [| split]]]].
  - intros Hc Hp. apply rejected. intros mode. left.
    unfold main_check. rewrite Hc, Hp. reflexivity.
  - intros Hc Hp Hg. apply rejected. intros mode. left.
    unfold main_check. rewrite Hc, Hp, Hg. reflexivity.
  - intros Hc Hl. apply rejected. intros mode. left.
    unfold main_check. rewrite Hc, Hl. reflexivity.
  - intros Hc Hl Hs Hp. apply rejected. intros mode. left.
    unfold main_check. rewrite Hc, Hl, Hs, Hp. reflexivity.
  - intros Hc Hl Hs Hp Hg. apply rejected. intros mode. left.
    unfold main_check. rewrite Hc, Hl, Hs, Hp, Hg. reflexivity.
  - intros Hc Hl Hs Hp Hg. apply rejected. intros mode. right.
    unfold main_check, main_print. rewrite Hc, Hl, Hs, Hp, Hg. split; reflexivity.
Qed.

(** X20: with a Kconfig file, [main] needs a kernel version before it
    checks anything.  The version is read in the file of [--kernel-version]
    when that option names one, and in the Kconfig file otherwise.  When no
    version comes out of that file the program exits with the message of
    the detector, without calling the engine module; the hint about
    [--kernel-version] is written first when the option was not given at
    all. *)
Theorem main_needs_kernel_version (a : args) (msg : string) :
  truthy (args_config a) = true ->
  truthy (args_print a) = false -> truthy (args_generate a) = false ->
  detect_kernel_version fs
    (the (if truthy (args_kernel_version a) then args_kernel_version a else args_config a))
  = ([], Done (None, msg)) ->
  end_ (main fs help a) = SysExit (ExitMsg ("[!] ERROR: " +:+ msg))
  /\ Forall is_text (log (main fs help a))
  /\ (In (Out (Text ("[!] Hint: provide the kernel version file through --kernel-version option" +:+ NL)))
         (log (main fs help a))
      <-> args_kernel_version a = None).
Proof.
  intros Hc Hp Hg Hd. destruct (main_from_check a) as (texts & Htexts & ->).
  rewrite bind_done.
  assert (Hcheck : main_check fs (mode_of a) a
                   = ((if is_none (args_kernel_version a) then
                         [Out (Text ("[!] Hint: provide the kernel version file through --kernel-version option" +:+ NL))]
                       else []),
                      SysExit (ExitMsg ("[!] ERROR: " +:+ msg)))).
  { unfold main_check. rewrite Hc, Hp, Hg. unfold pass at 1 2. rewrite !bind_ret_l.
    assert (Hv : (if truthy (args_kernel_version a)
                  then stdout (detect_kernel_version fs (the (args_kernel_version a)))
                  else stdout (detect_kernel_version fs (the (args_config a))))
                 = @ret event _ (@None (list N), msg)).
    { destruct (truthy (args_kernel_version a)); rewrite Hd; reflexivity. }
    rewrite Hv, (bind_ret_l (None, msg)).
    destruct (is_none (args_kernel_version a)); reflexivity. }
  rewrite Hcheck. cbn [bind log end_ fst snd]. split; [reflexivity |]. split.
  - apply Forall_app. split; [apply opening_text, Htexts |].
    destruct (is_none (args_kernel_version a)); repeat constructor.
  - split.
    + intros Hin. apply in_app_or in Hin as [Hin | Hin].
      * rewrite List.Forall_forall in Htexts. apply Htexts in Hin. discriminate Hin.
      * destruct (args_kernel_version a); [destruct Hin | reflexivity].
    + intros ->. apply in_or_app. right. left. reflexivity.
Qed.

End MainProps.

(** ** A match, from the shape of the subject *)

Lemma star_k_run_to (p : ascii -> bool) (n : string) (c : ascii) (rest : string)
  pos caps (k : cont) r :
  all_chars p n = true -> p c = false ->
  k (pos + String.length n) (String c rest) caps = Some r ->
  star_k p pos (n +:+ String c rest) caps k = Some r.
Proof.
  revert pos. induction n as [| a n IH]; intros pos Hn Hc Hk.
  - rewrite app_nil. cbn [star_k]. rewrite Hc.
    cbn [String.length] in Hk. rewrite Nat.add_0_r in Hk. exact Hk.
  - cbn [all_chars] in Hn. apply andb_prop in Hn as [Ha Hn].
    rewrite app_cons. cbn [star_k]. rewrite Ha.
    rewrite (IH (S pos) Hn Hc); [reflexivity |].
    cbn [String.length] in Hk. rewrite Nat.add_succ_r in Hk. exact Hk.
Qed.

Lemma star_k_all (p : ascii -> bool) (s : string) pos caps (k : cont) r :
  all_chars p s = true ->
  k (pos + String.length s) "" caps = Some r ->
  star_k p pos s caps k = Some r.
Proof.
  revert pos. induction s as [| a s IH]; intros pos Hs Hk.
  - cbn [star_k]. cbn [String.length] in Hk. rewrite Nat.add_0_r in Hk. exact Hk.
  - cbn [all_chars] in Hs. apply andb_prop in Hs as [Ha Hs].
    cbn [star_k]. rewrite Ha. rewrite (IH (S pos) Hs); [reflexivity |].
    cbn [String.length] in Hk. rewrite Nat.add_succ_r in Hk. exact Hk.
Qed.

Lemma no_newline_dot (s : string) : contains LF s = false -> all_chars dot s = true.
Proof.
  induction s as [| a s IH]; [reflexivity |].
  cbn [contains all_chars]. intros H. apply orb_false_elim in H as [Ha Hs].
  unfold dot at 1. rewrite Ha, (IH Hs). reflexivity.
Qed.

Lemma enabled_line_matches (n v : string) :
  nonempty n = true -> all_chars kconfig_name_chars n = true -> contains LF v = false ->
  is_enabled_line ("CONFIG_" +:+ n +:+ "=" +:+ v) = true.
Proof.
  intros Hne Hn Hv. unfold is_enabled_line, match_, opt_is_on. cbn [cat foldr].
  change (rmatch (Seq (Lit "CONFIG_") ?r) 0 ?s [] accept)
    with (lit_k "CONFIG_" 0 s [] (fun pos' s' caps' => rmatch r pos' s' caps' accept)).
  rewrite lit_k_spec, startswith_app, slice_from_app.
  destruct n as [| a n]; [discriminate |].
  cbn [all_chars] in Hn. apply andb_prop in Hn as [Ha Hn].
  rewrite app_cons. cbn [rmatch]. rewrite Ha.
  change ("=" +:+ v) with (String "=" v).
  erewrite star_k_run_to; [reflexivity | exact Hn | reflexivity |].
  cbn [lit_k]. rewrite Ascii.eqb_refl.
  erewrite star_k_all; [reflexivity | apply no_newline_dot, Hv |].
  reflexivity.
Qed.

Lemma disabled_line_matches (n : string) :
  nonempty n = true -> all_chars kconfig_name_chars n = true ->
  is_disabled_line ("# CONFIG_" +:+ n +:+ " is not set") = true.
Proof.
  intros Hne Hn. unfold is_disabled_line, match_, opt_is_off. cbn [cat foldr].
  change (rmatch (Seq (Lit "# CONFIG_") ?r) 0 ?s [] accept)
    with (lit_k "# CONFIG_" 0 s [] (fun pos' s' caps' => rmatch r pos' s' caps' accept)).
  rewrite lit_k_spec, startswith_app, slice_from_app.
  destruct n as [| a n]; [discriminate |].
  cbn [all_chars] in Hn. apply andb_prop in Hn as [Ha Hn].
  rewrite app_cons. cbn [rmatch]. rewrite Ha.
  change (" is not set") with (String " " "is not set").
  erewrite star_k_run_to; [reflexivity | exact Hn | reflexivity |].
  reflexivity.
Qed.

(** ** Lines and their text *)

Lemma readlines_line (l rest : string) :
  contains LF l = false ->
  readlines (l +:+ NL +:+ rest) = (l +:+ NL) :: readlines rest.
Proof.
  induction l as [| c l IH]; intros Hl.
  - rewrite !app_nil. unfold NL. rewrite app_cons, app_nil. cbn [readlines].
    rewrite Ascii.eqb_refl. reflexivity.
  - cbn [contains] in Hl. apply orb_false_elim in Hl as [Hc Hl].
    rewrite !app_cons. cbn [readlines]. rewrite Hc, (IH Hl). reflexivity.
Qed.

Lemma append_assoc (a b c : string) : (a +:+ b) +:+ c = a +:+ b +:+ c.
Proof. induction a as [| x a IH]; [reflexivity |]. rewrite !app_cons, IH. reflexivity. Qed.

Lemma readlines_joined (lines : list string) :
  Forall (fun l => contains LF l = false) lines ->
  readlines (joined (map (fun l => l +:+ NL) lines)) = map (fun l => l +:+ NL) lines.
Proof.
  induction 1 as [| l lines Hl _ IH]; [reflexivity |].
  cbn [map joined foldr]. fold (joined (map (fun l => l +:+ NL) lines)).
  rewrite append_assoc, (readlines_line _ _ Hl), IH. reflexivity.
Qed.

Lemma rstrip_space (s : string) (c : ascii) :
  isspace c = true -> rstrip (s +:+ String c "") = rstrip s.
Proof.
  intros Hc. induction s as [| a s IH].
  - rewrite app_nil. cbn [rstrip]. rewrite Hc. reflexivity.
  - rewrite app_cons. cbn [rstrip]. rewrite IH. reflexivity.
Qed.

Lemma rstrip_fixed (s : string) :
  match last_char s with Some c => isspace c = false | None => True end ->
  rstrip s = s.
Proof.
  induction s as [| a s IH]; [reflexivity |].
  cbn [last_char rstrip]. destruct s as [| b s].
  - intros Ha. cbn [rstrip]. rewrite Ha. reflexivity.
  - intros H. rewrite (IH H). reflexivity.
Qed.

Lemma last_char_nonempty (a b : string) :
  nonempty b = true -> last_char (a +:+ b) = last_char b.
Proof.
  destruct b as [| c b]; [discriminate |]. intros _. apply last_char_app.
Qed.

(** a line whose first character is no whitespace and whose last one is
    none either comes out of [strip] as it is, less its newline *)
Lemma strip_line (c : ascii) (s : string) :
  isspace c = false ->
  match last_char (String c s) with Some d => isspace d = false | None => True end ->
  strip (String c s +:+ NL) = String c s.
Proof.
  intros Hc Hlast. unfold strip, NL. rewrite rstrip_space by reflexivity.
  rewrite (rstrip_fixed _ Hlast). cbn [lstrip]. rewrite Hc. reflexivity.
Qed.

(** ** The lines of a Kconfig fragment *)

Lemma contains_app (c : ascii) (a b : string) :
  contains c (a +:+ b) = contains c a || contains c b.
Proof.
  induction a as [| x a IH]; [reflexivity |].
  rewrite app_cons. cbn [contains]. rewrite IH. apply orb_assoc.
Qed.

Lemma name_chars_no_newline (n : string) :
  all_chars kconfig_name_chars n = true -> contains LF n = false.
Proof. apply all_chars_contains. reflexivity. Qed.

Lemma plain_value_last (v : string) :
  plain_value v = true ->
  contains LF v = false
  /\ match last_char v with Some c => isspace c = false | None => True end.
Proof.
  unfold plain_value. intros H. apply andb_prop in H as [H1 H2].
  apply andb_prop in H1 as [H1 _].
  apply negb_true_iff in H1. split; [exact H1 |].
  destruct (last_char v); [apply negb_true_iff, H2 | exact I].
Qed.

Lemma plain_value_no_cr (v : string) : plain_value v = true -> contains CR v = false.
Proof.
  unfold plain_value. intros H. apply andb_prop in H as [H _].
  apply andb_prop in H as [_ H]. apply negb_true_iff, H.
Qed.

Lemma name_chars_no_cr (n : string) :
  all_chars kconfig_name_chars n = true -> contains CR n = false.
Proof. apply all_chars_contains. reflexivity. Qed.

(** a text without a carriage return is read as it is *)
Lemma universal_newlines_id (s : string) :
  contains CR s = false -> universal_newlines s = s.
Proof.
  induction s as [| c s IH]; [reflexivity |].
  cbn [contains universal_newlines]. rewrite Ascii.eqb_sym.
  destruct (Ascii.eqb CR c); cbn [orb]; [discriminate |].
  intros H. rewrite (IH H). reflexivity.
Qed.

Lemma contains_joined (c : ascii) (l : list string) :
  Forall (fun s => contains c s = false) l -> contains c (joined l) = false.
Proof.
  induction 1 as [| s l Hs _ IH]; [reflexivity |].
  cbn [joined foldr]. change (foldr String.append "" l) with (joined l).
  rewrite contains_app, Hs, IH. reflexivity.
Qed.

Lemma kconfig_name_shape (s : string) :
  kconfig_name s = true ->
  exists n, s = "CONFIG_" +:+ n /\ nonempty n = true
            /\ all_chars kconfig_name_chars n = true.
Proof.
  unfold kconfig_name. intros H. apply andb_prop in H as [H H3].
  apply andb_prop in H as [H1 H2]. apply startswith_cut in H1.
  exists (slice_from 7 s). auto.
Qed.

(** what the parser makes of the line [CONFIG_<n>=<v>] *)
Lemma enabled_line_facts (n v : string) :
  nonempty n = true -> all_chars kconfig_name_chars n = true ->
  plain_value v = true -> v <> "is not set" ->
  contains LF ("CONFIG_" +:+ n +:+ "=" +:+ v) = false
  /\ strip (("CONFIG_" +:+ n +:+ "=" +:+ v) +:+ NL) = "CONFIG_" +:+ n +:+ "=" +:+ v
  /\ malformed_kconfig_line ("CONFIG_" +:+ n +:+ "=" +:+ v) = false
  /\ enabled_as_not_set ("CONFIG_" +:+ n +:+ "=" +:+ v) = false
  /\ kconfig_option_of ("CONFIG_" +:+ n +:+ "=" +:+ v) = Some ("CONFIG_" +:+ n)
  /\ kconfig_value_of ("CONFIG_" +:+ n +:+ "=" +:+ v) = v.
Proof.
  intros Hne Hn Hv Hns. apply plain_value_last in Hv as [Hnl Hlast].
  pose proof (enabled_line_matches n v Hne Hn Hnl) as Hon.
  assert (Hsplit : split1 "=" ("CONFIG_" +:+ n +:+ "=" +:+ v) = ["CONFIG_" +:+ n; v]).
  { apply (split1_at "=" ("CONFIG_" +:+ n) v), name_chars_no_eq, Hn. }
  split; [| split; [| split; [| split; [| split]]]].
  - change ("CONFIG_" +:+ n +:+ "=" +:+ v) with ("CONFIG_" +:+ (n +:+ String "=" v)).
    rewrite !contains_app, (name_chars_no_newline _ Hn). cbn [contains]. rewrite Hnl.
    reflexivity.
  - change ("CONFIG_" +:+ n +:+ "=" +:+ v) with (String "C" ("ONFIG_" +:+ n +:+ "=" +:+ v)).
    apply strip_line; [reflexivity |].
    change (String "C" ("ONFIG_" +:+ n +:+ "=" +:+ v))
      with (("CONFIG_" +:+ n) +:+ String "=" v).
    rewrite last_char_app. cbn [last_char]. destruct v as [| c v]; [reflexivity | exact Hlast].
  - unfold malformed_kconfig_line. rewrite Hon. cbn [negb]. rewrite andb_false_r. reflexivity.
  - unfold enabled_as_not_set. rewrite Hon, Hsplit. cbn [andb].
    apply String.eqb_neq, Hns.
  - unfold kconfig_option_of. rewrite Hon, Hsplit. reflexivity.
  - unfold kconfig_value_of. rewrite Hon, Hsplit. reflexivity.
Qed.

(** and of the line [# CONFIG_<n> is not set] *)
Lemma disabled_line_facts (n : string) :
  nonempty n = true -> all_chars kconfig_name_chars n = true ->
  contains LF ("# CONFIG_" +:+ n +:+ " is not set") = false
  /\ strip (("# CONFIG_" +:+ n +:+ " is not set") +:+ NL) = "# CONFIG_" +:+ n +:+ " is not set"
  /\ malformed_kconfig_line ("# CONFIG_" +:+ n +:+ " is not set") = false
  /\ enabled_as_not_set ("# CONFIG_" +:+ n +:+ " is not set") = false
  /\ kconfig_option_of ("# CONFIG_" +:+ n +:+ " is not set") = Some ("CONFIG_" +:+ n)
  /\ kconfig_value_of ("# CONFIG_" +:+ n +:+ " is not set") = "is not set".
Proof.
  intros Hne Hn.
  pose proof (disabled_line_matches n Hne Hn) as Hoff.
  assert (Hon : is_enabled_line ("# CONFIG_" +:+ n +:+ " is not set") = false).
  { destruct (is_enabled_line _) eqn:H; [| reflexivity].
    apply enabled_not_disabled in H. congruence. }
  assert (Hsplit : split1 " " (slice_from 2 ("# CONFIG_" +:+ n +:+ " is not set"))
                   = ["CONFIG_" +:+ n; "is not set"]).
  { apply (split1_at " " ("CONFIG_" +:+ n) "is not set"), name_chars_no_space, Hn. }
  split; [| split; [| split; [| split; [| split]]]].
  - rewrite !contains_app, (name_chars_no_newline _ Hn). reflexivity.
  - change ("# CONFIG_" +:+ n +:+ " is not set")
      with (String "#" (" CONFIG_" +:+ n +:+ " is not set")).
    apply strip_line; [reflexivity |].
    change (String "#" (" CONFIG_" +:+ n +:+ " is not set"))
      with (("# CONFIG_" +:+ n) +:+ String " " "is not set").
    rewrite last_char_app. reflexivity.
  - unfold malformed_kconfig_line. rewrite Hoff. cbn [negb]. apply andb_false_r.
  - unfold enabled_as_not_set. rewrite Hon. reflexivity.
  - unfold kconfig_option_of. rewrite Hon, Hoff, Hsplit. reflexivity.
  - unfold kconfig_value_of. rewrite Hon. reflexivity.
Qed.

(** what the parser makes of the line [--generate] writes for a check *)
Lemma fragment_line_facts (opt : OptCheck) :
  kconfig_name (name opt) = true -> plain_value (expected opt) = true ->
  contains LF (fragment_line opt) = false
  /\ strip (fragment_line opt +:+ NL) = fragment_line opt
  /\ malformed_kconfig_line (fragment_line opt) = false
  /\ enabled_as_not_set (fragment_line opt) = false
  /\ kconfig_option_of (fragment_line opt) = Some (name opt)
  /\ kconfig_value_of (fragment_line opt) = expected opt.
Proof.
  intros Hname Hv. destruct (kconfig_name_shape _ Hname) as (n & Hn & Hne & Hall).
  unfold fragment_line. rewrite Hn.
  destruct (String.eqb_spec (expected opt) "is not set") as [He | He].
  - rewrite He. apply (disabled_line_facts n Hne Hall).
  - apply (enabled_line_facts n (expected opt) Hne Hall Hv He).
Qed.

Lemma fragment_line_no_cr (opt : OptCheck) :
  kconfig_name (name opt) = true -> plain_value (expected opt) = true ->
  contains CR (fragment_line opt +:+ NL) = false.
Proof.
  intros Hname Hv. destruct (kconfig_name_shape _ Hname) as (n & Hn & _ & Hall).
  apply plain_value_no_cr in Hv. apply name_chars_no_cr in Hall.
  unfold fragment_line. rewrite Hn.
  destruct (String.eqb (expected opt) "is not set");
    rewrite !contains_app, ?Hall, ?Hv; reflexivity.
Qed.

Lemma generate_loop (checklist : list OptCheck) :
  for_each (fun _ opt => generate_line opt) checklist tt
  = ((fun opt => fragment_line opt +:+ NL) <$> List.filter in_fragment checklist, Done tt).
Proof.
  induction checklist as [| opt rest IH]; [reflexivity |].
  cbn [for_each List.filter]. unfold generate_line at 1, in_fragment at 1.
  change "CONFIG_ARCH_MMAP_RND_BITS" with MMAP_RND_BITS.
  destruct (String.eqb (name opt) MMAP_RND_BITS); cbn [negb andb].
  { unfold pass. rewrite bind_ret_l. exact IH. }
  destruct (String.eqb (expected opt) "is not off"); cbn [negb andb].
  { unfold pass. rewrite bind_ret_l. exact IH. }
  cbn [fmap list_fmap].
  change (list_fmap _ _ ?f ?l) with (f <$> l).
  unfold fragment_line at 1.
  destruct (String.eqb (expected opt) "is not set");
    unfold print, emit; rewrite bind_done, IH; reflexivity.
Qed.

(** ** [main]: [--print] and [--generate] *)

Section MainModes.

Variable fs : filesystem.
Context {E : Engine}.
Variable help : string.

Lemma main_check_absent (mode : option string) (a : args) :
  args_config a = None -> args_cmdline a = None -> args_sysctl a = None ->
  main_check fs mode a = pass.
Proof. intros Hc Hl Hs. unfold main_check. rewrite Hc, Hl, Hs. reflexivity. Qed.

(** X21: the report modes [--print] and [--generate] take.  [--print] goes
    with no mode, with [verbose] and with [json]; [--generate] goes with no
    mode at all.  With another mode the program exits with 'wrong mode',
    naming the mode, before the engine module is called. *)
Theorem main_rejects_modes (a : args) :
  args_config a = None -> args_cmdline a = None -> args_sysctl a = None ->
  truthy (mode_of a) = true ->
  (truthy (args_print a) = true -> truthy (args_generate a) = false ->
   in_list (the (mode_of a)) ["verbose"; "json"] = false ->
   end_ (main fs help a)
   = SysExit (ExitMsg ("[!] ERROR: wrong mode " +:+ DQ +:+ the (mode_of a) +:+ DQ
                       +:+ " for --print"))
   /\ Forall is_text (log (main fs help a)))
  /\ (args_print a = None -> truthy (args_generate a) = true ->
      end_ (main fs help a)
      = SysExit (ExitMsg ("[!] ERROR: wrong mode " +:+ DQ +:+ the (mode_of a) +:+ DQ
                          +:+ " for --generate"))
      /\ Forall is_text (log (main fs help a))).
Proof.
  intros Hc Hl Hs Hm.
  destruct (main_from_check fs help a) as (texts & Htexts & Hmain).
  apply opening_text in Htexts.
  rewrite Hmain, (main_check_absent _ _ Hc Hl Hs). unfold pass at 1.
  rewrite bind_done, bind_ret_l. cbn [log end_ fst snd].
  split.
  - intros Hp Hg Hin. unfold main_print. rewrite Hc, Hl, Hs, Hp, Hg, Hm, Hin.
    cbn [bind log end_ fst snd is_none andb negb assert_ ret pass sys_exit].
    rewrite app_nil_r. split; [reflexivity | exact Htexts].
  - intros Hp Hg. unfold main_print, main_generate. rewrite Hc, Hl, Hs, Hp, Hg, Hm.
    cbn [bind log end_ fst snd is_none andb negb assert_ ret pass sys_exit truthy app].
    rewrite app_nil_r. split; [reflexivity | exact Htexts].
Qed.

Lemma written_texts {A} (g : A -> string) (l : list A) :
  written ((fun x => Out (Text (g x))) <$> l) = map g l.
Proof.
  unfold written. induction l as [| x l IH]; [reflexivity |].
  cbn [fmap list_fmap omap list_omap map]. f_equal. exact IH.
Qed.

Lemma calls_texts {A} (g : A -> string) (l : list A) :
  calls ((fun x => Out (Text (g x))) <$> l) = [].
Proof. unfold calls. induction l as [| x l IH]; [reflexivity | exact IH]. Qed.

Lemma main_generate_run (a : args) (cl : list OptCheck) :
  args_config a = None -> args_cmdline a = None -> args_sysctl a = None ->
  args_print a = None -> truthy (args_mode a) = false ->
  truthy (args_generate a) = true ->
  add_kconfig_checks [] (the (args_generate a)) = Done cl ->
  main fs help a
  = (Call_add_kconfig_checks [] (the (args_generate a))
     :: Out (Text (("CONFIG_" +:+ the (args_generate a) +:+ "=y") +:+ NL))
     :: ((fun opt => Out (Text (fragment_line opt +:+ NL))) <$> List.filter in_fragment cl),
     SysExit (ExitCode 0)).
Proof.
  intros Hc Hl Hs Hp Hm Hg Hadd.
  unfold main, main_mode. rewrite Hm, bind_ret_l.
  rewrite (main_check_absent _ _ Hc Hl Hs).
  unfold main_announce, main_print, main_generate. rewrite Hc, Hl, Hs, Hp, Hg.
  cbn [truthy is_not is_none andb negb assert_]. unfold pass.
  rewrite !bind_ret_l. rewrite Hadd. unfold call. rewrite bind_done.
  cbn [log end_ fst snd app]. unfold print, emit, stdout. cbn [fst snd fmap list_fmap].
  rewrite bind_done. cbn [log end_ fst snd app]. rewrite generate_loop.
  cbn [fst snd]. rewrite bind_done. cbn [log end_ fst snd app]. rewrite app_nil_r.
  rewrite <- list_fmap_compose. reflexivity.
Qed.

(** X22: what [--generate] writes.  Given alone, for an architecture for
    which [add_kconfig_checks] returns, it calls [add_kconfig_checks] on the
    empty checklist and writes the line [CONFIG_<arch>=y], then one line for
    each check of the checklist, in its order, except the checks named
    [CONFIG_ARCH_MMAP_RND_BITS] and those expected to be [is not off]: the
    line is [# <name> is not set] for a check expected to be [is not set]
    and [<name>=<expected>] for any other.  It makes no other call, and
    exits with status 0. *)
Theorem main_generate_fragment (a : args) (cl : list OptCheck) :
  args_config a = None -> args_cmdline a = None -> args_sysctl a = None ->
  args_print a = None -> truthy (args_mode a) = false ->
  truthy (args_generate a) = true ->
  add_kconfig_checks [] (the (args_generate a)) = Done cl ->
  end_ (main fs help a) = SysExit (ExitCode 0)
  /\ calls (log (main fs help a)) = [Call_add_kconfig_checks [] (the (args_generate a))]
  /\ written (log (main fs help a))
     = (("CONFIG_" +:+ the (args_generate a) +:+ "=y") +:+ NL)
       :: map (fun opt => fragment_line opt +:+ NL) (List.filter in_fragment cl)
  /\ (forall opt, In opt cl ->
        name opt = MMAP_RND_BITS \/ expected opt = "is not off" ->
        in_fragment opt = false)
  /\ (forall opt, expected opt = "is not set" ->
        fragment_line opt = "# " +:+ name opt +:+ " is not set")
  /\ (forall opt, expected opt <> "is not set" ->
        fragment_line opt = name opt +:+ "=" +:+ expected opt).
Proof.
  intros Hc Hl Hs Hp Hm Hg Hadd.
  rewrite (main_generate_run a cl Hc Hl Hs Hp Hm Hg Hadd). cbn [log end_ fst snd].
  split; [reflexivity |]. split; [| split; [| split; [| split]]].
  - change (calls (?c :: Out ?o :: ?l)) with (c :: calls l).
    rewrite (calls_texts (fun opt => fragment_line opt +:+ NL)). reflexivity.
  - change (written (?c :: Out (Text ?s) :: ?l)) with (s :: written l).
    rewrite (written_texts (fun opt => fragment_line opt +:+ NL)). reflexivity.
  - intros opt _ [H | H]; unfold in_fragment; rewrite H.
    + rewrite String.eqb_refl. reflexivity.
    + rewrite String.eqb_refl. apply andb_false_r.
  - intros opt H. unfold fragment_line. rewrite H. reflexivity.
  - intros opt H. unfold fragment_line. apply String.eqb_neq in H. rewrite H. reflexivity.
Qed.

(** X23: the fragment [--generate] writes is a Kconfig file
    [parse_kconfig_file] takes, and parsing it gives back what the checks
    expect.  Let the architecture and the checks written have names the
    parser takes ([CONFIG_] and letters, digits or underscores), all
    different, and expected values without a newline, without a carriage
    return and without whitespace at their end.  Then a file that holds
    what [main] wrote, read as text with its newlines translated, is parsed
    to the end, from the empty mapping, and the mapping returned gives
    [CONFIG_<arch>] the value [y] and every check written its expected
    value, [is not set] included. *)
Theorem generate_parses_back (a : args) (cl : list OptCheck)
  (fs' : filesystem) (mode : option string) (fname : string) (f : file) :
  args_config a = None -> args_cmdline a = None -> args_sysctl a = None ->
  args_print a = None -> truthy (args_mode a) = false ->
  truthy (args_generate a) = true ->
  add_kconfig_checks [] (the (args_generate a)) = Done cl ->
  kconfig_name ("CONFIG_" +:+ the (args_generate a)) = true ->
  Forall (fun opt => kconfig_name (name opt) = true /\ plain_value (expected opt) = true)
         (List.filter in_fragment cl) ->
  NoDup (("CONFIG_" +:+ the (args_generate a)) :: map name (List.filter in_fragment cl)) ->
  fs' fname = Some f ->
  text f = universal_newlines (joined (written (log (main fs help a)))) ->
  exists m,
    end_ (parse_kconfig_file fs' mode ∅ fname) = Done m
    /\ m !! ("CONFIG_" +:+ the (args_generate a)) = Some "y"
    /\ forall opt, In opt cl -> in_fragment opt = true ->
         m !! name opt = Some (expected opt).
Proof.
  intros Hc Hl Hs Hp Hm Hg Hadd Harch Hcl Hnd Hf Htext.
  rewrite (main_generate_run a cl Hc Hl Hs Hp Hm Hg Hadd) in Htext. cbn [log fst] in Htext.
  set (arch := the (args_generate a)) in *.
  set (shown := List.filter in_fragment cl) in *.
  set (lines := ("CONFIG_" +:+ arch +:+ "=y") :: map fragment_line shown).
  assert (Hw : written (Call_add_kconfig_checks [] arch
                        :: Out (Text (("CONFIG_" +:+ arch +:+ "=y") +:+ NL))
                        :: ((fun opt => Out (Text (fragment_line opt +:+ NL))) <$> shown))
               = map (fun l => l +:+ NL) lines).
  { change (written (?c :: Out (Text ?s) :: ?l)) with (s :: written l).
    rewrite (written_texts (fun opt => fragment_line opt +:+ NL)).
    unfold lines. cbn [map]. rewrite map_map. reflexivity. }
  rewrite Hw in Htext.
  destruct (kconfig_name_shape _ Harch) as (n & Hn & Hne & Hall).
  assert (Hn' : n = arch).
  { apply (f_equal (slice_from (String.length "CONFIG_"))) in Hn.
    rewrite !slice_from_app in Hn. congruence. }
  subst n.
  destruct (enabled_line_facts arch "y" Hne Hall eq_refl ltac:(discriminate))
    as (Ha1 & Ha2 & Ha3 & Ha4 & Ha5 & Ha6).
  change ("=" +:+ "y") with "=y" in Ha1, Ha2, Ha3, Ha4, Ha5, Ha6.
  assert (Hfacts : Forall (fun opt =>
            contains LF (fragment_line opt) = false
            /\ strip (fragment_line opt +:+ NL) = fragment_line opt
            /\ malformed_kconfig_line (fragment_line opt) = false
            /\ enabled_as_not_set (fragment_line opt) = false
            /\ kconfig_option_of (fragment_line opt) = Some (name opt)
            /\ kconfig_value_of (fragment_line opt) = expected opt) shown).
  { eapply List.Forall_impl; [| exact Hcl]. cbn. intros opt [H1 H2].
    apply fragment_line_facts; assumption. }
  assert (Hcr : contains CR (joined (map (fun l => l +:+ NL) lines)) = false).
  { apply contains_joined. unfold lines. cbn [map]. constructor.
    - rewrite !contains_app, (name_chars_no_cr _ Hall). reflexivity.
    - apply List.Forall_forall. intros l Hin.
      apply in_map_iff in Hin as (l' & <- & Hl'). apply in_map_iff in Hl' as (opt & <- & Hopt).
      rewrite List.Forall_forall in Hcl. destruct (Hcl opt Hopt) as [H1 H2].
      apply fragment_line_no_cr; assumption. }
  rewrite (universal_newlines_id _ Hcr) in Htext.
  assert (Hlines : readlines (text f) = map (fun l => l +:+ NL) lines).
  { rewrite Htext. apply readlines_joined. constructor; [exact Ha1 |].
    apply List.Forall_forall. intros l Hin. apply in_map_iff in Hin as (opt & <- & Hopt).
    rewrite List.Forall_forall in Hfacts. apply (Hfacts opt Hopt). }
  assert (Hopts : kconfig_options (map (fun l => l +:+ NL) lines)
                  = ("CONFIG_" +:+ arch) :: map name shown).
  { unfold kconfig_options, lines. cbn [map omap list_omap]. rewrite Ha2, Ha5. f_equal.
    clear -Hfacts. induction Hfacts as [| opt l (_ & H2 & _ & _ & H5 & _) _ IH];
      [reflexivity |].
    cbn [map omap list_omap]. rewrite H2, H5. f_equal. exact IH. }
  assert (Hok : Forall (fun l => kconfig_line_ok l = true) (map (fun l => l +:+ NL) lines)).
  { unfold lines. cbn [map]. constructor.
    - unfold kconfig_line_ok. rewrite Ha2, Ha3, Ha4. reflexivity.
    - apply List.Forall_forall. intros l Hin.
      apply in_map_iff in Hin as (l' & <- & Hl'). apply in_map_iff in Hl' as (opt & <- & Hopt).
      rewrite List.Forall_forall in Hfacts.
      destruct (Hfacts opt Hopt) as (_ & H2 & H3 & H4 & _).
      unfold kconfig_line_ok. rewrite H2, H3, H4. reflexivity. }
  exists (fold_left kconfig_step (map (fun l => l +:+ NL) lines) ∅).
  split; [| split].
  - unfold parse_kconfig_file. rewrite (open_found _ _ _ Hf), bind_ret_l, Hlines.
    rewrite parse_kconfig_lines_spec; [reflexivity | exact Hok | rewrite Hopts; exact Hnd |].
    intros o _. apply lookup_empty.
  - pose proof (kconfig_steps_line (map (fun l => l +:+ NL) lines) ∅
                  (("CONFIG_" +:+ arch +:+ "=y") +:+ NL) ("CONFIG_" +:+ arch)) as H.
    rewrite Hopts, Ha2, Ha6 in H. apply H; [exact Hnd | left; reflexivity | exact Ha5].
  - intros opt Hin Hshown.
    assert (Hopt : In opt shown) by (apply filter_In; auto).
    rewrite List.Forall_forall in Hfacts.
    destruct (Hfacts opt Hopt) as (_ & H2 & _ & _ & H5 & H6).
    pose proof (kconfig_steps_line (map (fun l => l +:+ NL) lines) ∅
                  (fragment_line opt +:+ NL) (name opt)) as H.
    rewrite Hopts, H2, H6 in H. apply H; [exact Hnd | | exact H5].
    right. apply in_map_iff. exists (fragment_line opt). split; [reflexivity |].
    apply in_map. exact Hopt.
Qed.

End MainModes.

(** ** Runs of [main] *)

Lemma never_returns_witness :
  failed (end_ (main (E := Sample.engine) Sample.fs "usage" Cli.bare)).
Proof.
  apply (never_returns (E := Sample.engine) Sample.fs "usage" None None None None None Cli.bare).
Defined.

Lemma main_rejects_conflicts_witness :
  end_ (main (E := Sample.engine) Sample.fs "usage" Cli.cmdline_only)
  = SysExit (ExitMsg "[!] ERROR: checking cmdline depends on checking Kconfig").
Proof.
  destruct (main_rejects_conflicts (E := Sample.engine) Sample.fs "usage" Cli.cmdline_only)
    as (_ & _ & H & _).
  destruct (H eq_refl eq_refl) as [Hend _]. exact Hend.
Defined.

Lemma main_needs_kernel_version_witness :
  end_ (main (E := Sample.engine) Sample.fs "usage" Cli.no_version)
  = SysExit (ExitMsg "[!] ERROR: no kernel version detected").
Proof.
  destruct (main_needs_kernel_version (E := Sample.engine) Sample.fs "usage" Cli.no_version
              "no kernel version detected" eq_refl eq_refl eq_refl) as [H _].
  - vm_compute. reflexivity.
  - exact H.
Defined.

Lemma main_rejects_modes_witness :
  end_ (main (E := Sample.engine) Sample.fs "usage" Cli.print_show_ok)
  = SysExit (ExitMsg ("[!] ERROR: wrong mode " +:+ DQ +:+ "show_ok" +:+ DQ +:+ " for --print")).
Proof.
  destruct (main_rejects_modes (E := Sample.engine) Sample.fs "usage" Cli.print_show_ok
              eq_refl eq_refl eq_refl eq_refl) as [H _].
  destruct (H eq_refl eq_refl eq_refl) as [Hend _]. exact Hend.
Defined.

Lemma main_generate_fragment_witness :
  written (log (main (E := Sample.engine) Sample.fs "usage" Cli.generate))
  = ["CONFIG_X86_64=y" +:+ NL; "CONFIG_BUG=y" +:+ NL].
Proof.
  destruct (main_generate_fragment (E := Sample.engine) Sample.fs "usage" Cli.generate
              Sample.kconfig_checks eq_refl eq_refl eq_refl eq_refl eq_refl eq_refl eq_refl)
    as (_ & _ & H & _).
  rewrite H. vm_compute. reflexivity.
Defined.

Lemma generate_parses_back_witness :
  exists m,
    end_ (parse_kconfig_file Cli.fs None ∅ "fragment") = Done m
    /\ m !! "CONFIG_X86_64" = Some "y"
    /\ m !! "CONFIG_BUG" = Some "y".
Proof.
  destruct (generate_parses_back (E := Sample.engine) Sample.fs "" Cli.generate
              Sample.kconfig_checks Cli.fs None "fragment"
              (Sample.plain
                 (universal_newlines
                    (joined (written (log (main (E := Sample.engine) Sample.fs ""
                                             Cli.generate)))))))
    as (m & Hm & Harch & Hcl).
  - reflexivity.
  - reflexivity.
  - reflexivity.
  - reflexivity.
  - reflexivity.
  - reflexivity.
  - reflexivity.
  - vm_compute. reflexivity.
  - apply List.Forall_forall. intros opt Hin. vm_compute in Hin.
    destruct Hin as [<- | []]. split; vm_compute; reflexivity.
  - assert (Hl : ("CONFIG_" +:+ the (args_generate Cli.generate))
                 :: map name (List.filter in_fragment Sample.kconfig_checks)
                 = ["CONFIG_X86_64"; "CONFIG_BUG"]) by (vm_compute; reflexivity).
    rewrite Hl. apply NoDup_cons. split; [| apply NoDup_singleton].
    rewrite list_elem_of_In. intros [H | []]. discriminate H.
  - reflexivity.
  - reflexivity.
  - exists m. split; [exact Hm |]. split; [exact Harch |].
    apply (Hcl (Sample.mk "CONFIG_BUG" "kconfig" "y")); [left; reflexivity | reflexivity].
Defined.

Lemma perform_checking_json_output_witness :
  json_log (log (parse_kconfig_file Sample.fs (Some "json") ∅ "config-min"))
    (log (perform_checking (E := Sample.engine) Sample.fs (Some "json") None
            (Some "config-min") None None)).
Proof.
  apply (perform_checking_json_output Sample.fs (E := Sample.engine) (Some "json") None
           (Some "config-min") None None eq_refl).
Defined.

(** ** The checklist and the data, through the driver *)

Lemma bind_pass {L B} (k : unit -> W L B) : bind pass k = k tt.
Proof. apply (bind_ret_l tt). Qed.

Lemma bind_sys_exit {L A B} (msg : string) (k : A -> W L B) :
  bind (sys_exit msg) k = sys_exit msg.
Proof. reflexivity. Qed.

Lemma bind_raise {L A B} (e : exn) (k : A -> W L B) : bind (raise e) k = raise e.
Proof. reflexivity. Qed.

Lemma calls_app (l1 l2 : list event) : calls (l1 ++ l2) = calls l1 ++ calls l2.
Proof. apply List.filter_app. Qed.

Lemma calls_stdout {A} (m : W string A) : calls (log (stdout m)) = [].
Proof.
  unfold stdout, log. cbn [fst]. induction (fst m) as [| s l IH]; [reflexivity | exact IH].
Qed.

Lemma calls_lift {A} (m : W out A) : calls (log (lift m)) = [].
Proof.
  unfold lift, log. cbn [fst]. induction (fst m) as [| s l IH]; [reflexivity | exact IH].
Qed.

(** brings the computation of the goal to the form [bind leaf k] *)
Ltac flatten :=
  repeat first
    [ rewrite bind_assoc
    | rewrite bind_ret_l
    | rewrite (bind_pass (L := event))
    | rewrite (bind_sys_exit (L := event))
    | rewrite (bind_raise (L := event))
    | progress cbv beta zeta
    | match goal with
      | |- context [log (bind (if ?b then _ else _) _)] => destruct b eqn:?
      | |- context [log (bind (match ?x with _ => _ end) _)] => destruct x eqn:?
      | |- context [log (bind (assert_ _ _) _)] => unfold assert_ at 1
      | |- context [log (if ?b then _ else _)] => destruct b eqn:?
      | |- context [log (match ?x with _ => _ end)] => destruct x eqn:?
      end ].

Section Threading.

Variable fs : filesystem.
Context {E : Engine}.

(** a computation that calls nothing *)
Lemma threaded_past {A B} (cl : list OptCheck) (m : W event A) (k : A -> W event B) :
  calls (log m) = [] ->
  (forall a, end_ m = Done a -> threaded cl (calls (log (k a)))) ->
  threaded cl (calls (log (bind m k))).
Proof.
  intros Hm Hk. rewrite bind_log, calls_app, Hm. cbn [app].
  destruct (end_ m) as [a | e | e]; [apply Hk; reflexivity | exact I | exact I].
Qed.

(** a call *)
Lemma threaded_call {A B} (cl : list OptCheck) (e : event) (r : outcome A)
  (k : A -> W event B) :
  given e = Some cl ->
  (forall a, r = Done a ->
     exists cl', handed_on e = Done cl' /\ threaded cl' (calls (log (k a)))) ->
  threaded cl (calls (log (bind (call e r) k))).
Proof.
  intros He Hk. rewrite bind_log. unfold call at 1 2. cbn [log end_ fst snd app].
  assert (Hc : calls (e :: match r with Done a => log (k a) | _ => [] end)
               = e :: calls (match r with Done a => log (k a) | _ => [] end)).
  { unfold calls. cbn [List.filter]. destruct e; try reflexivity. discriminate He. }
  change (log (k ?a)) with (fst (k a)) in Hc. unfold log. rewrite Hc. cbn [threaded].
  split; [exact He |].
  destruct r as [a | x | x]; [| left; reflexivity | left; reflexivity].
  right. destruct (Hk a eq_refl) as (cl' & H1 & H2). exists cl'. split; assumption.
Qed.

Lemma threaded_nothing {A} (cl : list OptCheck) (m : W event A) :
  log m = [] -> threaded cl (calls (log m)).
Proof. intros ->. exact I. Qed.

(** what [threaded] says of two calls in a row *)
Lemma threaded_next (cl : list OptCheck) (pre : list event) (e1 e2 : event)
  (post : list event) :
  threaded cl (pre ++ e1 :: e2 :: post) ->
  exists cl', handed_on e1 = Done cl' /\ given e2 = Some cl'.
Proof.
  revert cl. induction pre as [| x pre IH]; intros cl; cbn [app threaded].
  - intros [_ [H | (cl' & H1 & H2 & _)]]; [discriminate H |]. exists cl'. auto.
  - intros [_ [H | (cl' & _ & H2)]]; [destruct pre; discriminate H |].
    apply (IH cl'). exact H2.
Qed.

Ltac thread_call :=
  apply threaded_call;
  [ reflexivity
  | let a := fresh "cl" in
    let H := fresh "H" in
    intros a H; eexists; split;
    [ cbn [handed_on]; rewrite ?H; reflexivity | cbv beta iota ] ].

Ltac thread_walk :=
  repeat first
    [ apply threaded_nothing; reflexivity
    | progress flatten
    | apply threaded_past; [first [apply calls_stdout | apply calls_lift] | intros ? ?]
    | thread_call ].

Lemma driver_build_threaded {B} mode version kconfig cmdline sysctl
  (k : list OptCheck -> W event B) :
  (forall cl, threaded cl (calls (log (k cl)))) ->
  threaded [] (calls (log (bind (driver_build fs mode version kconfig cmdline sysctl) k))).
Proof.
  intros Hk. unfold driver_build. thread_walk; apply Hk.
Qed.

Lemma driver_kconfig_threaded {B} mode kconfig cl
  (k : list OptCheck * gmap string string -> W event B) :
  (forall st, threaded (fst st) (calls (log (k st)))) ->
  threaded cl (calls (log (bind (driver_kconfig fs mode kconfig cl) k))).
Proof.
  intros Hk. unfold driver_kconfig. flatten; [| apply (Hk (cl, ∅))].
  apply threaded_past; [apply calls_stdout | intros m _]. flatten.
  apply threaded_call; [reflexivity | intros cl' Hcl']. cbn [handed_on before_removal].
  rewrite Hcl'. change (String.eqb "kconfig" "kconfig") with true. cbn [andb].
  change MMAP_RND_BITS_MAX with "CONFIG_ARCH_MMAP_RND_BITS_MAX".
  eexists. split; [reflexivity |].
  destruct (truthy (m !! "CONFIG_ARCH_MMAP_RND_BITS_MAX")); cbn [negb].
  - thread_walk. apply (Hk (_, m)).
  - thread_walk; apply (Hk (_, m)).
Qed.

Lemma driver_report_threaded mode kconfig cmdline sysctl st :
  threaded (fst st) (calls (log (driver_report fs mode kconfig cmdline sysctl st))).
Proof.
  destruct st as [cl pk]. unfold driver_report. cbn [fst]. thread_walk.
Qed.

Lemma perform_checking_threaded mode version kconfig cmdline sysctl :
  threaded [] (calls (log (perform_checking fs mode version kconfig cmdline sysctl))).
Proof.
  rewrite perform_checking_parts.
  apply driver_build_threaded. intros cl.
  apply driver_kconfig_threaded. intros st.
  apply driver_report_threaded.
Qed.

(** X24: the checklist is handed from call to call.  The first call of the
    engine module in a run of [perform_checking] is given the empty
    checklist; every later call is given the checklist the call before it
    left: what that call returned, or, after the population with Kconfig
    data that have no [CONFIG_ARCH_MMAP_RND_BITS_MAX], what it returned
    without the checks of [CONFIG_ARCH_MMAP_RND_BITS].  A call that fails is
    the last one. *)
Theorem perform_checking_hands_checklist_on (mode : option string)
  (version : option (list N)) (kconfig cmdline sysctl : option string) :
  (forall e rest,
     calls (log (perform_checking fs mode version kconfig cmdline sysctl)) = e :: rest ->
     given e = Some [])
  /\ (forall pre e1 e2 post,
        calls (log (perform_checking fs mode version kconfig cmdline sysctl))
        = pre ++ e1 :: e2 :: post ->
        exists cl, handed_on e1 = Done cl /\ given e2 = Some cl).
Proof.
  pose proof (perform_checking_threaded mode version kconfig cmdline sysctl) as H.
  split.
  - intros e rest Hl. rewrite Hl in H. apply H.
  - intros pre e1 e2 post Hl. rewrite Hl in H. apply (threaded_next [] pre e1 e2 post H).
Qed.

End Threading.

Lemma perform_checking_hands_checklist_on_witness :
  exists cl,
    handed_on (E := Sample.engine) (Call_add_kconfig_checks [] "X86_64") = Done cl
    /\ given (Call_populate_with_data Sample.kconfig_checks
                (Options Sample.min_options) "kconfig") = Some cl.
Proof.
  destruct (perform_checking_hands_checklist_on (E := Sample.engine) Sample.fs
              (Some "json") None (Some "config-min") None None) as [_ H].
  apply (H [] _ _
           (skipn 2 (calls (log (perform_checking (E := Sample.engine) Sample.fs
                                   (Some "json") None (Some "config-min") None None))))).
  vm_compute. reflexivity.
Defined.

(** ** Where the data of the engine come from *)

Lemma end_stdout {A} (m : W string A) : end_ (stdout m) = end_ m.
Proof. reflexivity. Qed.

Lemma flow_past {L A B} (P : L -> Prop) (m : W L A) (k : A -> W L B) :
  Forall P (log m) ->
  (forall a, end_ m = Done a -> Forall P (log (k a))) ->
  Forall P (log (bind m k)).
Proof.
  intros Hm Hk. rewrite bind_log. apply Forall_app. split; [exact Hm |].
  destruct (end_ m) as [a | e | e]; [apply Hk; reflexivity | constructor | constructor].
Qed.

Lemma flow_out {A} (P : event -> Prop) (m : W string A) :
  (forall o, P (Out o)) -> Forall P (log (stdout m)).
Proof.
  intros HP. unfold stdout, log. cbn [fst]. apply List.Forall_forall. intros e He.
  apply list_elem_of_In, list_elem_of_fmap in He as (s & -> & _). apply HP.
Qed.

Lemma flow_lift {A} (P : event -> Prop) (m : W out A) :
  (forall o, P (Out o)) -> Forall P (log (lift m)).
Proof.
  intros HP. unfold lift, log. cbn [fst]. apply List.Forall_forall. intros e He.
  apply list_elem_of_In, list_elem_of_fmap in He as (s & -> & _). apply HP.
Qed.

Lemma flow_call {A} (P : event -> Prop) (e : event) (r : outcome A) :
  P e -> Forall P (log (call e r)).
Proof. intros He. repeat constructor. exact He. Qed.

Section DataFlow.

Variable fs : filesystem.
Context {E : Engine}.

Ltac flow_leaf :=
  cbn [from_parsers]; unfold parsed_from;
  repeat match goal with
    | H : is_ _ "verbose" = true |- _ => apply is_exactly in H
    end;
  first
    [ exact I
    | match goal with
      | H : truthy_tuple ?v = true |- _ =>
          destruct v as [[| ? ?] |]; try discriminate H;
          repeat split; discriminate
      end
    | solve [auto 8] ].

Ltac flow_walk :=
  repeat first
    [ apply List.Forall_nil
    | progress flatten
    | apply flow_past;
      [ first [ apply flow_out; intros ?; exact I
              | apply flow_lift; intros ?; exact I
              | apply flow_call; flow_leaf ]
      | let a := fresh "a" in
        let H := fresh "H" in
        intros a H; try rewrite end_stdout in H ] ].

Lemma driver_build_flow {B} mode version kconfig cmdline sysctl
  (k : list OptCheck -> W event B) :
  (forall cl, Forall (from_parsers fs mode version kconfig cmdline sysctl) (log (k cl))) ->
  Forall (from_parsers fs mode version kconfig cmdline sysctl)
    (log (bind (driver_build fs mode version kconfig cmdline sysctl) k)).
Proof.
  intros Hk. unfold driver_build. flow_walk; apply Hk.
Qed.

Lemma driver_kconfig_flow {B} mode version kconfig cmdline sysctl cl
  (k : list OptCheck * gmap string string -> W event B) :
  (forall st,
     (truthy kconfig = true ->
      end_ (parse_kconfig_file fs mode ∅ (the kconfig)) = Done (snd st)) ->
     Forall (from_parsers fs mode version kconfig cmdline sysctl) (log (k st))) ->
  Forall (from_parsers fs mode version kconfig cmdline sysctl)
    (log (bind (driver_kconfig fs mode kconfig cl) k)).
Proof.
  intros Hk. unfold driver_kconfig. flow_walk; apply Hk; cbn [snd]; auto; discriminate.
Qed.

Lemma driver_report_flow mode version kconfig cmdline sysctl st :
  (truthy kconfig = true ->
   end_ (parse_kconfig_file fs mode ∅ (the kconfig)) = Done (snd st)) ->
  Forall (from_parsers fs mode version kconfig cmdline sysctl)
    (log (driver_report fs mode kconfig cmdline sysctl st)).
Proof.
  destruct st as [cl pk]. cbn [snd]. intros Hpk. unfold driver_report. flow_walk.
Qed.

(** X25: the engine works on the data of the run and on nothing else.  In a
    run of [perform_checking] every [populate_with_data] is given either the
    version the driver was called with, under the type [version], or the
    mapping that the parser for the type of the data ([kconfig], [cmdline],
    [sysctl]) returned for the file of that type, from the empty mapping;
    every [print_unknown_options] is given such a mapping too, under the type
    of its parser, and is called in mode [verbose] only. *)
Theorem perform_checking_feeds_parsed_data (mode : option string)
  (version : option (list N)) (kconfig cmdline sysctl : option string) :
  Forall (from_parsers fs mode version kconfig cmdline sysctl)
    (log (perform_checking fs mode version kconfig cmdline sysctl)).
Proof.
  rewrite perform_checking_parts.
  apply driver_build_flow. intros cl.
  apply driver_kconfig_flow. intros st Hst.
  apply driver_report_flow. exact Hst.
Qed.

End DataFlow.

Lemma perform_checking_feeds_parsed_data_witness :
  from_parsers Sample.fs (E := Sample.engine) (Some "json") None (Some "config-min") None None
    (Call_populate_with_data Sample.kconfig_checks (Options Sample.min_options) "kconfig").
Proof.
  pose proof (perform_checking_feeds_parsed_data (E := Sample.engine) Sample.fs
                (Some "json") None (Some "config-min") None None) as H.
  rewrite List.Forall_forall in H. apply H. vm_compute. right. left. reflexivity.
Defined.

(** ** The fields of a version line *)

Lemma fields_cons (sep : ascii -> bool) (s : string) :
  exists w ws, fields sep s = w :: ws.
Proof.
  destruct s as [| c s]; cbn [fields]; [eauto |].
  destruct (sep c); [eauto |]. destruct (fields sep s); eauto.
Qed.

(** cutting a string at a separator cuts the list of its fields *)
Lemma fields_app (sep : ascii -> bool) (a : string) (c : ascii) (b : string) :
  sep c = true ->
  fields sep (a +:+ String c b) = fields sep a ++ fields sep b.
Proof.
  intros Hc. induction a as [| x a IH].
  - rewrite app_nil. cbn [fields app]. rewrite Hc. reflexivity.
  - rewrite app_cons. cbn [fields]. rewrite IH.
    destruct (sep x); [reflexivity |].
    destruct (fields_cons sep a) as (w & ws & ->). reflexivity.
Qed.

Lemma split_ws_app (a : string) (c : ascii) (b : string) :
  isspace c = true -> split_ws (a +:+ String c b) = split_ws a ++ split_ws b.
Proof.
  intros Hc. unfold split_ws. rewrite (fields_app _ _ _ _ Hc). apply List.filter_app.
Qed.

(** a string of whitespace has no field, any other string has one *)
Lemma split_ws_blank (s : string) : all_chars isspace s = true -> split_ws s = [].
Proof.
  unfold split_ws. induction s as [| c s IH]; [reflexivity |].
  cbn [all_chars fields]. intros H. apply andb_prop in H as [Hc Hs].
  rewrite Hc. cbn [List.filter nonempty]. apply IH, Hs.
Qed.

Lemma split_ws_word (s : string) :
  all_chars isspace s = false -> exists w ws, split_ws s = w :: ws.
Proof.
  unfold split_ws. induction s as [| c s IH]; [discriminate |].
  cbn [all_chars fields]. destruct (isspace c); cbn [andb].
  - intros Hs. cbn [List.filter nonempty]. apply IH, Hs.
  - intros _. destruct (fields_cons isspace s) as (w & ws & ->).
    cbn [List.filter nonempty]. eauto.
Qed.

(** [split] without an argument does not see the whitespace [strip] removes *)
Lemma split_ws_lstrip (s : string) : split_ws (lstrip s) = split_ws s.
Proof.
  unfold split_ws. induction s as [| c s IH]; [reflexivity |].
  cbn [lstrip]. destruct (isspace c) eqn:Hc; [| reflexivity].
  rewrite IH. cbn [fields]. rewrite Hc. reflexivity.
Qed.

Lemma fields_rstrip (s : string) :
  exists k, fields isspace s = fields isspace (rstrip s) ++ repeat "" k.
Proof.
  induction s as [| c s [k IH]]; [exists 0; reflexivity |].
  cbn [rstrip fields]. destruct (isspace c) eqn:Hc.
  - destruct (rstrip s) as [| d r] eqn:Hr.
    + exists (S k). rewrite IH. reflexivity.
    + exists k. rewrite IH. cbn [fields]. rewrite Hc. reflexivity.
  - assert (Hcons : match rstrip s with
                    | "" => String c ""
                    | String d r => String c (String d r)
                    end = String c (rstrip s)) by (destruct (rstrip s); reflexivity).
    rewrite Hcons. cbn [fields]. rewrite Hc, IH.
    destruct (fields_cons isspace (rstrip s)) as (w & ws & ->). exists k. reflexivity.
Qed.

Lemma split_ws_rstrip (s : string) : split_ws (rstrip s) = split_ws s.
Proof.
  unfold split_ws. destruct (fields_rstrip s) as [k ->].
  rewrite List.filter_app.
  assert (Hk : List.filter nonempty (repeat "" k) = []).
  { induction k as [| k IH]; [reflexivity | exact IH]. }
  rewrite Hk, app_nil_r. reflexivity.
Qed.

Lemma split_ws_strip (s : string) : split_ws (strip s) = split_ws s.
Proof. unfold strip. rewrite split_ws_lstrip. apply split_ws_rstrip. Qed.

(** a line in the form of [/proc/version] has a third field unless only
    whitespace follows [Linux version ] *)
Lemma third_field_proc_version (line : string) :
  startswith "Linux version " line = true ->
  third_field line = hd_error (split_ws (slice_from 14 line)).
Proof.
  intros H. apply startswith_cut in H. unfold third_field. rewrite split_ws_strip.
  change (String.length "Linux version ") with 14 in H. rewrite H at 1.
  change ("Linux version " +:+ slice_from 14 line)
    with ("Linux" +:+ String " " ("version" +:+ String " " (slice_from 14 line))).
  rewrite !split_ws_app by reflexivity.
  change (split_ws "Linux") with ["Linux"]. change (split_ws "version") with ["version"].
  cbn [app nth_error]. destruct (split_ws (slice_from 14 line)); reflexivity.
Qed.

(** the header of a Kconfig file always has one *)
Lemma third_field_header (line : string) :
  matched (match_ (cat [Bol; Lit "# Linux/"; Plus dot; Lit " Kernel Configuration"; Eol]) line)
  = true ->
  exists field, third_field line = Some field.
Proof.
  unfold match_. cbn [cat foldr].
  change (rmatch (Seq Bol (Seq (Lit "# Linux/") ?r)) 0 line [] accept)
    with (lit_k "# Linux/" 0 line [] (fun pos' s' caps' => rmatch r pos' s' caps' accept)).
  rewrite lit_k_spec.
  destruct (startswith "# Linux/" line) eqn:Hs; [| discriminate].
  apply startswith_cut in Hs. change (String.length "# Linux/") with 8 in *.
  destruct (rmatch _ _ (slice_from 8 line) [] accept) as [res |] eqn:Hm; [| discriminate].
  intros _.
  apply (plus_run dot (fun rest => startswith " Kernel Configuration" rest = true)) in Hm.
  - destruct Hm as (n & rest & Hcut & _ & _ & Hrest).
    apply startswith_cut in Hrest.
    change (String.length " Kernel Configuration") with 21 in Hrest.
    unfold third_field. rewrite split_ws_strip, Hs, Hcut, Hrest.
    rewrite <- (append_assoc n).
    change ("# Linux/" +:+ (n +:+ " Kernel Configuration") +:+ slice_from 21 rest)
      with ("#" +:+ String " " ("Linux/" +:+ (n +:+ " Kernel Configuration")
                                +:+ slice_from 21 rest)).
    rewrite (split_ws_app "#") by reflexivity.
    rewrite <- (append_assoc "Linux/").
    rewrite <- (append_assoc "Linux/" n).
    rewrite (append_assoc ("Linux/" +:+ n)).
    change (" Kernel Configuration" +:+ slice_from 21 rest)
      with (String " " ("Kernel" +:+ String " " ("Configuration" +:+ slice_from 21 rest))).
    rewrite (split_ws_app ("Linux/" +:+ n)) by reflexivity.
    rewrite (split_ws_app "Kernel") by reflexivity.
    change (split_ws "#") with ["#"]. change (split_ws "Kernel") with ["Kernel"].
    destruct (split_ws_word ("Linux/" +:+ n) eq_refl) as (w & ws & ->).
    cbn [app nth_error]. destruct ws as [| w' ws]; cbn [app nth_error]; eauto.
  - intros pos s caps r.
    change (rmatch (Seq (Lit " Kernel Configuration") ?r) pos s caps accept)
      with (lit_k " Kernel Configuration" pos s caps
              (fun pos' s' caps' => rmatch r pos' s' caps' accept)).
    apply lit_k_startswith.
Qed.

Lemma version_line_cases (line : string) :
  is_version_line line = true ->
  (exists field, third_field line = Some field)
  \/ startswith "Linux version " line = true.
Proof.
  unfold is_version_line, ver_pattern, match_. cbn [rmatch].
  destruct (rmatch (cat [Bol; Lit "# Linux/"; Plus dot; Lit " Kernel Configuration"; Eol])
              0 line [] accept) as [r |] eqn:Ha.
  - intros _. left. apply third_field_header. unfold match_. rewrite Ha. reflexivity.
  - cbn [cat foldr rmatch Nat.eqb].
    destruct (lit_k "Linux version " _ _ _ _) as [r |] eqn:Hb; [| discriminate].
    intros _. right. eapply lit_k_startswith, Hb.
Qed.

Lemma hd_error_none {A} (l : list A) : hd_error l = None <-> l = [].
Proof. destruct l; split; intros H; try reflexivity; discriminate H. Qed.

Lemma third_field_missing (line : string) :
  is_version_line line = true ->
  (third_field line = None
   <-> startswith "Linux version " line = true
       /\ all_chars isspace (slice_from 14 line) = true).
Proof.
  intros Hline. split.
  - intros Hnone. destruct (version_line_cases line Hline) as [[field Hf] | Hs];
      [congruence |].
    split; [exact Hs |]. rewrite (third_field_proc_version line Hs) in Hnone.
    apply hd_error_none in Hnone.
    destruct (all_chars isspace (slice_from 14 line)) eqn:Hall; [reflexivity |].
    destruct (split_ws_word _ Hall) as (w & ws & Hw). congruence.
  - intros [Hs Hall]. rewrite (third_field_proc_version line Hs).
    rewrite (split_ws_blank _ Hall). reflexivity.
Qed.

Lemma detect_kernel_version_line_end (line : string) :
  end_ (detect_kernel_version_line line)
  = match third_field line with
    | Some field =>
        if well_formed_version field
        then if convertible_version field
             then Done (Some (map decimal_value (version_numbers field)), "OK")
             else Raised ValueError
        else Done (None, "failed to parse the version " +:+ DQ +:+ field +:+ DQ)
    | None => Raised IndexError
    end.
Proof.
  destruct (third_field line) as [field |] eqn:Hf.
  - rewrite (detect_kernel_version_line_field line field Hf). reflexivity.
  - unfold detect_kernel_version_line, index at 1. unfold third_field in Hf.
    rewrite Hf. reflexivity.
Qed.

(** the two ways a version line makes the detector raise *)
Lemma detect_kernel_version_line_raised (line : string) (e : exn) :
  end_ (detect_kernel_version_line line) = Raised e <->
  (e = IndexError /\ third_field line = None)
  \/ (e = ValueError
      /\ exists field,
           third_field line = Some field
           /\ well_formed_version field = true
           /\ convertible_version field = false).
Proof.
  rewrite detect_kernel_version_line_end. destruct (third_field line) as [field |].
  - destruct (well_formed_version field) eqn:Hwf.
    + destruct (convertible_version field) eqn:Hc.
      * split; [discriminate |].
        intros [[_ H] | (_ & fd & [= <-] & _ & H)]; [discriminate H | congruence].
      * split.
        -- intros [= <-]. right. split; [reflexivity |]. exists field. auto.
        -- intros [[_ H] | [-> _]]; [discriminate H | reflexivity].
    + split; [discriminate |].
      intros [[_ H] | (_ & fd & [= <-] & H & _)]; [discriminate H | congruence].
  - split.
    + intros [= <-]. left. auto.
    + intros [[-> _] | (_ & fd & H & _)]; [reflexivity | discriminate H].
Qed.

Lemma detect_kernel_version_lines_raised (lines : list string) (e : exn) :
  end_ (detect_kernel_version_lines lines) = Raised e <->
  exists pre line post,
    lines = pre ++ line :: post
    /\ Forall (fun l => is_version_line l = false) pre
    /\ is_version_line line = true
    /\ end_ (detect_kernel_version_line line) = Raised e.
Proof.
  induction lines as [| l lines IH]; cbn [detect_kernel_version_lines].
  - split; [discriminate |]. intros (pre & line & post & H & _).
    destruct pre; discriminate H.
  - change (matched (match_ ver_pattern l)) with (is_version_line l).
    destruct (is_version_line l) eqn:Hl.
    + split.
      * intros H. exists [], l, lines. repeat split; auto.
      * intros (pre & line & post & H & Hpre & Hline & Hraise).
        destruct pre as [| x pre]; cbn [app] in H; injection H as -> ->.
        -- exact Hraise.
        -- apply Forall_cons in Hpre as [Hx _]. congruence.
    + rewrite IH. split.
      * intros (pre & line & post & -> & Hpre & Hline & Hraise).
        exists (l :: pre), line, post. repeat split; auto.
      * intros (pre & line & post & H & Hpre & Hline & Hraise).
        destruct pre as [| x pre]; cbn [app] in H; injection H as -> ->; [congruence |].
        apply Forall_cons in Hpre as [_ Hpre]. exists pre, line, post. auto.
Qed.

(** X26: when [detect_kernel_version] raises.  On a file that is read, it
    does so in two cases, both decided by the first line that matches the
    version pattern.  It raises [IndexError] exactly when that line is
    [Linux version ] followed by whitespace only: it has no third field for
    [parts[2]].  It raises [ValueError] exactly when the third field of that
    line is a version of at least three decimal components one of which has
    more than 4300 digits: [int] refuses it.  The header of a Kconfig file,
    [# Linux/... Kernel Configuration], always has a third field and so
    never raises [IndexError]. *)
Theorem detect_kernel_version_raises (fs : filesystem) (fname : string) (f : file)
  (e : exn) :
  fs fname = Some f ->
  (end_ (detect_kernel_version fs fname) = Raised e <->
   exists pre line post,
     readlines (text f) = pre ++ line :: post
     /\ Forall (fun l => is_version_line l = false) pre
     /\ is_version_line line = true
     /\ ((e = IndexError
          /\ startswith "Linux version " line = true
          /\ all_chars isspace (slice_from 14 line) = true)
         \/ (e = ValueError
             /\ exists field,
                  third_field line = Some field
                  /\ well_formed_version field = true
                  /\ convertible_version field = false))).
Proof.
  intros Hf. unfold detect_kernel_version. rewrite (open_found _ _ _ Hf), bind_ret_l.
  rewrite detect_kernel_version_lines_raised. split.
  - intros (pre & line & post & Hl & Hpre & Hline & Hraise).
    exists pre, line, post. repeat split; auto.
    apply detect_kernel_version_line_raised in Hraise as [[-> Hnone] | [-> Hfield]].
    + left. apply (third_field_missing line Hline) in Hnone as [Hs Hall]. auto.
    + right. auto.
  - intros (pre & line & post & Hl & Hpre & Hline & Hcase).
    exists pre, line, post. repeat split; auto.
    apply detect_kernel_version_line_raised.
    destruct Hcase as [(-> & Hs & Hall) | [-> Hfield]].
    + left. split; [reflexivity |]. apply (third_field_missing line Hline). auto.
    + right. auto.
Qed.

Lemma detect_kernel_version_raises_witness :
  end_ (detect_kernel_version Sample.fs "version-short") = Raised IndexError.
Proof.
  apply (detect_kernel_version_raises Sample.fs "version-short"
           (Sample.plain ("Linux version  " +:+ NL)) IndexError eq_refl).
  exists [], ("Linux version  " +:+ NL), [].
  split; [vm_compute; reflexivity |]. split; [constructor |].
  split; [vm_compute; reflexivity |]. left.
  repeat split; vm_compute; reflexivity.
Defined.

(** ** [main]: the recommendations and the help *)

Section MainPrint.

Variable fs : filesystem.
Context {E : Engine}.
Variable help : string.

Lemma print_checklist_plain_end (mode : option string) (checklist : list OptCheck) :
  is_ mode "json" = false -> end_ (print_checklist mode checklist false) = Done tt.
Proof.
  intros Hj.
  destruct (print_checklist_table mode checklist false Hj) as (_ & _ & _ & _ & _ & Hend & _).
  apply Hend, row_valid_without_results.
Qed.

Lemma main_announce_nothing (mode : option string) (a : args) :
  truthy (args_config a) = false -> truthy (args_cmdline a) = false ->
  truthy (args_sysctl a) = false ->
  main_announce mode a = pass.
Proof.
  intros Hc Hl Hs. unfold main_announce. rewrite Hc, Hl, Hs.
  destruct (is_not mode "json"); reflexivity.
Qed.

Lemma bind_call_done {A B} (e : event) (a : A) (k : A -> W event B) :
  bind (call e (Done a)) k = (e :: log (k a), end_ (k a)).
Proof. unfold call. rewrite bind_done. reflexivity. Qed.

Lemma main_mode_run (a : args) : main_mode a = (log (main_mode a), Done (mode_of a)).
Proof.
  rewrite <- main_mode_end. destruct (main_mode a). reflexivity.
Qed.

(** X27: what [--print] does.  Given without a file and with a mode it
    takes, it builds the checklist by calling [add_kconfig_checks] on the
    empty checklist, [add_cmdline_checks] on the result and
    [add_sysctl_checks] on the result of that, all for the architecture of
    the option; it then announces the architecture, unless the mode is
    [json], and prints the checklist without results.  Nothing is populated
    or evaluated, and outside the mode [json] the program exits with
    status 0. *)
Theorem main_print_recommendations (a : args) (cl1 cl2 cl3 : list OptCheck) :
  args_config a = None -> args_cmdline a = None -> args_sysctl a = None ->
  truthy (args_print a) = true -> truthy (args_generate a) = false ->
  (truthy (mode_of a) = true -> in_list (the (mode_of a)) ["verbose"; "json"] = true) ->
  add_kconfig_checks [] (the (args_print a)) = Done cl1 ->
  add_cmdline_checks cl1 (the (args_print a)) = Done cl2 ->
  add_sysctl_checks cl2 (args_print a) = Done cl3 ->
  log (main fs help a)
  = log (main_mode a)
    ++ [Call_add_kconfig_checks [] (the (args_print a));
        Call_add_cmdline_checks cl1 (the (args_print a));
        Call_add_sysctl_checks cl2 (args_print a)]
    ++ (if is_not (mode_of a) "json"
        then [Out (Text (("[+] Printing kernel security hardening options for "
                          +:+ the (args_print a) +:+ "...") +:+ NL))]
        else [])
    ++ (Out <$> log (print_checklist (mode_of a) cl3 false))
  /\ end_ (main fs help a)
     = match end_ (print_checklist (mode_of a) cl3 false) with
       | Done _ => SysExit (ExitCode 0)
       | SysExit e => SysExit e
       | Raised e => Raised e
       end
  /\ (is_ (mode_of a) "json" = false -> end_ (main fs help a) = SysExit (ExitCode 0)).
Proof.
  intros Hc Hl Hs Hp Hg Hm H1 H2 H3.
  assert (Hmode : truthy (mode_of a) && negb (in_list (the (mode_of a)) ["verbose"; "json"])
                  = false).
  { destruct (truthy (mode_of a)); [| reflexivity]. rewrite (Hm eq_refl). reflexivity. }
  unfold main. rewrite main_mode_run, bind_done.
  rewrite (main_announce_nothing (mode_of a) a), (main_check_absent fs (mode_of a) a Hc Hl Hs)
    by (rewrite ?Hc, ?Hl, ?Hs; reflexivity).
  rewrite !bind_pass. unfold main_print. rewrite Hc, Hl, Hs, Hp, Hg, Hmode.
  cbn [is_none andb assert_]. rewrite !bind_ret_l, !bind_pass, !bind_assoc.
  rewrite H1, bind_call_done. cbv beta. rewrite !bind_assoc.
  rewrite H2, bind_call_done. cbv beta. rewrite !bind_assoc.
  rewrite H3, bind_call_done. cbv beta. rewrite !bind_assoc.
  set (report := print_checklist (mode_of a) cl3 false).
  set (K := fun _ : unit =>
              bind (main_generate (mode_of a) a)
                (fun _ => bind (stdout (emit help))
                            (fun _ => ([], @SysExit unit (ExitCode 0))))).
  set (announce :=
         if is_not (mode_of a) "json"
         then [Out (Text (("[+] Printing kernel security hardening options for "
                           +:+ the (args_print a) +:+ "...") +:+ NL))]
         else []).
  assert (Htail :
            bind (if is_not (mode_of a) "json"
                  then stdout (print ("[+] Printing kernel security hardening options for "
                                      +:+ the (args_print a) +:+ "..."))
                  else pass)
              (fun _ => bind (lift report) (fun _ => bind ([], SysExit (ExitCode 0)) K))
            = (announce ++ (Out <$> log report),
               match end_ report with
               | Done _ => SysExit (ExitCode 0)
               | SysExit e => SysExit e
               | Raised e => Raised e
               end)).
  { subst announce. unfold lift, log, end_.
    destruct report as [l [x | e | e]]; destruct (is_not (mode_of a) "json");
      cbn [bind pass ret stdout print emit fst snd fmap list_fmap app];
      rewrite ?app_nil_r; reflexivity. }
  rewrite Htail. cbn [log end_ fst snd].
  split; [reflexivity |]. split; [reflexivity |].
  intros Hj. subst report. rewrite (print_checklist_plain_end _ _ Hj). reflexivity.
Qed.

(** X28: without a file to check, an architecture to print or one to
    generate for, [main] prints the help and exits with status 0; before the
    help it writes the line about the report mode, when a mode other than
    [json] is given, and nothing else.  An option given as the empty string
    counts as not given. *)
Theorem main_prints_help (a : args) :
  truthy (args_config a) = false -> truthy (args_cmdline a) = false ->
  truthy (args_sysctl a) = false -> truthy (args_print a) = false ->
  truthy (args_generate a) = false ->
  main fs help a
  = ((if truthy (args_mode a) && is_not (args_mode a) "json"
      then [Out (Text (("[+] Special report mode: " +:+ the (args_mode a)) +:+ NL))]
      else [])
     ++ [Out (Text help)],
     SysExit (ExitCode 0)).
Proof.
  intros Hc Hl Hs Hp Hg. unfold main.
  rewrite main_mode_run, bind_done.
  rewrite (main_announce_nothing (mode_of a) a Hc Hl Hs).
  unfold main_check, main_print, main_generate. rewrite Hc, Hl, Hs, Hp, Hg.
  rewrite !bind_pass. unfold stdout, emit. cbn [fst snd fmap list_fmap].
  rewrite bind_done. cbn [log end_ fst snd app]. f_equal. f_equal.
  unfold main_mode. destruct (truthy (args_mode a)); [| reflexivity].
  destruct (is_not (args_mode a) "json"); reflexivity.
Qed.

End MainPrint.

Lemma main_print_recommendations_witness :
  end_ (main (E := Sample.engine) Sample.fs "usage" Cli.recommend) = SysExit (ExitCode 0).
Proof.
  destruct (main_print_recommendations (E := Sample.engine) Sample.fs "usage" Cli.recommend
              Sample.kconfig_checks
              (Sample.kconfig_checks ++ [Sample.mk "nosmt" "cmdline" ""])
              ((Sample.kconfig_checks ++ [Sample.mk "nosmt" "cmdline" ""])
               ++ [Sample.mk "kernel.kptr_restrict" "sysctl" "2"])
              eq_refl eq_refl eq_refl eq_refl eq_refl) as (_ & _ & H).
  - intros Hm. discriminate Hm.
  - reflexivity.
  - reflexivity.
  - reflexivity.
  - apply H. reflexivity.
Defined.

Lemma main_prints_help_witness :
  main (E := Sample.engine) Sample.fs "usage" Cli.bare
  = ([Out (Text "usage")], SysExit (ExitCode 0)).
Proof.
  apply (main_prints_help (E := Sample.engine) Sample.fs "usage" Cli.bare
           eq_refl eq_refl eq_refl eq_refl eq_refl).
Defined.


(** ** [main]: the checks *)

Lemma bind_failed {L A} (m : W L A) (k : A -> W L A) : failed (end_ m) -> bind m k = m.
Proof. destruct m as [l [a | e | e]]; cbn; [contradiction | reflexivity | reflexivity]. Qed.

Section MainCheck.

Variable fs : filesystem.
Context {E : Engine}.
Variable help : string.

Lemma main_announce_run (mode : option string) (a : args) :
  main_announce mode a = (log (main_announce mode a), Done tt).
Proof.
  rewrite <- (main_announce_end mode a). destruct (main_announce mode a). reflexivity.
Qed.

(** X29: how [main] calls [perform_checking].  With a Kconfig file and a
    kernel version detected, from the file of [--kernel-version] when there
    is one and from the Kconfig file otherwise, [main] announces the version
    unless the mode is [json] and runs [perform_checking] with the mode, the
    version and the three files of the command line.  With a sysctl file and
    no Kconfig file it runs [perform_checking] with the mode and the sysctl
    file, without a version.  In both cases the run of [main] is its opening
    lines followed by that of [perform_checking], and ends as it does. *)
Theorem main_runs_perform_checking (a : args) :
  truthy (args_print a) = false -> truthy (args_generate a) = false ->
  (truthy (args_config a) = true ->
   forall v msg,
     detect_kernel_version fs
       (the (if truthy (args_kernel_version a) then args_kernel_version a
             else args_config a))
     = ([], Done (Some v, msg)) ->
     main fs help a
     = (log (main_mode a) ++ log (main_announce (mode_of a) a)
        ++ (if is_not (mode_of a) "json"
            then [Out (Text (("[+] Detected kernel version: " +:+ repr_tuple v) +:+ NL))]
            else [])
        ++ log (perform_checking fs (mode_of a) (Some v)
                  (args_config a) (args_cmdline a) (args_sysctl a)),
        end_ (perform_checking fs (mode_of a) (Some v)
                (args_config a) (args_cmdline a) (args_sysctl a))))
  /\ (truthy (args_config a) = false -> truthy (args_cmdline a) = false ->
      truthy (args_sysctl a) = true ->
      main fs help a
      = (log (main_mode a) ++ log (main_announce (mode_of a) a)
         ++ log (perform_checking fs (mode_of a) None None None (args_sysctl a)),
         end_ (perform_checking fs (mode_of a) None None None (args_sysctl a)))).
Proof.
  intros Hp Hg. split.
  - intros Hc v msg Hd. unfold main.
    rewrite main_mode_run, bind_done, main_announce_run, bind_done. cbn [log end_ fst snd].
    unfold main_check. rewrite Hc, Hp, Hg. rewrite !bind_pass.
    assert (Hv : (if truthy (args_kernel_version a)
                  then stdout (detect_kernel_version fs (the (args_kernel_version a)))
                  else stdout (detect_kernel_version fs (the (args_config a))))
                 = @ret event _ (Some v, msg)).
    { destruct (truthy (args_kernel_version a)); rewrite Hd; reflexivity. }
    rewrite Hv, (bind_ret_l (Some v, msg)). rewrite !bind_pass.
    set (run := perform_checking fs (mode_of a) (Some v)
                  (args_config a) (args_cmdline a) (args_sysctl a)).
    assert (Hrun : forall k k' : unit -> W event unit, bind (bind run k) k' = run).
    { intros k k'. rewrite !bind_failed; [reflexivity | | rewrite bind_failed];
        apply perform_checking_failed. }
    change (default [] (Some v)) with v.
    destruct (is_not (mode_of a) "json").
    + rewrite !bind_assoc. unfold stdout, print, emit. cbn [fst snd fmap list_fmap].
      rewrite bind_done. rewrite <- bind_assoc, Hrun. cbn [log end_ fst snd app].
      reflexivity.
    + rewrite !bind_pass, Hrun. cbn [log end_ fst snd app].
      reflexivity.
  - intros Hc Hl Hs. unfold main.
    rewrite main_mode_run, bind_done, main_announce_run, bind_done. cbn [log end_ fst snd].
    unfold main_check. rewrite Hc, Hl, Hs, Hp, Hg. rewrite !bind_pass.
    set (run := perform_checking fs (mode_of a) None None None (args_sysctl a)).
    assert (Hrun : forall k k' : unit -> W event unit, bind (bind run k) k' = run).
    { intros k k'. rewrite !bind_failed; [reflexivity | | rewrite bind_failed];
        apply perform_checking_failed. }
    rewrite Hrun. reflexivity.
Qed.

End MainCheck.

Lemma main_runs_perform_checking_witness :
  end_ (main (E := Sample.engine) Sample.fs "usage" Cli.check)
  = end_ (perform_checking (E := Sample.engine) Sample.fs None (Some [6; 1; 0]%N)
            (Some "config") None None).
Proof.
  destruct (main_runs_perform_checking (E := Sample.engine) Sample.fs "usage" Cli.check
              eq_refl eq_refl) as [H _].
  rewrite (H eq_refl [6; 1; 0]%N "OK"); [reflexivity | vm_compute; reflexivity].
Defined.

